(* Verification of the sync-engine orchestration layer.

   The development embeds, module by module, the privileged-process
   supervisor (electron/src/p2p-main.ts), the IPC bridge
   (electron/src/ipc-bridge.ts, electron/src/preload.ts and the renderer
   side of it in src/lib/app-init.js) and the WebAuthn identity provider
   (src/lib/identity.js).  External collaborators (libp2p, Helia, OrbitDB,
   LevelDB, Web Crypto, the JavaScript evaluator) are not part of the
   repository: every call into them is recorded as an effect and its
   outcome (a value or a thrown error) is supplied by the caller of the
   model, so the theorems range over the behaviours of the collaborators.

   After the fixtures follow the callers and callees of these modules:
   the IPC handlers and the quit sequence of the main process
   (electron/src/index.ts, electron/main.js), the key encodings and the
   credential store of the identity provider, and the start-up and
   shutdown of the page (src/lib/app-init.js). *)

From stdpp Require Import gmap strings list.
From Stdlib Require Import ZArith NArith Lia Zify.
From Stdlib.Strings Require Import Byte Ascii.

Open Scope string_scope.

(* ====================================================================== *)
(** * JavaScript values shared by all modules                              *)
(* ====================================================================== *)

Module Js.

(** A thrown value.  A promise can be rejected with any value: with an
    object or a primitive, seen through the properties the handlers read
    ([error instanceof Error], [error.message], [String(error)],
    [error.code] and [error.notFound]), or with [null] or [undefined],
    which have no properties at all. *)
Inductive JsError :=
| mkError (instanceofError : bool) (message toString : string)
          (code : option string) (notFound : bool)
| Nullish (undefined : bool).

(** [error instanceof Error] *)
Definition err_instanceofError (error : JsError) : bool :=
  match error with mkError i _ _ _ _ => i | Nullish _ => false end.

(** [String(error)] *)
Definition err_toString (error : JsError) : string :=
  match error with
  | mkError _ _ t _ _ => t
  | Nullish u => if u then "undefined" else "null"
  end.

(** The properties of a value that has properties; reading one of
    [null] or [undefined] throws, see [property_of]. *)
Definition err_message (error : JsError) : string :=
  match error with mkError _ m _ _ _ => m | Nullish _ => "" end.
Definition err_code (error : JsError) : option string :=
  match error with mkError _ _ _ c _ => c | Nullish _ => None end.
Definition err_notFound (error : JsError) : bool :=
  match error with mkError _ _ _ _ n => n | Nullish _ => false end.

(** The result of awaiting an external call: it resolves or it throws. *)
Inductive Outcome (A : Type) : Type :=
| Ok (a : A)
| Throw (e : JsError).
Arguments Ok {A} a.
Arguments Throw {A} e.

(** [error instanceof Error ? error.message : String(error)] *)
Definition error_text (error : JsError) : string :=
  if err_instanceofError error then err_message error else err_toString error.

(** [error.code === 'LEVEL_NOT_FOUND' || error.notFound] *)
Definition is_level_not_found (error : JsError) : bool :=
  bool_decide (err_code error = Some "LEVEL_NOT_FOUND") || err_notFound error.

(** The [TypeError] of reading property [name] of [null] or [undefined]. *)
Definition type_error (undefined : bool) (name : string) : JsError :=
  let text := "Cannot read properties of " +:+
              (if undefined then "undefined" else "null") +:+
              " (reading '" +:+ name +:+ "')" in
  mkError true text ("TypeError: " +:+ text) None false.

(** [error.<name>] evaluates to [value] unless [error] is [null] or
    [undefined]. *)
Definition property_of {A} (error : JsError) (name : string) (value : A)
    : Outcome A :=
  match error with
  | mkError _ _ _ _ _ => Ok value
  | Nullish undefined => Throw (type_error undefined name)
  end.

(** [path.join(a, b)] on already normalised segments. *)
Definition path_join (a b : string) : string := a +:+ "/" +:+ b.

(** ** Asynchronous functions

    An async function body is a computation over the module state [S]
    that records the effects [E] it performs, in order, and either
    returns or throws.  Assignments made before a throw persist, as in
    JavaScript. *)
Definition Io (S E A : Type) : Type := S -> Outcome A * S * list E.

Section Io.
Context {S E : Type}.

Definition ret {A} (a : A) : Io S E A := fun s => (Ok a, s, []).

Definition bind {A B} (m : Io S E A) (k : A -> Io S E B) : Io S E B :=
  fun s =>
    match m s with
    | (Ok a, s1, t1) =>
        match k a s1 with (r, s2, t2) => (r, s2, (t1 ++ t2)%list) end
    | (Throw e, s1, t1) => (Throw e, s1, t1)
    end.

(** [try { body } catch (error) { handler }] *)
Definition try_catch {A} (body : Io S E A) (handler : JsError -> Io S E A)
  : Io S E A :=
  fun s =>
    match body s with
    | (Ok a, s1, t1) => (Ok a, s1, t1)
    | (Throw e, s1, t1) =>
        match handler e s1 with (r, s2, t2) => (r, s2, (t1 ++ t2)%list) end
    end.

Definition get : Io S E S := fun s => (Ok s, s, []).
Definition modify (f : S -> S) : Io S E unit := fun s => (Ok tt, f s, []).
Definition emit (e : E) : Io S E unit := fun s => (Ok tt, s, [e]).

(** A pure step that may throw. *)
Definition lift {A} (o : Outcome A) : Io S E A := fun s => (o, s, []).

(** A call into an external collaborator: the effect is recorded, the
    outcome comes from the environment. *)
Definition call {A} (e : E) (o : Outcome A) : Io S E A :=
  fun s => (o, s, [e]).
End Io.

Declare Scope io_scope.
Delimit Scope io_scope with io.
Notation "'let!' x ':=' m 'in' k" := (bind m (fun x => k))
  (at level 10, x name, m at level 100, k at level 200) : io_scope.
Notation "m '>>' k" := (bind m (fun _ => k))
  (at level 100, k at level 200, right associativity) : io_scope.

Definition response {S E A} (r : Outcome A * S * list E) : Outcome A := r.1.1.
Definition response_value {S E A} (r : Outcome A * S * list E) : option A :=
  match r.1.1 with Ok a => Some a | Throw _ => None end.
Definition final {S E A} (r : Outcome A * S * list E) : S := r.1.2.
Definition effects {S E A} (r : Outcome A * S * list E) : list E := r.2.

End Js.
Import Js.
Open Scope io_scope.

(* ====================================================================== *)
(** * The network and storage supervisor (electron/src/p2p-main.ts)        *)
(* ====================================================================== *)

Module P2PMain.

(** Handles of the external objects.  The [_ref] is the object identity;
    the other fields are what the supervisor reads from the object or
    passed when creating it. *)
Record Libp2p := mkLibp2p {
  libp2p_ref : nat;
  node_peerId : string;          (* libp2p.peerId.toString() *)
  node_multiaddrs : list string  (* libp2p.getMultiaddrs().map(toString) *)
}.

Record Helia := mkHelia {
  helia_ref : nat;
  helia_libp2p : Libp2p;
  helia_blockstore : string;
  helia_datastore : string
}.

(** The serialised identity sent by the renderer. *)
Record IdentityDescriptor := mkDescriptor {
  identity_id : string;
  identity_publicKey : list Z;
  identity_type : string
}.

Record OrbitDB := mkOrbitDB {
  orbitdb_ref : nat;
  orbitdb_ipfs : Helia;
  orbitdb_identity : IdentityDescriptor;
  orbitdb_directory : string
}.

(** The module-level variables [libp2p], [helia] and [orbitdb]. *)
Record State := mkState {
  libp2p : option Libp2p;
  helia : option Helia;
  orbitdb : option OrbitDB
}.

Definition initial : State := mkState None None None.

Definition set_libp2p (v : option Libp2p) (s : State) : State :=
  mkState v (helia s) (orbitdb s).
Definition set_helia (v : option Helia) (s : State) : State :=
  mkState (libp2p s) v (orbitdb s).
Definition set_orbitdb (v : option OrbitDB) (s : State) : State :=
  mkState (libp2p s) (helia s) v.

Inductive Effect :=
| CreateLibp2p
| NewLevelBlockstore (location : string)
| NewLevelDatastore (location : string)
| CreateHelia (node : nat) (blocks data : string)
| CreateOrbitDB (ipfs : nat) (identity : string) (directory : string)
| StopOrbitDB (ref : nat)
| StopHelia (ref : nat)
| StopLibp2p (ref : nat)
| ConsoleLog (msg : string)
| ConsoleError (msg : string) (error : JsError).

Record P2PInitResult := mkInitResult {
  success : bool;
  peerId : option string;
  multiaddrs : option (list string);
  storageDir : option string;
  error : option string
}.

(** What the environment answers during one run of [initializeP2P]. *)
Record InitEnv := mkInitEnv {
  env_userData : string;                (* app.getPath('userData') *)
  env_createLibp2p : Outcome Libp2p;
  env_newBlockstore : Outcome unit;
  env_newDatastore : Outcome unit;
  env_createHelia : Outcome nat
}.

Definition initializeP2P (env : InitEnv) : Io State Effect P2PInitResult :=
  emit (ConsoleLog "Initializing P2P network...") >>
  try_catch
    (let! node := call CreateLibp2p (env_createLibp2p env) in
     modify (set_libp2p (Some node)) >>
     let peerId := node_peerId node in
     let multiaddrs := node_multiaddrs node in
     emit (ConsoleLog "libp2p created") >>
     emit (ConsoleLog "Listening on") >>
     let storageDir := path_join (env_userData env) "orbitdb" in
     emit (ConsoleLog "Storage directory") >>
     let blocks := path_join storageDir "blocks" in
     let data := path_join storageDir "data" in
     call (NewLevelBlockstore blocks) (env_newBlockstore env) >>
     call (NewLevelDatastore data) (env_newDatastore env) >>
     let! h := call (CreateHelia (libp2p_ref node) blocks data)
                    (env_createHelia env) in
     modify (set_helia (Some (mkHelia h node blocks data))) >>
     emit (ConsoleLog "Helia (IPFS) created with native LevelDB") >>
     emit (ConsoleLog "P2P network initialized (OrbitDB pending identity)") >>
     ret (mkInitResult true (Some peerId) (Some multiaddrs)
            (Some storageDir) None))
    (fun error =>
       let! first_run :=
         lift (property_of error "code" (is_level_not_found error)) in
       if first_run then
         emit (ConsoleLog "First run - empty blockstore (this is normal)") >>
         emit (ConsoleLog "P2P network initialized successfully") >>
         let! s := get in
         let peerId := match libp2p s with
                       | Some n => node_peerId n | None => "" end in
         let multiaddrs := match libp2p s with
                           | Some n => node_multiaddrs n | None => [] end in
         ret (mkInitResult true (Some peerId) (Some multiaddrs)
                (Some (path_join (env_userData env) "orbitdb")) None)
       else
         emit (ConsoleError "P2P initialization failed:" error) >>
         ret (mkInitResult false None None None (Some (error_text error)))).

Record BindResult := mkBindResult {
  bind_success : bool;
  bind_error : option string
}.

Record BindEnv := mkBindEnv {
  bind_userData : string;
  bind_createOrbitDB : Outcome nat
}.

Definition createOrbitDBWithIdentity (identity : IdentityDescriptor)
    (env : BindEnv) : Io State Effect BindResult :=
  let! s := get in
  match helia s with
  | None =>
      ret (mkBindResult false
             (Some "Helia not initialized. Call initializeP2P first."))
  | Some h =>
      match orbitdb s with
      | Some _ =>
          emit (ConsoleLog "OrbitDB already initialized") >>
          ret (mkBindResult true None)
      | None =>
          try_catch
            (emit (ConsoleLog "Creating OrbitDB with identity:") >>
             let directory :=
               path_join (path_join (bind_userData env) "orbitdb") "orbitdb" in
             let! o := call (CreateOrbitDB (helia_ref h)
                               (identity_id identity) directory)
                            (bind_createOrbitDB env) in
             modify (set_orbitdb (Some (mkOrbitDB o h identity directory))) >>
             emit (ConsoleLog "OrbitDB created") >>
             ret (mkBindResult true None))
            (fun error =>
               let! first_run :=
                 lift (property_of error "code" (is_level_not_found error)) in
               if first_run then
                 emit (ConsoleLog "First run detected - initializing identity store (this is normal)") >>
                 emit (ConsoleLog "OrbitDB initialized (identity store will be created on first use)") >>
                 ret (mkBindResult true None)
               else
                 emit (ConsoleError "OrbitDB creation failed:" error) >>
                 ret (mkBindResult false (Some (error_text error))))
      end
  end.

Definition getPeerId (s : State) : option string :=
  match libp2p s with Some n => Some (node_peerId n) | None => None end.

Definition getMultiaddrs (s : State) : list string :=
  match libp2p s with Some n => node_multiaddrs n | None => [] end.

Definition getOrbitDB (s : State) : option OrbitDB := orbitdb s.

(** The outcomes of the three [stop()] calls of one [shutdownP2P] run. *)
Record ShutdownEnv := mkShutdownEnv {
  env_stopOrbitDB : Outcome unit;
  env_stopHelia : Outcome unit;
  env_stopLibp2p : Outcome unit
}.

Definition shutdownP2P (env : ShutdownEnv) : Io State Effect unit :=
  emit (ConsoleLog "Shutting down P2P network...") >>
  try_catch
    (let! s := get in
     match orbitdb s with
     | Some o =>
         call (StopOrbitDB (orbitdb_ref o)) (env_stopOrbitDB env) >>
         modify (set_orbitdb None) >>
         emit (ConsoleLog "OrbitDB stopped")
     | None => ret tt
     end >>
     let! s := get in
     match helia s with
     | Some h =>
         call (StopHelia (helia_ref h)) (env_stopHelia env) >>
         modify (set_helia None) >>
         emit (ConsoleLog "Helia stopped")
     | None => ret tt
     end >>
     let! s := get in
     match libp2p s with
     | Some n =>
         call (StopLibp2p (libp2p_ref n)) (env_stopLibp2p env) >>
         modify (set_libp2p None) >>
         emit (ConsoleLog "libp2p stopped")
     | None => ret tt
     end >>
     emit (ConsoleLog "P2P network shutdown complete"))
    (fun error => emit (ConsoleError "Shutdown error:" error)).

(** ** Observations on a run *)

Definition is_stop (e : Effect) : bool :=
  match e with
  | StopOrbitDB _ | StopHelia _ | StopLibp2p _ => true
  | _ => false
  end.

(** The teardown calls of a run, in the order they were made. *)
Definition stops (t : list Effect) : list Effect := List.filter is_stop t.

(** The teardown of every member that is non-null in [s]: database
    engine, then storage, then network node. *)
Definition teardown_plan (s : State) : list Effect :=
  (match orbitdb s with Some o => [StopOrbitDB (orbitdb_ref o)] | None => [] end ++
   match helia s with Some h => [StopHelia (helia_ref h)] | None => [] end ++
   match libp2p s with Some n => [StopLibp2p (libp2p_ref n)] | None => [] end)%list.

Definition stopped : State := mkState None None None.

(** ** The life of the process: any sequence of supervisor calls, each
    with whatever the collaborators answer. *)
Inductive Call :=
| Initialize (env : InitEnv)
| BindEngine (identity : IdentityDescriptor) (env : BindEnv)
| Shutdown (env : ShutdownEnv).

Definition after (c : Call) (s : State) : State :=
  match c with
  | Initialize env => final (initializeP2P env s)
  | BindEngine identity env => final (createOrbitDBWithIdentity identity env s)
  | Shutdown env => final (shutdownP2P env s)
  end.

Inductive reachable : State -> Prop :=
| reachable_initial : reachable initial
| reachable_after (c : Call) (s : State) :
    reachable s -> reachable (after c s).

End P2PMain.

(* ====================================================================== *)
(** * The database bridge, privileged side (electron/src/ipc-bridge.ts)    *)
(* ====================================================================== *)

Module IpcBridge.

(** A database object returned by [orbitdb.open]. *)
Record Database := mkDatabase {
  db_ref : nat;
  db_address : string;
  db_name : string;
  db_type : string
}.

(** A document, seen through [doc._id]; the rest of it is opaque. *)
Record Doc := mkDoc {
  doc_id : option string;
  doc_body : string
}.

(** A log entry, seen through [entry.payload?.op]. *)
Record Payload := mkPayload { payload_op : option string }.
Record Entry := mkEntry {
  entry_hash : string;
  entry_payload : option Payload
}.

(** The message sent on the ['orbitdb:update'] channel. *)
Record UpdateMessage := mkUpdate {
  upd_address : string;
  upd_entry : Entry;
  upd_operation : string
}.

(** [options] of ['orbitdb:open']: [None] is an absent property. *)
Record OpenOptions := mkOptions {
  opt_type : option string;
  opt_create : option bool
}.

(** The module state: the supervisor's variables (read through
    [getOrbitDB]), the [databases] map, and the ['update'] handlers
    attached to database objects, each with the address it captured. *)
Record State := mkState {
  supervisor : P2PMain.State;
  databases : gmap string Database;
  update_handlers : list (nat * string)
}.

Definition set_databases (f : gmap string Database -> gmap string Database)
    (st : State) : State :=
  mkState (supervisor st) (f (databases st)) (update_handlers st).

Definition add_update_handler (db : nat) (address : string) (st : State)
    : State :=
  mkState (supervisor st) (databases st)
          (update_handlers st ++ [(db, address)])%list.

Inductive Effect :=
| OrbitOpen (orbitdb : nat) (name type : string) (create : bool)
| DbClose (db : nat)
| DbAll (db : nat)
| DbPut (db : nat) (doc : Doc)
| DbDel (db : nat) (key : string)
| DbGet (db : nat) (id : string)
| Eval (source : string)
| WebContentsSend (channel : string) (msg : UpdateMessage)
| ConsoleLog (msg : string)
| ConsoleError (msg : string) (error : JsError).

(** The response objects of the handlers. *)
Inductive Response :=
| Failure (error : string)                  (* { success: false, error } *)
| Success                                   (* { success: true } *)
| Opened (address name type : string)
| DatabaseList (dbs : list (string * string * string))
| Documents (documents : list Doc)
| Hash (hash : string)
| Document (document : option Doc)
| Info (address name type : string).

(** [a || d] for an optional string. *)
Definition or_default (a : option string) (d : string) : string :=
  match a with
  | Some s => if bool_decide (s = "") then d else s
  | None => d
  end.

(** The object literal [{ type: options.type || 'documents',
    create: options.create !== false, ...options }]: own properties of
    [options] come last and win. *)
Definition open_arguments (options : OpenOptions) : string * bool :=
  let type := or_default (opt_type options) "documents" in
  let create := negb (bool_decide (opt_create options = Some false)) in
  (match opt_type options with Some t => t | None => type end,
   match opt_create options with Some c => c | None => create end).

(** [entry.payload?.op || 'unknown'] *)
Definition operation_of (entry : Entry) : string :=
  or_default (match entry_payload entry with
              | Some p => payload_op p | None => None end) "unknown".

Definition not_found (address : string) : Response :=
  Failure ("Database not found: " +:+ address).

Definition handle_open (name : string) (options : OpenOptions)
    (env_open : Outcome Database) : Io State Effect Response :=
  try_catch
    (let! st := get in
     match P2PMain.getOrbitDB (supervisor st) with
     | None =>
         ret (Failure
           "OrbitDB not initialized. Call createOrbitDB with identity first.")
     | Some orbitdb =>
         emit (ConsoleLog ("Opening database: " +:+ name)) >>
         let args := open_arguments options in
         let! db := call (OrbitOpen (P2PMain.orbitdb_ref orbitdb) name
                            args.1 args.2) env_open in
         let address := db_address db in
         modify (set_databases (insert address db)) >>
         emit (ConsoleLog ("Database opened: " +:+ address)) >>
         modify (add_update_handler (db_ref db) address) >>
         ret (Opened address (db_name db) (db_type db))
     end)
    (fun error =>
       emit (ConsoleError "Failed to open database:" error) >>
       ret (Failure (error_text error))).

(** The ['update'] handlers of database object [db] firing for [entry]. *)
Definition on_update (st : State) (db : nat) (entry : Entry) : list Effect :=
  flat_map
    (fun h : nat * string =>
       if bool_decide (h.1 = db) then
         [ConsoleLog ("Database update: " +:+ h.2);
          WebContentsSend "orbitdb:update"
            (mkUpdate h.2 entry (operation_of entry))]
       else [])
    (update_handlers st).

Definition handle_close (address : string) (env_close : Outcome unit)
    : Io State Effect Response :=
  try_catch
    (let! st := get in
     match databases st !! address with
     | None => ret (not_found address)
     | Some db =>
         call (DbClose (db_ref db)) env_close >>
         modify (set_databases (delete address)) >>
         emit (ConsoleLog ("Database closed: " +:+ address)) >>
         ret Success
     end)
    (fun error =>
       emit (ConsoleError "Failed to close database:" error) >>
       ret (Failure (error_text error))).

(** The entries are listed in the order of [map_to_list]; JavaScript
    lists them in insertion order. *)
Definition handle_getDatabases : Io State Effect Response :=
  try_catch
    (let! st := get in
     ret (DatabaseList
            (map (fun kv : string * Database =>
                    (kv.1, db_name kv.2, db_type kv.2))
                 (map_to_list (databases st)))))
    (fun error => ret (Failure (error_text error))).

(** The value of [eval(`(${filterFn})`)] and its use by [all.filter],
    which calls the function with each element and its index. *)
Inductive FilterValue :=
| NotCallable
| Callable (f : nat -> Doc -> Outcome bool).

Definition not_a_function : JsError :=
  mkError true "filter is not a function"
          "TypeError: filter is not a function" None false.

Fixpoint array_filter (f : nat -> Doc -> Outcome bool) (index : nat)
    (all : list Doc) : Outcome (list Doc) :=
  match all with
  | [] => Ok []
  | d :: rest =>
      match f index d with
      | Throw e => Throw e
      | Ok keep =>
          match array_filter f (S index) rest with
          | Throw e => Throw e
          | Ok kept => Ok (if keep then d :: kept else kept)
          end
      end
  end.

Definition apply_filter (filter : FilterValue) (all : list Doc)
    : Outcome (list Doc) :=
  match filter with
  | NotCallable => Throw not_a_function
  | Callable f => array_filter f 0 all
  end.

(** What the environment answers during one ['orbitdb:query'].  The
    filter text is evaluated by a direct [eval] inside the handler, so
    it runs with the handler's variables in scope ([databases], [db],
    [all], [mainWindow], the imports of the module) and so does the
    function it yields when [all.filter] calls it.  Besides the value of
    the evaluation the environment therefore supplies what this code
    does: [env_scope] to the state of the main process, [env_array] to
    the array [all] before it is filtered, and [env_calls], the calls it
    makes into the collaborators.  A text that never returns has no
    outcome: the runs below are those in which the evaluation and the
    calls of the function return or throw. *)
Record QueryEnv := mkQueryEnv {
  env_all : Outcome (list Doc);
  env_eval : Outcome FilterValue;
  env_scope : State -> State;
  env_array : list Doc -> list Doc;
  env_calls : list Effect
}.

(** An evaluation that touches nothing but its own value. *)
Definition contained (all : Outcome (list Doc)) (eval : Outcome FilterValue)
    : QueryEnv :=
  mkQueryEnv all eval (fun st => st) (fun documents => documents) [].

(** The calls made by the evaluated code, in order. *)
Definition emit_all (calls : list Effect) : Io State Effect unit :=
  fun st => (Ok tt, st, calls).

Definition is_documents (db : Database) : bool :=
  bool_decide (db_type db = "documents").

Definition handle_query (address : string) (filterFn : option string)
    (env : QueryEnv) : Io State Effect Response :=
  try_catch
    (let! st := get in
     match databases st !! address with
     | None => ret (not_found address)
     | Some db =>
         if negb (is_documents db) then
           ret (Failure "Query only works with documents type databases")
         else
           let! all := call (DbAll (db_ref db)) (env_all env) in
           match filterFn with
           | Some source =>
               if bool_decide (source = "") then ret (Documents all)
               else
                 try_catch
                   (emit (Eval ("(" +:+ source +:+ ")")) >>
                    emit_all (env_calls env) >>
                    modify (env_scope env) >>
                    let! filter := lift (env_eval env) in
                    let! results :=
                      lift (apply_filter filter (env_array env all)) in
                    ret (Documents results))
                   (fun evalError =>
                      emit (ConsoleError "Invalid filter function:" evalError) >>
                      ret (Failure "Invalid filter function"))
           | None => ret (Documents all)
           end
     end)
    (fun error =>
       emit (ConsoleError "Query failed:" error) >>
       ret (Failure (error_text error))).

Definition handle_add (address : string) (doc : Doc)
    (env_put : Outcome string) : Io State Effect Response :=
  try_catch
    (let! st := get in
     match databases st !! address with
     | None => ret (not_found address)
     | Some db =>
         if negb (is_documents db) then
           ret (Failure "Add only works with documents type databases")
         else
           emit (ConsoleLog ("Adding document to " +:+ address)) >>
           let! hash := call (DbPut (db_ref db) doc) env_put in
           ret (Hash hash)
     end)
    (fun error =>
       emit (ConsoleError "Add failed:" error) >>
       ret (Failure (error_text error))).

(** [!doc._id] *)
Definition missing_id (doc : Doc) : bool :=
  match doc_id doc with
  | Some s => bool_decide (s = "")
  | None => true
  end.

Definition handle_put (address : string) (doc : Doc)
    (env_put : Outcome string) : Io State Effect Response :=
  try_catch
    (let! st := get in
     match databases st !! address with
     | None => ret (not_found address)
     | Some db =>
         if negb (is_documents db) then
           ret (Failure "Put only works with documents type databases")
         else if missing_id doc then
           ret (Failure "Document must have _id field for update")
         else
           emit (ConsoleLog ("Updating document in " +:+ address)) >>
           let! hash := call (DbPut (db_ref db) doc) env_put in
           ret (Hash hash)
     end)
    (fun error =>
       emit (ConsoleError "Put failed:" error) >>
       ret (Failure (error_text error))).

Definition handle_del (address : string) (key : string)
    (env_del : Outcome string) : Io State Effect Response :=
  try_catch
    (let! st := get in
     match databases st !! address with
     | None => ret (not_found address)
     | Some db =>
         if negb (is_documents db) then
           ret (Failure "Del only works with documents type databases")
         else
           emit (ConsoleLog ("Deleting document from " +:+ address)) >>
           let! hash := call (DbDel (db_ref db) key) env_del in
           ret (Hash hash)
     end)
    (fun error =>
       emit (ConsoleError "Del failed:" error) >>
       ret (Failure (error_text error))).

Definition handle_get (address : string) (id : string)
    (env_get : Outcome (option Doc)) : Io State Effect Response :=
  try_catch
    (let! st := get in
     match databases st !! address with
     | None => ret (not_found address)
     | Some db =>
         if negb (is_documents db) then
           ret (Failure "Get only works with documents type databases")
         else
           let! doc := call (DbGet (db_ref db) id) env_get in
           ret (Document doc)
     end)
    (fun error =>
       emit (ConsoleError "Get failed:" error) >>
       ret (Failure (error_text error))).

Definition handle_info (address : string) : Io State Effect Response :=
  try_catch
    (let! st := get in
     match databases st !! address with
     | None => ret (not_found address)
     | Some db => ret (Info (db_address db) (db_name db) (db_type db))
     end)
    (fun error => ret (Failure (error_text error))).

(** One invocation arriving over IPC, together with what the database
    engine answers while it is served. *)
Inductive Request :=
| Open (name : string) (options : OpenOptions) (env : Outcome Database)
| Close (address : string) (env : Outcome unit)
| GetDatabases
| Query (address : string) (filterFn : option string) (env : QueryEnv)
| Add (address : string) (doc : Doc) (env : Outcome string)
| Put (address : string) (doc : Doc) (env : Outcome string)
| Del (address : string) (key : string) (env : Outcome string)
| Get (address : string) (id : string) (env : Outcome (option Doc))
| GetInfo (address : string).

Definition handle (r : Request) : Io State Effect Response :=
  match r with
  | Open name options env => handle_open name options env
  | Close address env => handle_close address env
  | GetDatabases => handle_getDatabases
  | Query address filterFn env => handle_query address filterFn env
  | Add address doc env => handle_add address doc env
  | Put address doc env => handle_put address doc env
  | Del address key env => handle_del address key env
  | Get address id env => handle_get address id env
  | GetInfo address => handle_info address
  end.

(** The database address a request refers to, if it names one. *)
Definition target (r : Request) : option string :=
  match r with
  | Open _ _ _ | GetDatabases => None
  | Close a _ | Query a _ _ | Add a _ _ | Put a _ _ | Del a _ _
  | Get a _ _ | GetInfo a => Some a
  end.



(** The five document operations. *)
Definition is_document_operation (r : Request) : bool :=
  match r with
  | Query _ _ _ | Add _ _ _ | Put _ _ _ | Del _ _ _ | Get _ _ _ => true
  | _ => false
  end.

(** The word that starts the type-mismatch message of each document
    operation. *)
Definition operation_name (r : Request) : string :=
  match r with
  | Query _ _ _ => "Query"
  | Add _ _ _ => "Add"
  | Put _ _ _ => "Put"
  | Del _ _ _ => "Del"
  | Get _ _ _ => "Get"
  | _ => ""
  end.


End IpcBridge.

(* ====================================================================== *)
(** * The bridge, renderer side (electron/src/preload.ts, src/lib/app-init.js) *)
(* ====================================================================== *)

Module Renderer.
Import IpcBridge.

(** What the application observes when one of its callbacks runs. *)
Inductive Reaction :=
| Logged (msg : string)
| ReloadIntentions (address : string).

(** A listener registered with [ipcRenderer.on]: its identity and the
    callback it wraps. *)
Record Listener := mkListener {
  listener_ref : nat;
  callback : UpdateMessage -> list Reaction
}.

(** [ipcRenderer]'s listeners, oldest first, each with its channel. *)
Definition Registry := list (string * Listener).

(** [onUpdate(callback)]: every callback is registered on the one
    channel ['orbitdb:update']. *)
Definition onUpdate (l : Listener) (reg : Registry) : Registry :=
  (reg ++ [("orbitdb:update", l)])%list.

(** [removeListener] drops the most recently added matching instance. *)
Fixpoint remove_last (channel : string) (ref : nat) (rev_reg : Registry)
    : Registry :=
  match rev_reg with
  | [] => []
  | (c, l) :: rest =>
      if bool_decide (c = channel) && bool_decide (listener_ref l = ref)
      then rest
      else (c, l) :: remove_last channel ref rest
  end.

Definition removeUpdateListener (l : Listener) (reg : Registry) : Registry :=
  rev (remove_last "orbitdb:update" (listener_ref l) (rev reg)).

(** The callback installed by [initializeApp] (step 6); the address is
    the module variable [intentionsDbAddress] at the time of the call. *)
Definition intentions_callback (intentionsDbAddress : string)
    (data : UpdateMessage) : list Reaction :=
  Logged "Database update received:" ::
  (if bool_decide (upd_address data = intentionsDbAddress)
   then [ReloadIntentions intentionsDbAddress]
   else []).

(** The listener of an application instance watching [address]. *)
Definition subscriber (ref : nat) (address : string) : Listener :=
  mkListener ref (intentions_callback address).

(** [webContents.send(channel, msg)] as received by the renderer: every
    listener on the channel is invoked with the message. *)
Definition receive (reg : Registry) (channel : string) (msg : UpdateMessage)
    : list (nat * UpdateMessage * list Reaction) :=
  flat_map
    (fun cl : string * Listener =>
       if bool_decide (cl.1 = channel)
       then [(listener_ref cl.2, msg, callback cl.2 msg)]
       else [])
    reg.

(** All listener invocations caused by a list of bridge effects. *)
Definition deliver (reg : Registry) (effects : list Effect)
    : list (nat * UpdateMessage * list Reaction) :=
  flat_map
    (fun e => match e with
              | WebContentsSend channel msg => receive reg channel msg
              | _ => []
              end)
    effects.

(** The invocations caused by database object [db] emitting ['update']
    with [entry]. *)
Definition deliveries (st : State) (reg : Registry) (db : nat) (entry : Entry)
    : list (nat * UpdateMessage * list Reaction) :=
  deliver reg (on_update st db entry).

(** The isolation property of update events: a subscriber watching
    [watched] is only ever invoked with messages of that address. *)
Definition updates_reach_only_their_subscribers : Prop :=
  forall (st : State) (reg : Registry) (db : nat) (entry : Entry)
         (ref : nat) (watched : string) (msg : UpdateMessage)
         (reaction : list Reaction),
    In ("orbitdb:update", subscriber ref watched) reg ->
    In (ref, msg, reaction) (deliveries st reg db entry) ->
    upd_address msg = watched.

End Renderer.

(* ====================================================================== *)
(** * The WebAuthn identity provider (src/lib/identity.js)                 *)
(* ====================================================================== *)

Module Identity.

Definition bytes := list byte.

Definition char_at (alphabet : string) (i : N) : ascii :=
  match String.get (N.to_nat i) alphabet with
  | Some c => c
  | None => "?"%char
  end.

(** ** [arrayBufferToBase64]: [btoa] of the bytes taken as characters. *)
Definition base64_alphabet : string :=
  "ABCDEFGHIJKLMNOPQRSTUVWXYZabcdefghijklmnopqrstuvwxyz0123456789+/".

Definition b64 (i : N) : ascii := char_at base64_alphabet i.

Fixpoint btoa (binary : list N) : string :=
  match binary with
  | [] => ""
  | [a] =>
      String (b64 (a / 4)) (String (b64 (a mod 4 * 16)) "==")
  | [a; b] =>
      String (b64 (a / 4))
        (String (b64 (a mod 4 * 16 + b / 16))
           (String (b64 (b mod 16 * 4)) "="))
  | a :: b :: c :: rest =>
      String (b64 (a / 4))
        (String (b64 (a mod 4 * 16 + b / 16))
           (String (b64 (b mod 16 * 4 + c / 64))
              (String (b64 (c mod 64)) (btoa rest))))
  end%N.

Definition arrayBufferToBase64 (buffer : bytes) : string :=
  btoa (map Byte.to_N buffer).

(** ** [base58btc.encode] of the multiformats package: the multibase
    prefix [z] followed by the Bitcoin-alphabet base-58 numeral of the
    bytes, one [1] for every leading zero byte. *)
Definition base58_alphabet : string :=
  "123456789ABCDEFGHJKLMNPQRSTUVWXYZabcdefghijkmnopqrstuvwxyz".

Definition bytes_to_N (b : bytes) : N :=
  fold_left (fun acc x => acc * 256 + Byte.to_N x)%N b 0%N.

Fixpoint base58_digits (fuel : nat) (n : N) (acc : string) : string :=
  match fuel with
  | O => acc
  | S fuel' =>
      if (n =? 0)%N then acc
      else base58_digits fuel' (n / 58)%N
             (String (char_at base58_alphabet (n mod 58)%N) acc)
  end.

Fixpoint leading_zeros (b : bytes) : string :=
  match b with
  | x00 :: rest => String "1" (leading_zeros rest)
  | _ => ""
  end.

Definition base58_encode (b : bytes) : string :=
  let n := bytes_to_N b in
  leading_zeros b +:+ base58_digits (N.size_nat n) n "".

Definition base58btc_encode (b : bytes) : string :=
  String "z" (base58_encode b).

(** ** [generateDID] *)
Definition generateDID (publicKeyBytes : bytes) : string :=
  "did:key:" +:+ base58btc_encode publicKeyBytes.

(** The [publicKey] property of a credential: the [ArrayBuffer] returned
    by the authenticator, the [Uint8Array] rebuilt from storage, or
    [null] when the authenticator exposes no key. *)
Inductive KeyValue :=
| KeyBuffer (b : bytes)
| KeyUint8 (b : bytes)
| KeyNull.

(** [k instanceof Uint8Array ? k : new Uint8Array(k)] *)
Definition to_Uint8Array (k : KeyValue) : bytes :=
  match k with
  | KeyBuffer b => b
  | KeyUint8 b => b
  | KeyNull => []
  end.

Record Credential := mkCredential {
  cred_id : string;
  cred_rawId : string;
  cred_publicKey : KeyValue;
  cred_userName : string;
  cred_createdAt : Z;
  cred_type : string
}.

(** The identity object; [sign] and [verify] are closures over the
    credential and are the functions [identity_verify] and
    [verifyWithWebCrypto] below. *)
Record OrbitIdentity := mkIdentity {
  id : string;
  publicKey : bytes;
  type : string;
  credential : Credential
}.

Inductive Effect :=
| GetRandomValues (length : nat)
| CredentialsCreate (rpId : string) (userName : string)
    (challenge userId : bytes)
| LocalStorageSetItem (key : string) (credentialId : string)
    (publicKeyBase64 : string)
| ImportKey (format : string) (keyData : bytes) (algorithm curve : string)
| Digest (algorithm : string) (data : bytes)
| SubtleVerify (key : nat) (signature data : bytes)
| ConsoleLog (msg : string)
| ConsoleError (msg : string) (error : JsError).

Definition createOrbitDBIdentity (credential : Credential)
    : Io unit Effect OrbitIdentity :=
  emit (ConsoleLog "Creating OrbitDB identity from credential") >>
  let publicKeyBytes := to_Uint8Array (cred_publicKey credential) in
  let did := generateDID publicKeyBytes in
  ret (mkIdentity did publicKeyBytes "webauthn" credential).

(** [saveWebAuthnCredential]: the public key is stored as a string. *)
Definition saveWebAuthnCredential (credential : Credential) (key : string)
    : Io unit Effect unit :=
  let publicKey := arrayBufferToBase64 (to_Uint8Array (cred_publicKey credential)) in
  emit (LocalStorageSetItem ("webauthn-credential-" +:+ key)
          (cred_id credential) publicKey).

(** The [PublicKeyCredential] returned by the authenticator;
    [pkc_getPublicKey] is [None] when the response has no such method. *)
Record PublicKeyCredential := mkPkc {
  pkc_id : string;
  pkc_rawId : bytes;
  pkc_getPublicKey : option (option bytes);
  pkc_type : string
}.

Record SetupEnv := mkSetupEnv {
  env_webauthn : bool;        (* navigator.credentials?.create exists *)
  env_hostname : string;      (* window.location.hostname *)
  env_challenge : bytes;      (* crypto.getRandomValues *)
  env_userId : bytes;
  env_create : Outcome (option PublicKeyCredential);
  env_now : Z                 (* Date.now() *)
}.

Definition plain_error (msg : string) : JsError :=
  mkError true msg ("Error: " +:+ msg) None false.

Definition setupDevice (userName : string) (env : SetupEnv)
    : Io unit Effect (Credential * OrbitIdentity) :=
  emit (ConsoleLog "Setting up device identity for:") >>
  if negb (env_webauthn env) then
    lift (Throw (plain_error "WebAuthn not supported"))
  else
    emit (GetRandomValues 32) >>
    let rpId := if bool_decide (env_hostname env = "localhost")
                then "localhost" else env_hostname env in
    emit (GetRandomValues 32) >>
    let! publicKeyCredential :=
      try_catch
        (call (CredentialsCreate rpId userName
                 (env_challenge env) (env_userId env)) (env_create env))
        (fun error =>
           emit (ConsoleError "WebAuthn creation failed:" error) >>
           lift (Throw error)) in
    match publicKeyCredential with
    | None => lift (Throw (plain_error "Failed to create credential"))
    | Some pkc =>
        let publicKey :=
          match pkc_getPublicKey pkc with
          | Some (Some k) => KeyBuffer k
          | Some None => KeyNull
          | None => KeyBuffer (pkc_rawId pkc)
          end in
        let credential :=
          mkCredential (pkc_id pkc) (arrayBufferToBase64 (pkc_rawId pkc))
            publicKey userName (env_now env) (pkc_type pkc) in
        saveWebAuthnCredential credential "current-user" >>
        let! identity := createOrbitDBIdentity credential in
        emit (ConsoleLog "Device setup complete. DID:") >>
        ret (credential, identity)
    end.

(** What Web Crypto answers during one verification. *)
Record VerifyEnv := mkVerifyEnv {
  env_importKey : Outcome nat;
  env_digest : Outcome bytes;
  env_verify : Outcome bool
}.

Definition hashData (data : bytes) (env : VerifyEnv) : Io unit Effect bytes :=
  call (Digest "SHA-256" data) (env_digest env).

Definition verifyWithWebCrypto (signature data publicKeyBytes : bytes)
    (env : VerifyEnv) : Io unit Effect bool :=
  try_catch
    (let! publicKey := call (ImportKey "raw" publicKeyBytes "ECDSA" "P-256")
                            (env_importKey env) in
     let! dataHash := hashData data env in
     let! isValid := call (SubtleVerify publicKey signature dataHash)
                          (env_verify env) in
     ret isValid)
    (fun error =>
       emit (ConsoleError "Verification error:" error) >>
       ret false).

(** An argument of [identity.verify]: a [Uint8Array], or an array of
    numbers that [new Uint8Array(...)] reduces modulo 256. *)
Inductive BytesLike :=
| Uint8Array (b : bytes)
| NumberArray (l : list Z).

Definition byte_of_Z (z : Z) : byte :=
  match Byte.of_N (Z.to_N (z mod 256)) with
  | Some b => b
  | None => x00
  end.

Definition as_Uint8Array (v : BytesLike) : bytes :=
  match v with
  | Uint8Array b => b
  | NumberArray l => map byte_of_Z l
  end.

(** The [verify] closure of the identity object. *)
Definition identity_verify (signature data publicKey : BytesLike)
    (env : VerifyEnv) : Io unit Effect bool :=
  let dataBytes := as_Uint8Array data in
  let signatureBytes := as_Uint8Array signature in
  let publicKeyBytes := as_Uint8Array publicKey in
  verifyWithWebCrypto signatureBytes dataBytes publicKeyBytes env.

(** [serializeIdentity] of src/lib/app-init.js: the descriptor that crosses
    the process boundary; [sign] and [verify] are dropped. *)
Definition serializeIdentity (identity : OrbitIdentity)
    : P2PMain.IdentityDescriptor :=
  P2PMain.mkDescriptor (id identity)
    (map (fun b => Z.of_N (Byte.to_N b)) (publicKey identity))
    (type identity).

End Identity.

(* ====================================================================== *)
(** * Concrete runs used as witnesses and counterexamples                  *)
(* ====================================================================== *)

Module Fixtures.
Import P2PMain.

Definition node_A : Libp2p :=
  mkLibp2p 1 "12D3KooWA" ["/ip4/127.0.0.1/tcp/4003"; "/ip4/127.0.0.1/tcp/50001"].

(** A second node of the same process: port 4003 is taken, so it only
    listens on a dynamic port, and its peer id is fresh. *)
Definition node_B : Libp2p :=
  mkLibp2p 2 "12D3KooWB" ["/ip4/127.0.0.1/tcp/50002"].

Definition level_not_found : JsError :=
  mkError true "NotFound: " "Error: NotFound: " (Some "LEVEL_NOT_FOUND") true.

Definition level_locked : JsError :=
  mkError true "Database is not open" "Error: Database is not open"
          (Some "LEVEL_DATABASE_NOT_OPEN") false.

Definition stop_failed : JsError :=
  mkError true "stop failed" "Error: stop failed" None false.

Definition userData : string := "/home/user/.config/SyncEngine".

(** First start: every collaborator succeeds. *)
Definition first_start : InitEnv :=
  mkInitEnv userData (Ok node_A) (Ok tt) (Ok tt) (Ok 10).

(** A later call in which every collaborator succeeds again. *)
Definition second_start : InitEnv :=
  mkInitEnv userData (Ok node_B) (Ok tt) (Ok tt) (Ok 11).

(** A later call in which the stores are still held by the first Helia. *)
Definition second_start_locked : InitEnv :=
  mkInitEnv userData (Ok node_B) (Ok tt) (Ok tt) (Throw level_locked).

(** First run with nothing on disk. *)
Definition first_run_empty_disk : InitEnv :=
  mkInitEnv userData (Ok node_A) (Ok tt) (Ok tt) (Throw level_not_found).

Definition ready : State := final (initializeP2P first_start initial).

Definition alice : IdentityDescriptor :=
  mkDescriptor "did:key:zLdp" [1; 2; 3]%Z "webauthn".

Definition bob : IdentityDescriptor :=
  mkDescriptor "did:key:z5Q" [255]%Z "webauthn".

(** The identity store of the engine does not exist yet. *)
Definition bind_empty_store : BindEnv :=
  mkBindEnv userData (Throw level_not_found).

Definition bound : State :=
  final (createOrbitDBWithIdentity alice (mkBindEnv userData (Ok 20)) ready).

(** ** The bridge *)

Definition intentions_db : IpcBridge.Database :=
  IpcBridge.mkDatabase 1 "/orbitdb/zdpuA" "intentions" "documents".

Definition attention_log : IpcBridge.Database :=
  IpcBridge.mkDatabase 2 "/orbitdb/zdpuB" "attention-alice" "eventlog".

Definition bridge_ready : IpcBridge.State :=
  IpcBridge.mkState bound ∅ [].

Definition documents_options : IpcBridge.OpenOptions :=
  IpcBridge.mkOptions (Some "documents") (Some true).

Definition eventlog_options : IpcBridge.OpenOptions :=
  IpcBridge.mkOptions (Some "eventlog") (Some true).

(** The intentions database has been opened. *)
Definition one_open : IpcBridge.State :=
  final (IpcBridge.handle_open "intentions" documents_options
           (Ok intentions_db) bridge_ready).

(** Both databases have been opened. *)
Definition two_open : IpcBridge.State :=
  final (IpcBridge.handle_open "attention-alice" eventlog_options
           (Ok attention_log) one_open).

Definition some_doc : IpcBridge.Doc :=
  IpcBridge.mkDoc (Some "int_1") "{ title: 'Plant a tree' }".

Definition put_entry : IpcBridge.Entry :=
  IpcBridge.mkEntry "zdpuEntry1" (Some (IpcBridge.mkPayload (Some "PUT"))).





Definition no_answers : IpcBridge.QueryEnv :=
  IpcBridge.contained (Ok [some_doc]) (Ok IpcBridge.NotCallable).

(** ** The renderer *)

(** One application listener, watching the attention log. *)
Definition attention_watcher : Renderer.Registry :=
  Renderer.onUpdate (Renderer.subscriber 7 "/orbitdb/zdpuB") [].

(** ** Identities *)

Definition key_bytes : Identity.bytes := [x04; x01; x02; x03].

(** A credential as [setupDevice] builds it. *)
Definition fresh_credential : Identity.Credential :=
  Identity.mkCredential "cred-1" "AQ==" (Identity.KeyBuffer key_bytes)
    "Alice" 1700000000000 "public-key".

(** The same key reloaded from storage under another name and date. *)
Definition reloaded_credential : Identity.Credential :=
  Identity.mkCredential "cred-2" "Ag==" (Identity.KeyUint8 key_bytes)
    "Alice (laptop)" 1800000000000 "public-key".

Definition authenticator_answer : Identity.PublicKeyCredential :=
  Identity.mkPkc "cred-1" [x01] (Some (Some key_bytes)) "public-key".

Definition setup_monday : Identity.SetupEnv :=
  Identity.mkSetupEnv true "localhost" [x0a] [x0b]
    (Ok (Some authenticator_answer)) 1700000000000.

Definition setup_tuesday : Identity.SetupEnv :=
  Identity.mkSetupEnv true "sync.example.org" [x1a] [x1b]
    (Ok (Some authenticator_answer)) 1800000000000.

Definition crypto_error : JsError :=
  mkError true "Crypto error" "Error: Crypto error" None false.

(** Web Crypto rejects the key on import. *)
Definition malformed_key : Identity.VerifyEnv :=
  Identity.mkVerifyEnv (Throw crypto_error) (Ok []) (Ok true).

End Fixtures.

(* ====================================================================== *)
(** * Dialling a peer (electron/src/p2p-main.ts, dialPeer)                 *)
(* ====================================================================== *)

Module Dial.
Import P2PMain.

Inductive Effect :=
| ConsoleLog (msg : string)
| Multiaddr (text : string)          (* multiaddr(multiaddrString) *)
| Libp2pDial (node : nat) (ma : string)
| ConsoleError (msg : string) (error : JsError).





End Dial.

(* ====================================================================== *)
(** * Closing every database (electron/src/ipc-bridge.ts, closeAllDatabases) *)
(* ====================================================================== *)

Module BridgeShutdown.
Import IpcBridge.

(** The body of the loop: one [db.close()] inside its own try/catch. *)
Definition close_entry (env_close : string -> Outcome unit)
    (entry : string * Database) : Io State Effect unit :=
  try_catch
    (call (DbClose (db_ref entry.2)) (env_close entry.1) >>
     emit (ConsoleLog ("Closed database: " +:+ entry.1)))
    (fun error =>
       emit (ConsoleError ("Failed to close database " +:+ entry.1 +:+ ":") error)).

(** [for (const x of xs) { await body(x) }] *)
Fixpoint for_each {S E A} (body : A -> Io S E unit) (xs : list A) : Io S E unit :=
  match xs with
  | [] => ret tt
  | x :: rest => body x >> for_each body rest
  end.

(** [env_close] tells, per address, what [db.close()] answers.  The
    entries are visited in the order of [map_to_list]; JavaScript visits
    them in insertion order. *)
Definition closeAllDatabases (env_close : string -> Outcome unit)
    : Io State Effect unit :=
  emit (ConsoleLog "Closing all databases...") >>
  let! st := get in
  for_each (close_entry env_close) (map_to_list (databases st)) >>
  modify (set_databases (fun _ => ∅)) >>
  emit (ConsoleLog "All databases closed").

Definition is_close (e : Effect) : bool :=
  match e with DbClose _ => true | _ => false end.

(** The [db.close()] calls of a run, in order. *)
Definition closes (t : list Effect) : list Effect := List.filter is_close t.

End BridgeShutdown.

(* ====================================================================== *)
(** * The main process (electron/src/index.ts)                             *)
(* ====================================================================== *)

Module MainProcess.
Import IpcBridge.

(** The effects of the main process: those of the bridge, those of the
    supervisor, and its own. *)
Inductive Effect :=
| Bridge (e : IpcBridge.Effect)
| Supervisor (e : P2PMain.Effect)
| Dialling (e : Dial.Effect)
| ConsoleLog (msg : string)
| ConsoleError (msg : string) (error : JsError)
| PreventDefault
| AppExit (code : Z).

(** A bridge function called from the main process. *)
Definition in_bridge {A} (m : Io State IpcBridge.Effect A) : Io State Effect A :=
  fun st => match m st with (r, st', t) => (r, st', map Bridge t) end.

Definition with_supervisor (s : P2PMain.State) (st : State) : State :=
  mkState s (databases st) (update_handlers st).

(** A supervisor function called from the main process: it runs on the
    supervisor's module variables. *)
Definition in_supervisor {A} (m : Io P2PMain.State P2PMain.Effect A)
    : Io State Effect A :=
  fun st => match m (supervisor st) with
            | (r, s', t) => (r, with_supervisor s' st, map Supervisor t)
            end.


(** ['p2p:initialize'] *)
Definition ipc_initialize (env : P2PMain.InitEnv)
    : Io State Effect P2PMain.P2PInitResult :=
  try_catch
    (in_supervisor (P2PMain.initializeP2P env))
    (fun error =>
       ret (P2PMain.mkInitResult false None None None (Some (error_text error)))).

(** ['p2p:createOrbitDB'] *)
Definition ipc_createOrbitDB (identity : P2PMain.IdentityDescriptor)
    (env : P2PMain.BindEnv) : Io State Effect P2PMain.BindResult :=
  try_catch
    (in_supervisor (P2PMain.createOrbitDBWithIdentity identity env))
    (fun error => ret (P2PMain.mkBindResult false (Some (error_text error)))).


(** [app.whenReady().then(...)]: the start-up initialisation. *)
Definition on_ready (env : P2PMain.InitEnv) : Io State Effect unit :=
  emit (ConsoleLog "Initializing P2P on app ready...") >>
  try_catch
    (in_supervisor (P2PMain.initializeP2P env) >> ret tt)
    (fun error => emit (ConsoleError "Failed to initialize P2P on startup:" error)).

(** [app.on('before-quit', ...)] *)
Definition before_quit (env_close : string -> Outcome unit)
    (env_stop : P2PMain.ShutdownEnv) : Io State Effect unit :=
  emit (ConsoleLog "App quitting, shutting down...") >>
  emit PreventDefault >>
  in_bridge (BridgeShutdown.closeAllDatabases env_close) >>
  in_supervisor (P2PMain.shutdownP2P env_stop) >>
  emit (AppExit 0).

(** The bridge effects and the supervisor effects of a run. *)
Definition bridge_effects (t : list Effect) : list IpcBridge.Effect :=
  flat_map (fun e => match e with Bridge b => [b] | _ => [] end) t.

Definition supervisor_effects (t : list Effect) : list P2PMain.Effect :=
  flat_map (fun e => match e with Supervisor b => [b] | _ => [] end) t.

End MainProcess.

(* ====================================================================== *)
(** * The first main process (electron/main.js)                            *)
(* ====================================================================== *)

Module LegacyMain.
Import P2PMain.

(** [initializeP2P] of electron/main.js: errors are logged and rethrown. *)
Definition initializeP2P (env : InitEnv) : Io State Effect P2PInitResult :=
  emit (ConsoleLog "Initializing P2P network...") >>
  try_catch
    (let! node := call CreateLibp2p (env_createLibp2p env) in
     modify (set_libp2p (Some node)) >>
     let peerId := node_peerId node in
     emit (ConsoleLog "libp2p created") >>
     emit (ConsoleLog "Listening on") >>
     let storageDir := path_join (env_userData env) "orbitdb" in
     emit (ConsoleLog "Storage directory") >>
     let blocks := path_join storageDir "blocks" in
     let data := path_join storageDir "data" in
     call (NewLevelBlockstore blocks) (env_newBlockstore env) >>
     call (NewLevelDatastore data) (env_newDatastore env) >>
     let! h := call (CreateHelia (libp2p_ref node) blocks data)
                    (env_createHelia env) in
     modify (set_helia (Some (mkHelia h node blocks data))) >>
     emit (ConsoleLog "Helia (IPFS) created with native LevelDB") >>
     emit (ConsoleLog "P2P network initialized (OrbitDB pending identity)") >>
     ret (mkInitResult true (Some peerId) (Some (node_multiaddrs node))
            (Some storageDir) None))
    (fun error =>
       emit (ConsoleError "P2P initialization failed:" error) >>
       lift (Throw error)).

(** [libp2p.peerId] when [libp2p] is undefined. *)
Definition undefined_libp2p : JsError := type_error true "peerId".

(** The ['p2p:initialize'] handler of [setupIPC]. *)
Definition ipc_initialize (env : InitEnv) : Io State Effect P2PInitResult :=
  try_catch
    (let! s := get in
     match helia s with
     | None => initializeP2P env
     | Some _ =>
         match libp2p s with
         | Some node =>
             ret (mkInitResult true (Some (node_peerId node))
                    (Some (node_multiaddrs node)) None None)
         | None => lift (Throw undefined_libp2p)
         end
     end)
    (fun error =>
       let! message := lift (property_of error "message" (err_message error)) in
       ret (mkInitResult false None None None (Some message))).

End LegacyMain.

(* ====================================================================== *)
(** * Observations on runs of the bridge                                   *)
(* ====================================================================== *)

Module BridgeObservations.
Import IpcBridge.



(** The calls made on database objects during a run. *)
Definition is_db_call (e : Effect) : bool :=
  match e with
  | DbClose _ | DbAll _ | DbPut _ _ | DbDel _ _ | DbGet _ _ => true
  | _ => false
  end.

Definition db_calls (t : list Effect) : list Effect := List.filter is_db_call t.


(** What one turn of the loop of [closeAllDatabases] does. *)
Definition close_trace (env_close : string -> Outcome unit)
    (entry : string * Database) : list Effect :=
  match env_close entry.1 with
  | Ok _ => [DbClose (db_ref entry.2); ConsoleLog ("Closed database: " +:+ entry.1)]
  | Throw e =>
      [DbClose (db_ref entry.2);
       ConsoleError ("Failed to close database " +:+ entry.1 +:+ ":") e]
  end.

End BridgeObservations.

(* ====================================================================== *)
(** * Reading a stored key (src/lib/identity.js, base64ToUint8Array)       *)
(* ====================================================================== *)

Module Base64.
Import Identity.

(** ** [atob]: the forgiving base64 decoder of the platform.

    ASCII whitespace is removed; when the length is then a multiple of
    four, one or two trailing [=] are removed; a length that leaves a
    remainder of one, or any character outside the alphabet, is an
    error; the characters are then read six bits at a time and the bits
    left over at the end are dropped. *)
Definition is_ascii_whitespace (c : ascii) : bool :=
  let n := N_of_ascii c in
  ((n =? 9) || (n =? 10) || (n =? 12) || (n =? 13) || (n =? 32))%N.

Fixpoint index_of (c : ascii) (alphabet : string) : option N :=
  match alphabet with
  | EmptyString => None
  | String a rest =>
      if Ascii.eqb a c then Some 0%N
      else match index_of c rest with
           | Some i => Some (N.succ i)
           | None => None
           end
  end.

Definition sextet (c : ascii) : option N := index_of c base64_alphabet.

Definition strip_whitespace (data : list ascii) : list ascii :=
  List.filter (fun c => negb (is_ascii_whitespace c)) data.

Definition strip_padding (data : list ascii) : list ascii :=
  if (length data mod 4 =? 0)%nat then
    match rev data with
    | "="%char :: "="%char :: r => rev r
    | "="%char :: r => rev r
    | _ => data
    end
  else data.

Fixpoint sextets (data : list ascii) : option (list N) :=
  match data with
  | [] => Some []
  | c :: rest =>
      match sextet c, sextets rest with
      | Some i, Some l => Some (i :: l)
      | _, _ => None
      end
  end.

Fixpoint decode_sextets (l : list N) : list N :=
  match l with
  | a :: b :: c :: d :: rest =>
      (a * 4 + b / 16) :: (b mod 16 * 16 + c / 4) :: (c mod 4 * 64 + d)
      :: decode_sextets rest
  | [a; b; c] => [a * 4 + b / 16; b mod 16 * 16 + c / 4]
  | [a; b] => [a * 4 + b / 16]
  | _ => []
  end%N.

Definition invalid_character : JsError :=
  mkError true "The string to be decoded is not correctly encoded."
    "InvalidCharacterError: The string to be decoded is not correctly encoded."
    None false.

Definition atob (data : string) : Outcome (list N) :=
  let chars := strip_padding (strip_whitespace (String.list_ascii_of_string data)) in
  if (length chars mod 4 =? 1)%nat then Throw invalid_character
  else match sextets chars with
       | Some l => Ok (decode_sextets l)
       | None => Throw invalid_character
       end.

(** [bytes[i] = binary.charCodeAt(i)] *)
Definition byte_of_code (n : N) : byte :=
  match Byte.of_N n with
  | Some b => b
  | None => x00
  end.

Definition base64ToUint8Array (base64 : string) : Outcome bytes :=
  match atob base64 with
  | Ok binary => Ok (map byte_of_code binary)
  | Throw e => Throw e
  end.

(** ** The shape of what [btoa] produces: the six-bit groups of the
    bytes, and the padding. *)
Fixpoint groups (binary : list N) : list N :=
  match binary with
  | [] => []
  | [a] => [a / 4; a mod 4 * 16]
  | [a; b] => [a / 4; a mod 4 * 16 + b / 16; b mod 16 * 4]
  | a :: b :: c :: rest =>
      a / 4 :: (a mod 4 * 16 + b / 16) :: (b mod 16 * 4 + c / 64) :: c mod 64
      :: groups rest
  end%N.

Fixpoint padding (binary : list N) : list ascii :=
  match binary with
  | [] => []
  | [_] => ["="%char; "="%char]
  | [_; _] => ["="%char]
  | _ :: _ :: _ :: rest => padding rest
  end.

(** Character codes, as [charCodeAt] returns them for a binary string. *)
Definition small (binary : list N) : Prop := Forall (fun n => (n < 256)%N) binary.

End Base64.

(* ====================================================================== *)
(** * Credential persistence (src/lib/identity.js, localStorage)           *)
(* ====================================================================== *)

Module Storage.
Import Identity Base64.

(** The credential object as it is written: [publicKey] is a string. *)
Record Serialized := mkSerialized {
  ser_id : string;
  ser_rawId : string;
  ser_publicKey : option string;      (* [None]: no such property *)
  ser_userName : string;
  ser_createdAt : Z;
  ser_type : string
}.

(** The text of a [localStorage] item, seen through [JSON.parse]: the
    text [JSON.stringify] gives for a credential object, which parses
    back to an equal object, or a text on which [JSON.parse] throws. *)
Inductive Item :=
| Json (c : Serialized)
| Unparsable (text : string).

Definition syntax_error : JsError :=
  mkError true "Unexpected token in JSON" "SyntaxError: Unexpected token in JSON"
    None false.

Definition json_parse (item : Item) : Outcome Serialized :=
  match item with
  | Json c => Ok c
  | Unparsable _ => Throw syntax_error
  end.

(** [!stored] for a stored text: only the empty text is falsy. *)
Definition is_empty_text (item : Item) : bool :=
  match item with
  | Unparsable text => bool_decide (text = "")
  | Json _ => false
  end.

Definition storage_key (key : string) : string := "webauthn-credential-" +:+ key.

(** A function without module state, called from one that has some. *)
Definition stateless {S E A} (m : Io unit E A) : Io S E A :=
  fun s => match m tt with (r, _, t) => (r, s, t) end.

(** [saveWebAuthnCredential], with the store it writes to. *)
Definition saveWebAuthnCredential (credential : Credential) (key : string)
    : Io (gmap string Item) Effect unit :=
  let publicKey := arrayBufferToBase64 (to_Uint8Array (cred_publicKey credential)) in
  let serialized :=
    mkSerialized (cred_id credential) (cred_rawId credential) (Some publicKey)
      (cred_userName credential) (cred_createdAt credential)
      (cred_type credential) in
  modify (insert (storage_key key) (Json serialized)) >>
  emit (LocalStorageSetItem (storage_key key) (cred_id credential) publicKey).

(** [getWebAuthnCredential].  A stored [publicKey] that is the empty
    string is left as it is by the source; it stands for no bytes in
    every later use, which is what [KeyUint8 []] stands for here. *)
Definition getWebAuthnCredential (key : string)
    : Io (gmap string Item) Effect (option Credential) :=
  try_catch
    (let! store := get in
     match store !! storage_key key with
     | None => ret None
     | Some stored =>
         if is_empty_text stored then ret None
         else
           let! parsed := lift (json_parse stored) in
           let! publicKey :=
             match ser_publicKey parsed with
             | Some text =>
                 if bool_decide (text = "") then ret (KeyUint8 [])
                 else
                   let! b := lift (base64ToUint8Array text) in
                   ret (KeyUint8 b)
             | None => ret KeyNull
             end in
           ret (Some (mkCredential (ser_id parsed) (ser_rawId parsed) publicKey
                        (ser_userName parsed) (ser_createdAt parsed)
                        (ser_type parsed)))
     end)
    (fun error =>
       emit (ConsoleError "Error reading credential:" error) >>
       lift (Throw error)).

(** [setupDevice], with the store it writes to. *)
Definition setupDevice (userName : string) (env : SetupEnv)
    : Io (gmap string Item) Effect (Credential * OrbitIdentity) :=
  emit (ConsoleLog "Setting up device identity for:") >>
  if negb (env_webauthn env) then
    lift (Throw (plain_error "WebAuthn not supported"))
  else
    emit (GetRandomValues 32) >>
    let rpId := if bool_decide (env_hostname env = "localhost")
                then "localhost" else env_hostname env in
    emit (GetRandomValues 32) >>
    let! publicKeyCredential :=
      try_catch
        (call (CredentialsCreate rpId userName
                 (env_challenge env) (env_userId env)) (env_create env))
        (fun error =>
           emit (ConsoleError "WebAuthn creation failed:" error) >>
           lift (Throw error)) in
    match publicKeyCredential with
    | None => lift (Throw (plain_error "Failed to create credential"))
    | Some pkc =>
        let publicKey :=
          match pkc_getPublicKey pkc with
          | Some (Some k) => KeyBuffer k
          | Some None => KeyNull
          | None => KeyBuffer (pkc_rawId pkc)
          end in
        let credential :=
          mkCredential (pkc_id pkc) (arrayBufferToBase64 (pkc_rawId pkc))
            publicKey userName (env_now env) (pkc_type pkc) in
        saveWebAuthnCredential credential "current-user" >>
        let! identity := stateless (createOrbitDBIdentity credential) in
        emit (ConsoleLog "Device setup complete. DID:") >>
        ret (credential, identity)
    end.

(** The credential as it comes back from the store: the same fields, the
    key as a [Uint8Array]. *)
Definition reloaded (c : Credential) : Credential :=
  mkCredential (cred_id c) (cred_rawId c)
    (KeyUint8 (to_Uint8Array (cred_publicKey c)))
    (cred_userName c) (cred_createdAt c) (cred_type c).

End Storage.

(* ====================================================================== *)
(** * Signing (src/lib/identity.js, signWithWebAuthn)                      *)
(* ====================================================================== *)

Module Signing.
Import Identity Base64.

Inductive Effect :=
| Digest (algorithm : string) (data : bytes)
| CredentialsGet (rpId : string) (challenge credentialId : bytes).

Record SignEnv := mkSignEnv {
  env_webauthn : bool;          (* navigator.credentials?.get exists *)
  env_hostname : string;
  env_digest : Outcome bytes;   (* crypto.subtle.digest *)
  env_get : Outcome bytes       (* assertion.response.signature *)
}.

(** [signWithWebAuthn]; the [rawId] of a credential is the base64 text
    written by [setupDevice]. *)
Definition signWithWebAuthn (credential : Credential) (data : bytes)
    (env : SignEnv) : Io unit Effect bytes :=
  if negb (env_webauthn env) then
    lift (Throw (plain_error "WebAuthn not supported"))
  else
    let! challenge := call (Digest "SHA-256" data) (env_digest env) in
    let rpId := if bool_decide (env_hostname env = "localhost")
                then "localhost" else env_hostname env in
    let! credentialId := lift (base64ToUint8Array (cred_rawId credential)) in
    let! signature := call (CredentialsGet rpId challenge credentialId)
                           (env_get env) in
    ret signature.

(** The [sign] closure of the identity object. *)
Definition identity_sign (identity : OrbitIdentity) (data : BytesLike)
    (env : SignEnv) : Io unit Effect bytes :=
  let dataBytes := as_Uint8Array data in
  signWithWebAuthn (credential identity) dataBytes env.

Definition is_prompt (e : Effect) : bool :=
  match e with CredentialsGet _ _ _ => true | _ => false end.

End Signing.

(* ====================================================================== *)
(** * Observations on identifiers                                          *)
(* ====================================================================== *)

Module Did.
Import Identity.

(** The digit a character stands for in the base-58 alphabet. *)
Definition digit (c : ascii) : option N := Base64.index_of c base58_alphabet.

(** Every character of [s] belongs to the base-58 alphabet: the class
    [[1-9A-HJ-NP-Za-km-z]] of the tests. *)
Definition base58_text (s : string) : bool :=
  forallb (fun c => match digit c with Some _ => true | None => false end)
          (String.list_ascii_of_string s).

(** The number a string of base-58 digits denotes, most significant digit
    first, continuing from [v]. *)
Fixpoint value (s : string) (v : N) : N :=
  match s with
  | EmptyString => v
  | String c rest =>
      value rest (v * 58 + match digit c with Some d => d | None => 0 end)%N
  end.

(** [k] times the digit zero. *)
Fixpoint ones (k : nat) : string :=
  match k with
  | O => ""
  | S k' => String "1" (ones k')
  end.

(** The bytes without their leading zero bytes. *)
Fixpoint significant (b : bytes) : bytes :=
  match b with
  | x00 :: rest => significant rest
  | _ => b
  end.

Fixpoint zero_count (b : bytes) : nat :=
  match b with
  | x00 :: rest => S (zero_count rest)
  | _ => O
  end.

End Did.

(* ====================================================================== *)
(** * Application start-up in the renderer (src/lib/app-init.js)           *)
(* ====================================================================== *)

Module AppInit.
Import IpcBridge.

(** The Svelte stores of src/lib/stores.js. *)
Record Stores := mkStores {
  p2pStatus : string;
  peerId : option string;
  orbitdbReady : bool;
  userIdentity : option Identity.OrbitIdentity;
  intentions : list Doc
}.

Definition initial_stores : Stores := mkStores "disconnected" None false None [].

(** [databases.intentions]: the IPC proxy with its [address] property, or
    the in-memory mock with its [mockData]. *)
Inductive Proxy :=
| ElectronProxy (address : option string)
| MockProxy (mockData : list Doc).

(** The renderer: the stores, the module variables of app-init.js, the
    local storage and the listeners of [ipcRenderer]. *)
Record Page := mkPage {
  stores : Stores;
  proxy : option Proxy;
  intentionsDbAddress : option string;
  updateListener : option Renderer.Listener;
  localStorage : gmap string Storage.Item;
  ipc : Renderer.Registry
}.

(** Both processes. *)
Record World := mkWorld {
  page : Page;
  main : State
}.

Inductive Effect :=
| InIdentity (e : Identity.Effect)
| InMain (e : MainProcess.Effect)
| ConsoleLog (msg : string)
| ConsoleError (msg : string) (error : JsError).

Definition set_stores (f : Stores -> Stores) (w : World) : World :=
  mkWorld (mkPage (f (stores (page w))) (proxy (page w))
             (intentionsDbAddress (page w)) (updateListener (page w))
             (localStorage (page w)) (ipc (page w)))
          (main w).

Definition set_p2pStatus (v : string) (s : Stores) : Stores :=
  mkStores v (peerId s) (orbitdbReady s) (userIdentity s) (intentions s).
Definition set_peerId (v : option string) (s : Stores) : Stores :=
  mkStores (p2pStatus s) v (orbitdbReady s) (userIdentity s) (intentions s).
Definition set_orbitdbReady (v : bool) (s : Stores) : Stores :=
  mkStores (p2pStatus s) (peerId s) v (userIdentity s) (intentions s).
Definition set_userIdentity (v : option Identity.OrbitIdentity) (s : Stores)
    : Stores :=
  mkStores (p2pStatus s) (peerId s) (orbitdbReady s) v (intentions s).
Definition set_intentions (v : list Doc) (s : Stores) : Stores :=
  mkStores (p2pStatus s) (peerId s) (orbitdbReady s) (userIdentity s) v.

Definition set_proxy (v : option Proxy) (w : World) : World :=
  mkWorld (mkPage (stores (page w)) v (intentionsDbAddress (page w))
             (updateListener (page w)) (localStorage (page w)) (ipc (page w)))
          (main w).
Definition set_intentionsDbAddress (v : option string) (w : World) : World :=
  mkWorld (mkPage (stores (page w)) (proxy (page w)) v
             (updateListener (page w)) (localStorage (page w)) (ipc (page w)))
          (main w).
Definition set_updateListener (v : option Renderer.Listener) (w : World) : World :=
  mkWorld (mkPage (stores (page w)) (proxy (page w))
             (intentionsDbAddress (page w)) v (localStorage (page w))
             (ipc (page w)))
          (main w).
Definition set_localStorage (v : gmap string Storage.Item) (w : World) : World :=
  mkWorld (mkPage (stores (page w)) (proxy (page w))
             (intentionsDbAddress (page w)) (updateListener (page w)) v
             (ipc (page w)))
          (main w).
Definition set_ipc (f : Renderer.Registry -> Renderer.Registry) (w : World)
    : World :=
  mkWorld (mkPage (stores (page w)) (proxy (page w))
             (intentionsDbAddress (page w)) (updateListener (page w))
             (localStorage (page w)) (f (ipc (page w))))
          (main w).
Definition set_main (v : State) (w : World) : World := mkWorld (page w) v.

(** A function of identity.js run on the page's local storage. *)
Definition with_storage {A} (m : Io (gmap string Storage.Item) Identity.Effect A)
    : Io World Effect A :=
  fun w => match m (localStorage (page w)) with
           | (r, store, t) => (r, set_localStorage store w, map InIdentity t)
           end.

(** [ipcRenderer.invoke] of a channel that has a handler: the handler
    runs in the main process.  The ['p2p:*'] handlers are registered when
    the main module is loaded, before any window exists. *)
Definition invoke {A} (m : Io State MainProcess.Effect A) : Io World Effect A :=
  fun w => match m (main w) with
           | (r, st, t) => (r, set_main st w, map InMain t)
           end.

Definition invoke_bridge (r : Request) : Io World Effect Response :=
  invoke (MainProcess.in_bridge (handle r)).

(** The fields of a response object read by the page. *)
Definition succeeded (r : Response) : bool :=
  match r with Failure _ => false | _ => true end.
Definition response_error (r : Response) : option string :=
  match r with Failure error => Some error | _ => None end.
Definition response_address (r : Response) : option string :=
  match r with
  | Opened address _ _ | Info address _ _ => Some address
  | _ => None
  end.
Definition response_documents (r : Response) : option (list Doc) :=
  match r with Documents documents => Some documents | _ => None end.

(** The callback of step 6 as a listener: with no address to compare
    with, no message matches. *)
Definition update_listener (ref : nat) (address : option string)
    : Renderer.Listener :=
  match address with
  | Some a => Renderer.subscriber ref a
  | None => Renderer.mkListener ref
              (fun _ => [Renderer.Logged "Database update received:"])
  end.

(** [${x}] for an optional string. *)
Definition text_of (x : option string) : string :=
  match x with Some s => s | None => "undefined" end.

Definition throw_error {A} (msg : string) : Io World Effect A :=
  lift (Throw (Identity.plain_error msg)).

(** What the collaborators answer during one [initializeApp].  The
    ['orbitdb:*'] handlers are registered by the main process one second
    after it is ready, and only when the main window exists; until then
    Electron rejects an invoke of these channels with the error that
    [app_handlers] carries. *)
Record AppEnv := mkAppEnv {
  app_isElectron : bool;              (* window.electronP2P exists *)
  app_setup : Identity.SetupEnv;
  app_init : P2PMain.InitEnv;
  app_bind : P2PMain.BindEnv;
  app_handlers : Outcome unit;        (* 'orbitdb:*' handlers registered? *)
  app_open : Outcome Database;
  app_listener : nat;                 (* the identity of the new listener *)
  app_query : QueryEnv;               (* the initial load *)
  app_mockPeerId : string             (* `mock-peer-${Date.now()}` *)
}.

(** [databases.intentions.all()] of the IPC proxy: the address is read
    from [intentionsDbAddress] at the time of the call; with [null] the
    bridge finds no database. *)
Definition proxy_all (env : QueryEnv) : Io World Effect (list Doc) :=
  let! w := get in
  let! result :=
    match intentionsDbAddress (page w) with
    | Some address => invoke_bridge (Query address None env)
    | None => ret (Failure "Database not found: null")
    end in
  if negb (succeeded result) then throw_error (default "" (response_error result))
  else ret (default [] (response_documents result)).

Definition initializeApp (env : AppEnv) : Io World Effect unit :=
  try_catch
    (modify (set_stores (set_p2pStatus "connecting")) >>
     let mode := if app_isElectron env then "Electron IPC" else "Mock" in
     emit (ConsoleLog ("Initializing SyncEngine V2 (" +:+ mode +:+ " Mode)...")) >>
     let! credential := with_storage (Storage.getWebAuthnCredential "current-user") in
     let! identity :=
       match credential with
       | None =>
           emit (ConsoleLog "First-time setup - creating device identity...") >>
           let! setup := with_storage
                           (Storage.setupDevice "SyncEngine User" (app_setup env)) in
           ret setup.2
       | Some credential =>
           emit (ConsoleLog "Existing identity found") >>
           with_storage (Storage.stateless (Identity.createOrbitDBIdentity credential))
       end in
     modify (set_stores (set_userIdentity (Some identity))) >>
     if app_isElectron env then
       emit (ConsoleLog "Initializing P2P network in main process...") >>
       let! p2pResult := invoke (MainProcess.ipc_initialize (app_init env)) in
       if negb (P2PMain.success p2pResult) then
         throw_error ("P2P initialization failed: " +:+ text_of (P2PMain.error p2pResult))
       else
         emit (ConsoleLog "P2P initialized:") >>
         emit (ConsoleLog "Listening on:") >>
         modify (set_stores (set_peerId (P2PMain.peerId p2pResult))) >>
         modify (set_stores (set_p2pStatus "connected")) >>
         emit (ConsoleLog "Creating OrbitDB with identity...") >>
         let! orbitdbResult :=
           invoke (MainProcess.ipc_createOrbitDB
                     (Identity.serializeIdentity identity) (app_bind env)) in
         if negb (P2PMain.bind_success orbitdbResult) then
           throw_error ("OrbitDB creation failed: " +:+
                        text_of (P2PMain.bind_error orbitdbResult))
         else
           emit (ConsoleLog "OrbitDB created") >>
           emit (ConsoleLog "Opening intentions database...") >>
           let! dbResult :=
             lift (app_handlers env) >>
             invoke_bridge (Open "intentions"
                              (mkOptions (Some "documents") (Some true))
                              (app_open env)) in
           if negb (succeeded dbResult) then
             throw_error ("Database open failed: " +:+
                          text_of (response_error dbResult))
           else
             let address := response_address dbResult in
             modify (set_intentionsDbAddress address) >>
             emit (ConsoleLog "Intentions database opened:") >>
             modify (set_proxy (Some (ElectronProxy address))) >>
             let listener := update_listener (app_listener env) address in
             modify (set_ipc (Renderer.onUpdate listener)) >>
             modify (set_updateListener (Some listener)) >>
             let! allIntentions := proxy_all (app_query env) in
             modify (set_stores (set_intentions allIntentions)) >>
             modify (set_stores (set_orbitdbReady true)) >>
             emit (ConsoleLog "App initialized successfully (Electron Mode)") >>
             emit (ConsoleLog "P2P network active, native LevelDB storage")
     else
       emit (ConsoleLog "Running in browser - using mock mode") >>
       emit (ConsoleLog "For full P2P, run: npm run electron:start") >>
       modify (set_stores (set_peerId (Some (app_mockPeerId env)))) >>
       modify (set_stores (set_p2pStatus "connected")) >>
       modify (set_proxy (Some (MockProxy []))) >>
       modify (set_stores (set_intentions [])) >>
       modify (set_stores (set_orbitdbReady true)) >>
       emit (ConsoleLog "App initialized successfully (Mock Mode)"))
    (fun error =>
       emit (ConsoleError "App initialization failed:" error) >>
       modify (set_stores (set_p2pStatus "disconnected")) >>
       modify (set_stores (set_orbitdbReady false)) >>
       lift (Throw error)).

(** [shutdownApp] *)
Definition shutdownApp (isElectron : bool) (env_close : Outcome unit)
    : Io World Effect unit :=
  if isElectron then
    let! w := get in
    match updateListener (page w) with
    | Some listener =>
        modify (set_ipc (Renderer.removeUpdateListener listener)) >>
        modify (set_updateListener None)
    | None => ret tt
    end >>
    let! w := get in
    match intentionsDbAddress (page w) with
    | Some address =>
        if bool_decide (address = "") then ret tt
        else
          invoke_bridge (Close address env_close) >>
          modify (set_intentionsDbAddress None)
    | None => ret tt
    end >>
    emit (ConsoleLog "App shutdown complete")
  else ret tt.

(** A freshly loaded page next to a main process. *)
Definition fresh_page : Page := mkPage initial_stores None None None ∅ [].

End AppInit.

(* ====================================================================== *)
(** * Further concrete runs                                                *)
(* ====================================================================== *)

Module Scenarios.
Import P2PMain.

(** The engine's identity store is missing on first run. *)
Definition bind_first_run : BindEnv :=
  mkBindEnv Fixtures.userData (Throw Fixtures.level_not_found).




(** A first launch under Electron in which every collaborator succeeds. *)
Definition first_launch : AppInit.AppEnv :=
  AppInit.mkAppEnv true Fixtures.setup_monday Fixtures.first_start
    (mkBindEnv Fixtures.userData (Ok 20)) (Ok tt) (Ok Fixtures.intentions_db) 8
    Fixtures.no_answers "mock-peer-1700000000000".

(** A freshly loaded page next to a main process that has just started. *)
Definition before_launch : AppInit.World :=
  AppInit.mkWorld AppInit.fresh_page (IpcBridge.mkState initial ∅ []).

End Scenarios.

(* ====================================================================== *)
(** * Outcomes of a run                                                    *)
(* ====================================================================== *)

Module Outcomes.

(** [ends m s P Q]: run from [s], [m] either returns a value and a state
    that satisfy [P], or throws an error in a state that satisfy [Q]. *)
Definition ends {S E A} (m : Io S E A) (s : S)
    (P : A -> S -> Prop) (Q : JsError -> S -> Prop) : Prop :=
  match m s with
  | (Ok a, s', _) => P a s'
  | (Throw e, s', _) => Q e s'
  end.

End Outcomes.

(* ====================================================================== *)
(** * Proof support                                                        *)
(* ====================================================================== *)

(** Linear arithmetic with division and remainder by constants. *)
Ltac dlia := zify; Z.to_euclidean_division_equations; lia.


(* ====================================================================== *)
(** * Running a computation symbolically                                   *)
(* ====================================================================== *)

(** Unfolds the combinators of [Io] so that a run reduces as far as the
    answers of the environment are known. *)
Ltac run :=
  unfold response, response_value, final, effects, bind, try_catch, call,
    emit, modify, lift, ret, get; simpl.

(* ====================================================================== *)
(** * Properties of the supervisor                                         *)
(* ====================================================================== *)

Module P2PMainFacts.
Import P2PMain.

(** A value that passes the first-run test has properties, so the test
    itself does not throw. *)
Lemma first_run_test (e : JsError) :
  is_level_not_found e = true ->
  property_of e "code" (is_level_not_found e) = Ok true.
Proof. destruct e; simpl; [intros ->; reflexivity | discriminate]. Qed.

(** Whatever the state, a successful [createLibp2p] is stored: the
    function has no guard on an existing node. *)
Lemma initializeP2P_stores_new_node (env : InitEnv) (s : State) (n : Libp2p) :
  env_createLibp2p env = Ok n ->
  libp2p (final (initializeP2P env s)) = Some n /\
  In CreateLibp2p (effects (initializeP2P env s)).
Proof.
  intros Hn. unfold initializeP2P. run. rewrite Hn. simpl.
  destruct (env_newBlockstore env) as [[]|e1]; simpl.
  - destruct (env_newDatastore env) as [[]|e2]; simpl.
    + destruct (env_createHelia env) as [h|e3]; simpl.
      * split; [reflexivity | auto].
      * destruct (property_of e3 "code" (is_level_not_found e3)) as [[|]|?]; simpl; split; auto.
    + destruct (property_of e2 "code" (is_level_not_found e2)) as [[|]|?]; simpl; split; auto.
  - destruct (property_of e1 "code" (is_level_not_found e1)) as [[|]|?]; simpl; split; auto.
Qed.

(** C1 (defect in the code).  [initializeP2P] is not idempotent.  After a
    successful first start with node A, a second call in which the
    collaborators succeed again creates a second network node, block
    store and Helia, replaces the stored ones and answers with the
    identifier and addresses of node B; a second call in which the
    stores are locked by the first Helia still replaces the network node
    and answers with a failure. *)
Theorem initializeP2P_twice_creates_second_node :
  let again := initializeP2P Fixtures.second_start Fixtures.ready in
  let locked := initializeP2P Fixtures.second_start_locked Fixtures.ready in
  getPeerId Fixtures.ready = Some "12D3KooWA" /\
  libp2p Fixtures.ready = Some Fixtures.node_A /\
  response again =
    Ok (mkInitResult true (Some "12D3KooWB") (Some ["/ip4/127.0.0.1/tcp/50002"])
          (Some "/home/user/.config/SyncEngine/orbitdb") None) /\
  libp2p (final again) = Some Fixtures.node_B /\
  helia_ref <$> helia (final again) = Some 11 /\
  List.filter (fun e => match e with
                   | CreateLibp2p | NewLevelBlockstore _ | CreateHelia _ _ _ => true
                   | _ => false end) (effects again) =
    [CreateLibp2p;
     NewLevelBlockstore "/home/user/.config/SyncEngine/orbitdb/blocks";
     CreateHelia 2 "/home/user/.config/SyncEngine/orbitdb/blocks"
                   "/home/user/.config/SyncEngine/orbitdb/data"] /\
  response locked =
    Ok (mkInitResult false None None None (Some "Database is not open")) /\
  libp2p (final locked) = Some Fixtures.node_B.
Proof. vm_compute. repeat split. Qed.

(** C4.  When the network node is created and the block or record store
    then reports a not-found condition (error code LEVEL_NOT_FOUND or a
    truthy [notFound]), whether from a store constructor or from opening
    the stores in [createHelia], [initializeP2P] answers with success
    and carries the node's identifier, its addresses and the storage
    root. *)
Theorem initializeP2P_first_run_is_success
    (env : InitEnv) (s : State) (node : Libp2p) (e : JsError) :
  env_createLibp2p env = Ok node ->
  is_level_not_found e = true ->
  env_newBlockstore env = Throw e \/
  (env_newBlockstore env = Ok tt /\ env_newDatastore env = Throw e) \/
  (env_newBlockstore env = Ok tt /\ env_newDatastore env = Ok tt /\
   env_createHelia env = Throw e) ->
  response (initializeP2P env s) =
    Ok (mkInitResult true (Some (node_peerId node))
          (Some (node_multiaddrs node))
          (Some (path_join (env_userData env) "orbitdb")) None).
Proof.
  intros Hn He Hstore. unfold initializeP2P. run. rewrite Hn. simpl.
  destruct Hstore as [Hb | [[Hb Hd] | (Hb & Hd & Hh)]].
  - rewrite Hb. simpl. rewrite (first_run_test e He). reflexivity.
  - rewrite Hb. simpl. rewrite Hd. simpl. rewrite (first_run_test e He).
    reflexivity.
  - rewrite Hb. simpl. rewrite Hd. simpl. rewrite Hh. simpl.
    rewrite (first_run_test e He). reflexivity.
Qed.

Lemma initializeP2P_first_run_is_success_witness :
  response (initializeP2P Fixtures.first_run_empty_disk initial) =
    Ok (mkInitResult true (Some "12D3KooWA")
          (Some ["/ip4/127.0.0.1/tcp/4003"; "/ip4/127.0.0.1/tcp/50001"])
          (Some "/home/user/.config/SyncEngine/orbitdb") None).
Proof.
  apply (initializeP2P_first_run_is_success Fixtures.first_run_empty_disk
           initial Fixtures.node_A Fixtures.level_not_found).
  - reflexivity.
  - reflexivity.
  - right. right. repeat split.
Defined.

(** A first-run success leaves [helia] null. *)
Lemma first_run_leaves_helia_null :
  helia (final (initializeP2P Fixtures.first_run_empty_disk initial)) = None.
Proof. reflexivity. Qed.

(** An [initializeP2P] that reports a failure from a fresh process has
    not set [helia]. *)
Lemma failed_initialize_leaves_helia_null (env : InitEnv) :
  (success <$> response_value (initializeP2P env initial)) = Some false ->
  helia (final (initializeP2P env initial)) = None.
Proof.
  unfold initializeP2P, response_value. run.
  destruct (env_createLibp2p env) as [n|e0]; simpl.
  - destruct (env_newBlockstore env) as [[]|e1]; simpl.
    + destruct (env_newDatastore env) as [[]|e2]; simpl.
      * destruct (env_createHelia env) as [h|e3]; simpl.
        -- discriminate.
        -- destruct (property_of e3 "code" (is_level_not_found e3)) as [[|]|?]; simpl; auto.
      * destruct (property_of e2 "code" (is_level_not_found e2)) as [[|]|?]; simpl; auto.
    + destruct (property_of e1 "code" (is_level_not_found e1)) as [[|]|?]; simpl; auto.
  - destruct (property_of e0 "code" (is_level_not_found e0)) as [[|]|?]; simpl; auto.
Qed.

(** In every reachable state a database engine instance comes with the
    Helia it was created on. *)
Lemma engine_has_storage (s : State) :
  reachable s -> orbitdb s <> None -> helia s <> None.
Proof.
  induction 1 as [|c s Hs IH]; [intros H; exfalso; apply H; reflexivity |].
  destruct c as [env | identity env | env]; simpl.
  - unfold initializeP2P. run.
    destruct (env_createLibp2p env) as [n|e0]; simpl.
    + destruct (env_newBlockstore env) as [[]|e1]; simpl.
      * destruct (env_newDatastore env) as [[]|e2]; simpl.
        -- destruct (env_createHelia env) as [h|e3]; simpl.
           ++ discriminate.
           ++ destruct (property_of e3 "code" (is_level_not_found e3)) as [[|]|?]; simpl; exact IH.
        -- destruct (property_of e2 "code" (is_level_not_found e2)) as [[|]|?]; simpl; exact IH.
      * destruct (property_of e1 "code" (is_level_not_found e1)) as [[|]|?]; simpl; exact IH.
    + destruct (property_of e0 "code" (is_level_not_found e0)) as [[|]|?]; simpl; exact IH.
  - unfold createOrbitDBWithIdentity. run.
    destruct (helia s) as [h|] eqn:Hh; simpl; [| rewrite Hh; exact IH].
    destruct (orbitdb s) as [o|] eqn:Ho; simpl.
    + rewrite Hh, Ho. discriminate.
    + destruct (bind_createOrbitDB env) as [r|e]; simpl.
      * rewrite Hh. discriminate.
      * destruct (property_of e "code" (is_level_not_found e)) as [[|]|?]; simpl; rewrite Hh; discriminate.
  - revert IH. unfold shutdownP2P. run.
    destruct s as [[n|] [h|] [o|]];
      destruct env as [[[]|e1] [[]|e2] [[]|e3]]; simpl; intros IH H;
      try (exact (IH H)); try discriminate;
      exfalso; apply H; reflexivity.
Qed.

(** The two guards of [createOrbitDBWithIdentity].  It answers with the
    not-initialised failure, and changes nothing, whenever [helia] is
    null: in a fresh process and after an [initializeP2P] that reported
    a failure.  In every state the process can reach in which a database
    engine instance exists, binding again answers with success, creates
    nothing and keeps the existing instance. *)
Lemma createOrbitDBWithIdentity_guards
    (identity : IdentityDescriptor) (env : BindEnv) :
  (forall s, helia s = None ->
     createOrbitDBWithIdentity identity env s =
       (Ok (mkBindResult false
              (Some "Helia not initialized. Call initializeP2P first.")),
        s, [])) /\
  (forall ienv,
     (success <$> response_value (initializeP2P ienv initial)) = Some false ->
     response (createOrbitDBWithIdentity identity env
                 (final (initializeP2P ienv initial))) =
       Ok (mkBindResult false
             (Some "Helia not initialized. Call initializeP2P first."))) /\
  (forall s o, reachable s -> orbitdb s = Some o ->
     createOrbitDBWithIdentity identity env s =
       (Ok (mkBindResult true None), s,
        [ConsoleLog "OrbitDB already initialized"])).
Proof.
  assert (Hnull : forall s, helia s = None ->
     createOrbitDBWithIdentity identity env s =
       (Ok (mkBindResult false
              (Some "Helia not initialized. Call initializeP2P first.")),
        s, [])).
  { intros s Hh. unfold createOrbitDBWithIdentity. run. rewrite Hh.
    reflexivity. }
  split; [exact Hnull | split].
  - intros ienv Hfail.
    rewrite Hnull; [reflexivity |].
    apply failed_initialize_leaves_helia_null, Hfail.
  - intros s o Hs Ho.
    assert (Hh : helia s <> None)
      by (apply engine_has_storage; [exact Hs | rewrite Ho; discriminate]).
    unfold createOrbitDBWithIdentity. run.
    destruct (helia s) as [h|]; [| contradiction].
    rewrite Ho. reflexivity.
Qed.

(** C6 (defect in the code).  A bind that answered with success need
    not have bound an engine, so a second bind is not always a no-op.
    With Helia running and an identity store that is still missing
    ([createOrbitDB] rejects with LEVEL_NOT_FOUND), the first bind logs
    "OrbitDB initialized" and answers with success, but [orbitdb] stays
    null.  A second bind then passes both guards and calls
    [createOrbitDB] again: when that call fails it answers with a
    failure, and when it resolves it installs an engine - here with the
    identity of the second caller.  The handler of electron/main.js
    throws in the same situation and so never reports a bind that did
    not happen. *)
Theorem second_bind_after_first_run_is_not_a_noop :
  let first := createOrbitDBWithIdentity Fixtures.alice
                 Fixtures.bind_empty_store Fixtures.ready in
  let again := createOrbitDBWithIdentity Fixtures.alice
                 (mkBindEnv Fixtures.userData (Throw Fixtures.level_locked))
                 (final first) in
  let late := createOrbitDBWithIdentity Fixtures.bob
                (mkBindEnv Fixtures.userData (Ok 21)) (final first) in
  helia_ref <$> helia Fixtures.ready = Some 10 /\
  response first = Ok (mkBindResult true None) /\
  orbitdb (final first) = None /\
  response again = Ok (mkBindResult false (Some "Database is not open")) /\
  effects again =
    [ConsoleLog "Creating OrbitDB with identity:";
     CreateOrbitDB 10 "did:key:zLdp"
       "/home/user/.config/SyncEngine/orbitdb/orbitdb";
     ConsoleError "OrbitDB creation failed:" Fixtures.level_locked] /\
  response late = Ok (mkBindResult true None) /\
  In (CreateOrbitDB 10 "did:key:z5Q"
        "/home/user/.config/SyncEngine/orbitdb/orbitdb") (effects late) /\
  (orbitdb_identity <$> orbitdb (final late)) = Some Fixtures.bob.
Proof. vm_compute. repeat split; auto. Qed.

(** C2, as stated, fails.  With all three members live and a database
    engine whose [stop()] throws, the only teardown call is the engine's:
    storage and network node are never stopped, and no member is
    cleared. *)
Lemma shutdownP2P_failed_step_aborts_sequence :
  let r := shutdownP2P
             (mkShutdownEnv (Throw Fixtures.stop_failed) (Ok tt) (Ok tt))
             Fixtures.bound in
  teardown_plan Fixtures.bound = [StopOrbitDB 20; StopHelia 10; StopLibp2p 1] /\
  effects r =
    [ConsoleLog "Shutting down P2P network..."; StopOrbitDB 20;
     ConsoleError "Shutdown error:" Fixtures.stop_failed] /\
  ~ In (StopHelia 10) (effects r) /\
  ~ In (StopLibp2p 1) (effects r) /\
  final r = Fixtures.bound.
Proof.
  vm_compute. repeat split; intros H;
    repeat (destruct H as [H | H]; [discriminate H |]); exact H.
Qed.

(** C2, amended.  [shutdownP2P] never throws.  It stops the database
    engine first, then the storage layer, then the network node,
    skipping null members: the teardown calls made are always an initial
    part of that plan.  When every [stop()] succeeds the whole plan runs
    and all three members end up null.  When a [stop()] throws, the
    error is logged as the last effect and the sequence ends there: the
    failing member and the members after it are neither stopped nor
    cleared. *)
Theorem shutdownP2P_ordered_until_first_failure
    (env : ShutdownEnv) (s : State) :
  let r := shutdownP2P env s in
  response r = Ok tt /\
  (exists rest, teardown_plan s = (stops (effects r) ++ rest)%list) /\
  (env_stopOrbitDB env = Ok tt -> env_stopHelia env = Ok tt ->
   env_stopLibp2p env = Ok tt ->
   stops (effects r) = teardown_plan s /\ final r = stopped) /\
  (forall o e, orbitdb s = Some o -> env_stopOrbitDB env = Throw e ->
     r = (Ok tt, s,
          [ConsoleLog "Shutting down P2P network...";
           StopOrbitDB (orbitdb_ref o);
           ConsoleError "Shutdown error:" e])) /\
  (forall h e, helia s = Some h ->
     orbitdb s = None \/ env_stopOrbitDB env = Ok tt ->
     env_stopHelia env = Throw e ->
     final r = set_orbitdb None s /\
     last (stops (effects r)) = Some (StopHelia (helia_ref h)) /\
     last (effects r) = Some (ConsoleError "Shutdown error:" e)) /\
  (forall n e, libp2p s = Some n ->
     orbitdb s = None \/ env_stopOrbitDB env = Ok tt ->
     helia s = None \/ env_stopHelia env = Ok tt ->
     env_stopLibp2p env = Throw e ->
     final r = set_helia None (set_orbitdb None s) /\
     stops (effects r) = teardown_plan s /\
     last (effects r) = Some (ConsoleError "Shutdown error:" e)).
Proof.
  destruct s as [[n|] [h|] [o|]];
    destruct env as [[[]|e1] [[]|e2] [[]|e3]];
    unfold shutdownP2P, teardown_plan, stops, stopped; run;
    (split; [reflexivity |]);
    (split; [eexists; reflexivity |]);
    (split; [intros; try discriminate; split; reflexivity |]);
    (split; [intros ? ? Ho He; try discriminate;
             injection Ho as <-; injection He as <-; reflexivity |]);
    (split; [intros ? ? Hh [Ho | Ho] He; try discriminate;
             injection Hh as <-; injection He as <-; repeat split |]);
    intros ? ? Hn [Ho | Ho] [Hh | Hh] He; try discriminate;
    injection Hn as <-; injection He as <-; repeat split.
Qed.

Lemma shutdownP2P_ordered_until_first_failure_witness :
  (* every stop succeeds *)
  (stops (effects (shutdownP2P (mkShutdownEnv (Ok tt) (Ok tt) (Ok tt))
                     Fixtures.bound)) =
     [StopOrbitDB 20; StopHelia 10; StopLibp2p 1] /\
   final (shutdownP2P (mkShutdownEnv (Ok tt) (Ok tt) (Ok tt))
            Fixtures.bound) = stopped) /\
  (* the storage layer fails to stop *)
  (final (shutdownP2P
            (mkShutdownEnv (Ok tt) (Throw Fixtures.stop_failed) (Ok tt))
            Fixtures.bound) = set_orbitdb None Fixtures.bound /\
   last (stops (effects (shutdownP2P
            (mkShutdownEnv (Ok tt) (Throw Fixtures.stop_failed) (Ok tt))
            Fixtures.bound))) = Some (StopHelia 10) /\
   last (effects (shutdownP2P
            (mkShutdownEnv (Ok tt) (Throw Fixtures.stop_failed) (Ok tt))
            Fixtures.bound)) =
     Some (ConsoleError "Shutdown error:" Fixtures.stop_failed)).
Proof.
  split.
  - apply (shutdownP2P_ordered_until_first_failure
             (mkShutdownEnv (Ok tt) (Ok tt) (Ok tt)) Fixtures.bound);
      reflexivity.
  - pose proof (shutdownP2P_ordered_until_first_failure
             (mkShutdownEnv (Ok tt) (Throw Fixtures.stop_failed) (Ok tt))
             Fixtures.bound) as (_ & _ & _ & _ & H & _).
    apply (H (mkHelia 10 Fixtures.node_A
                "/home/user/.config/SyncEngine/orbitdb/blocks"
                "/home/user/.config/SyncEngine/orbitdb/data")
             Fixtures.stop_failed).
    + reflexivity.
    + right. reflexivity.
    + reflexivity.
Defined.

End P2PMainFacts.

(* ====================================================================== *)
(** * Properties of the database bridge                                    *)
(* ====================================================================== *)

Module IpcBridgeFacts.
Import IpcBridge.

Ltac unfold_handlers :=
  unfold handle, handle_open, handle_close, handle_getDatabases,
    handle_query, handle_add, handle_put, handle_del, handle_get,
    handle_info.

Lemma is_documents_false (db : Database) :
  db_type db <> "documents" -> is_documents db = false.
Proof. intros H. unfold is_documents. by apply bool_decide_eq_false. Qed.

(** The handlers on a few concrete requests. *)
Example open_registers_database :
  handle_open "intentions" Fixtures.documents_options
    (Ok Fixtures.intentions_db) Fixtures.bridge_ready =
  (Ok (Opened "/orbitdb/zdpuA" "intentions" "documents"),
   mkState Fixtures.bound {["/orbitdb/zdpuA" := Fixtures.intentions_db]}
     [(1, "/orbitdb/zdpuA")],
   [ConsoleLog "Opening database: intentions";
    OrbitOpen 20 "intentions" "documents" true;
    ConsoleLog "Database opened: /orbitdb/zdpuA"]).
Proof. reflexivity. Qed.

Example open_before_bind_fails :
  response (handle_open "intentions" Fixtures.documents_options
              (Ok Fixtures.intentions_db)
              (mkState Fixtures.ready ∅ [])) =
  Ok (Failure "OrbitDB not initialized. Call createOrbitDB with identity first.").
Proof. reflexivity. Qed.

Example query_without_filter :
  handle_query "/orbitdb/zdpuA" None Fixtures.no_answers Fixtures.two_open =
  (Ok (Documents [Fixtures.some_doc]), Fixtures.two_open, [DbAll 1]).
Proof. vm_compute. reflexivity. Qed.

Example query_with_bad_filter :
  response (handle_query "/orbitdb/zdpuA" (Some "42") Fixtures.no_answers
              Fixtures.two_open) =
  Ok (Failure "Invalid filter function").
Proof. vm_compute. reflexivity. Qed.

Example put_without_id :
  handle_put "/orbitdb/zdpuA" (mkDoc None "{}") (Ok "zdpuHash") Fixtures.two_open =
  (Ok (Failure "Document must have _id field for update"), Fixtures.two_open, []).
Proof. vm_compute. reflexivity. Qed.









(** C10.  A query, get, add, put or delete on an open database whose
    type is not [documents] is answered with the failure "<Operation>
    only works with documents type databases"; the handler does not
    throw, leaves the bridge state (and so the set of open handles)
    unchanged, and performs no effect: the database object is never
    called, so its contents are untouched. *)
Theorem document_operation_on_other_kind_is_rejected
    (st : State) (r : Request) (address : string) (db : Database) :
  is_document_operation r = true ->
  target r = Some address ->
  databases st !! address = Some db ->
  db_type db <> "documents" ->
  handle r st =
    (Ok (Failure (operation_name r +:+
                  " only works with documents type databases")),
     st, []).
Proof.
  intros Hop Htarget Hdb Htype.
  apply is_documents_false in Htype.
  destruct r; simpl in Hop, Htarget; try discriminate;
    injection Htarget as ->; unfold_handlers; run;
    rewrite Hdb, Htype; reflexivity.
Qed.

Lemma document_operation_on_other_kind_is_rejected_witness :
  handle (Put "/orbitdb/zdpuB" Fixtures.some_doc (Ok "zdpuHash"))
         Fixtures.two_open =
    (Ok (Failure "Put only works with documents type databases"),
     Fixtures.two_open, []).
Proof.
  apply (document_operation_on_other_kind_is_rejected Fixtures.two_open
           (Put "/orbitdb/zdpuB" Fixtures.some_doc (Ok "zdpuHash"))
           "/orbitdb/zdpuB" Fixtures.attention_log).
  - reflexivity.
  - reflexivity.
  - vm_compute. reflexivity.
  - discriminate.
Defined.

End IpcBridgeFacts.

(* ====================================================================== *)
(** * Properties of update delivery                                        *)
(* ====================================================================== *)

Module RendererFacts.
Import IpcBridge Renderer.

(** Every message sent by an ['update'] handler goes to the one update
    channel and carries the address captured when the database was
    opened. *)
Lemma on_update_sends (st : State) (db : nat) (entry : Entry)
    (channel : string) (msg : UpdateMessage) :
  In (WebContentsSend channel msg) (on_update st db entry) ->
  channel = "orbitdb:update" /\
  In (db, upd_address msg) (update_handlers st) /\
  upd_entry msg = entry /\
  upd_operation msg = operation_of entry.
Proof.
  unfold on_update. rewrite in_flat_map. intros [[d a] [Hin Hsend]].
  simpl in Hsend. case_bool_decide as Hd; simpl in Hsend.
  - destruct Hsend as [Hlog | [Hsend | []]]; [discriminate |].
    injection Hsend as <- <-. subst d. simpl. auto.
  - destruct Hsend.
Qed.

(** A successful open attaches an ['update'] handler to the database
    object for the address under which it is registered. *)
Lemma open_attaches_handler (st : State) (name : string)
    (options : OpenOptions) (db : Database) (address nm ty : string) :
  response (handle_open name options (Ok db) st) = Ok (Opened address nm ty) ->
  In (db_ref db, address)
     (update_handlers (final (handle_open name options (Ok db) st))).
Proof.
  unfold handle_open, response, final, Js.bind, try_catch, call, emit,
    modify, ret, get. simpl.
  destruct (P2PMain.getOrbitDB (supervisor st)); simpl; [| discriminate].
  intros [= <- _ _]. apply in_or_app. right. left. reflexivity.
Qed.

(** C3, as stated, fails.  With the intentions database and the
    attention log open and one application listener that watches only
    the attention log, an update of the intentions database is delivered
    to that listener. *)
Lemma update_reaches_subscriber_of_other_address :
  deliveries Fixtures.two_open Fixtures.attention_watcher 1 Fixtures.put_entry =
    [(7, mkUpdate "/orbitdb/zdpuA" Fixtures.put_entry "PUT",
      [Logged "Database update received:"])] /\
  ~ updates_reach_only_their_subscribers.
Proof.
  split; [reflexivity |].
  intros H.
  specialize (H Fixtures.two_open Fixtures.attention_watcher 1
                Fixtures.put_entry 7 "/orbitdb/zdpuB"
                (mkUpdate "/orbitdb/zdpuA" Fixtures.put_entry "PUT")
                [Logged "Database update received:"]).
  discriminate H; left; reflexivity.
Qed.

(** C3, amended.  An update of a database is sent once per handler
    attached to it, on the single update channel, carrying the address
    of that database; every message sent is delivered to every listener
    registered for that channel, whatever address the listener is
    interested in, and to no one else.  The application's callback reacts
    by reloading exactly when the address of the message is the one it
    watches. *)
Theorem update_is_broadcast_and_filtered_by_the_callback
    (st : State) (reg : Registry) (db : nat) (entry : Entry) :
  (forall channel msg,
     In (WebContentsSend channel msg) (on_update st db entry) ->
     channel = "orbitdb:update" /\
     In (db, upd_address msg) (update_handlers st) /\
     upd_entry msg = entry) /\
  (forall l msg,
     In ("orbitdb:update", l) reg ->
     In (WebContentsSend "orbitdb:update" msg) (on_update st db entry) ->
     In (listener_ref l, msg, callback l msg) (deliveries st reg db entry)) /\
  (forall ref msg reaction,
     In (ref, msg, reaction) (deliveries st reg db entry) ->
     exists l, In ("orbitdb:update", l) reg /\ listener_ref l = ref /\
               reaction = callback l msg /\
               In (WebContentsSend "orbitdb:update" msg) (on_update st db entry)) /\
  (forall watched msg,
     In (ReloadIntentions watched) (intentions_callback watched msg) <->
     upd_address msg = watched).
Proof.
  split; [| split; [| split]].
  - intros channel msg Hsend.
    destruct (on_update_sends _ _ _ _ _ Hsend) as (H1 & H2 & H3 & _). auto.
  - intros l msg Hl Hsend. unfold deliveries, deliver.
    apply in_flat_map. exists (WebContentsSend "orbitdb:update" msg).
    split; [exact Hsend |]. unfold receive. apply in_flat_map.
    exists ("orbitdb:update", l). split; [exact Hl |]. simpl. left.
    reflexivity.
  - intros ref msg reaction. unfold deliveries, deliver.
    rewrite in_flat_map. intros [e [He Hrecv]].
    destruct e; try (destruct Hrecv; fail).
    destruct (on_update_sends _ _ _ _ _ He) as (-> & _).
    unfold receive in Hrecv. apply in_flat_map in Hrecv as [[c l] [Hl Hx]].
    simpl in Hx. case_bool_decide as Hc; simpl in Hx; [| destruct Hx].
    destruct Hx as [Hx | []]. injection Hx as <- <- <-. simpl in Hc. subst c.
    exists l. auto.
  - intros watched msg. unfold intentions_callback. simpl.
    case_bool_decide as Ha; simpl; split.
    + intros _. exact Ha.
    + intros _. right. left. reflexivity.
    + intros [H | []]. discriminate H.
    + intros H. contradiction.
Qed.

Lemma update_is_broadcast_and_filtered_by_the_callback_witness :
  In (7, mkUpdate "/orbitdb/zdpuA" Fixtures.put_entry "PUT",
      intentions_callback "/orbitdb/zdpuB"
        (mkUpdate "/orbitdb/zdpuA" Fixtures.put_entry "PUT"))
     (deliveries Fixtures.two_open Fixtures.attention_watcher 1
        Fixtures.put_entry) /\
  In (ReloadIntentions "/orbitdb/zdpuB")
     (intentions_callback "/orbitdb/zdpuB"
        (mkUpdate "/orbitdb/zdpuB" Fixtures.put_entry "PUT")).
Proof.
  destruct (update_is_broadcast_and_filtered_by_the_callback
              Fixtures.two_open Fixtures.attention_watcher 1
              Fixtures.put_entry) as (_ & Hall & _ & Hcb).
  split.
  - apply (Hall (subscriber 7 "/orbitdb/zdpuB")).
    + left. reflexivity.
    + right. left. reflexivity.
  - apply Hcb. reflexivity.
Defined.

End RendererFacts.

(* ====================================================================== *)
(** * Properties of the identity provider                                  *)
(* ====================================================================== *)

Module IdentityFacts.
Import Identity.

(** The encoders behave as the published test vectors say. *)
Example base58_hello_world :
  base58_encode [x48; x65; x6c; x6c; x6f; x20; x57; x6f; x72; x6c; x64; x21]
  = "2NEpo7TZRRrLZSi2U".
Proof. reflexivity. Qed.

Example base58_leading_zeros :
  base58_encode [x00; x00; x28; x7f; xb4; xcd] = "11233QC4".
Proof. reflexivity. Qed.

Example base64_padding :
  arrayBufferToBase64 [x4d; x61] = "TWE=" /\ arrayBufferToBase64 [x4d] = "TQ==".
Proof. split; reflexivity. Qed.

(** C7.  [verifyWithWebCrypto] never throws: whatever Web Crypto
    answers, it returns a boolean, and it returns [false] as soon as the
    key import, the digest or the verification throws.  The [verify]
    closure of the identity object, which converts its arguments first,
    returns a boolean as well. *)
Theorem verifyWithWebCrypto_never_throws
    (signature data publicKeyBytes : bytes) (env : VerifyEnv) :
  (exists b : bool,
     response (verifyWithWebCrypto signature data publicKeyBytes env tt) = Ok b) /\
  (forall e,
     env_importKey env = Throw e \/ env_digest env = Throw e \/
     env_verify env = Throw e ->
     response (verifyWithWebCrypto signature data publicKeyBytes env tt)
     = Ok false) /\
  (forall sig' data' key' : BytesLike,
     exists b : bool, response (identity_verify sig' data' key' env tt) = Ok b).
Proof.
  assert (Htotal : forall s d k, exists b : bool,
            response (verifyWithWebCrypto s d k env tt) = Ok b).
  { intros s d k. unfold verifyWithWebCrypto, hashData. run.
    destruct (env_importKey env); simpl; [| eauto].
    destruct (env_digest env); simpl; [| eauto].
    destruct (env_verify env); simpl; eauto. }
  split; [apply Htotal | split].
  - intros e H. unfold verifyWithWebCrypto, hashData. run.
    destruct (env_importKey env) as [k|e1]; simpl; [| reflexivity].
    destruct (env_digest env) as [h|e2]; simpl; [| reflexivity].
    destruct (env_verify env) as [b|e3]; simpl; [| reflexivity].
    destruct H as [H | [H | H]]; discriminate H.
  - intros sig' data' key'. unfold identity_verify. apply Htotal.
Qed.

Lemma verifyWithWebCrypto_never_throws_witness :
  response (verifyWithWebCrypto [x04; x05; x06] [x01; x02; x03]
              Fixtures.key_bytes Fixtures.malformed_key tt) = Ok false.
Proof.
  destruct (verifyWithWebCrypto_never_throws [x04; x05; x06] [x01; x02; x03]
              Fixtures.key_bytes Fixtures.malformed_key) as (_ & Hfalse & _).
  apply (Hfalse Fixtures.crypto_error). left. reflexivity.
Defined.

(** When nothing throws, the answer is the verdict of Web Crypto. *)
Lemma verifyWithWebCrypto_returns_verdict
    (signature data publicKeyBytes : bytes) (env : VerifyEnv)
    (key : nat) (hash : bytes) (verdict : bool) :
  env_importKey env = Ok key ->
  env_digest env = Ok hash ->
  env_verify env = Ok verdict ->
  verifyWithWebCrypto signature data publicKeyBytes env tt =
    (Ok verdict, tt,
     [ImportKey "raw" publicKeyBytes "ECDSA" "P-256";
      Digest "SHA-256" data;
      SubtleVerify key signature hash]).
Proof.
  intros Hk Hh Hv. unfold verifyWithWebCrypto, hashData. run.
  rewrite Hk. simpl. rewrite Hh. simpl. rewrite Hv. reflexivity.
Qed.

(** The identity built from a credential is named after its key. *)
Lemma createOrbitDBIdentity_id (c : Credential) :
  exists i, response (createOrbitDBIdentity c tt) = Ok i /\
            publicKey i = to_Uint8Array (cred_publicKey c) /\
            id i = generateDID (publicKey i).
Proof. eexists. unfold createOrbitDBIdentity. run. repeat split. Qed.

(** So is the identity returned by a successful [setupDevice]. *)
Lemma setupDevice_id (userName : string) (env : SetupEnv)
    (c : Credential) (i : OrbitIdentity) :
  response (setupDevice userName env tt) = Ok (c, i) ->
  id i = generateDID (publicKey i) /\
  publicKey i = to_Uint8Array (cred_publicKey c).
Proof.
  unfold setupDevice, saveWebAuthnCredential, createOrbitDBIdentity. run.
  destruct (env_webauthn env); simpl; [| discriminate].
  destruct (env_create env) as [[pkc|]|e]; simpl; try discriminate.
  intros [= <- <-]. simpl. split; reflexivity.
Qed.

(** C8.  The identifier depends on the public key bytes only.  Two runs
    of [setupDevice] that succeed with the same public key bytes yield the
    same identifier, whatever the user names, hosts, challenges, dates
    and credential ids; and two credentials with the same key bytes,
    whether held as an [ArrayBuffer] or as a [Uint8Array], are given the
    same identifier by [createOrbitDBIdentity]. *)
Theorem identifier_is_determined_by_public_key :
  (forall userName1 env1 c1 i1 userName2 env2 c2 i2,
     response (setupDevice userName1 env1 tt) = Ok (c1, i1) ->
     response (setupDevice userName2 env2 tt) = Ok (c2, i2) ->
     publicKey i1 = publicKey i2 ->
     id i1 = id i2) /\
  (forall c1 c2 i1 i2,
     to_Uint8Array (cred_publicKey c1) = to_Uint8Array (cred_publicKey c2) ->
     response (createOrbitDBIdentity c1 tt) = Ok i1 ->
     response (createOrbitDBIdentity c2 tt) = Ok i2 ->
     id i1 = id i2).
Proof.
  split.
  - intros u1 env1 c1 i1 u2 env2 c2 i2 H1 H2 Hkey.
    apply setupDevice_id in H1 as [-> _].
    apply setupDevice_id in H2 as [-> _].
    by rewrite Hkey.
  - intros c1 c2 i1 i2 Hkey H1 H2.
    destruct (createOrbitDBIdentity_id c1) as (j1 & E1 & K1 & D1).
    destruct (createOrbitDBIdentity_id c2) as (j2 & E2 & K2 & D2).
    rewrite E1 in H1. rewrite E2 in H2.
    injection H1 as <-. injection H2 as <-.
    by rewrite D1, D2, K1, K2, Hkey.
Qed.

Lemma identifier_is_determined_by_public_key_witness :
  (exists c1 i1 c2 i2,
     response (setupDevice "Alice" Fixtures.setup_monday tt) = Ok (c1, i1) /\
     response (setupDevice "Alice (laptop)" Fixtures.setup_tuesday tt)
       = Ok (c2, i2) /\
     cred_createdAt c1 <> cred_createdAt c2 /\
     id i1 = id i2) /\
  (exists i1 i2,
     response (createOrbitDBIdentity Fixtures.fresh_credential tt) = Ok i1 /\
     response (createOrbitDBIdentity Fixtures.reloaded_credential tt) = Ok i2 /\
     id i1 = id i2).
Proof.
  destruct identifier_is_determined_by_public_key as [Hruns Hcreds].
  split.
  - do 4 eexists. split; [reflexivity |]. split; [reflexivity |].
    split; [discriminate |].
    eapply (Hruns "Alice" Fixtures.setup_monday _ _
              "Alice (laptop)" Fixtures.setup_tuesday); reflexivity.
  - do 2 eexists. split; [reflexivity |]. split; [reflexivity |].
    eapply (Hcreds Fixtures.fresh_credential Fixtures.reloaded_credential);
      reflexivity.
Defined.

End IdentityFacts.

(* ====================================================================== *)
(** * Further properties of the supervisor                                 *)
(* ====================================================================== *)

Module SupervisorFacts.
Import P2PMain.

(** The catch block's test on the caught value: it yields a verdict, or
    the value is [null] or [undefined] and reading [code] throws. *)
Lemma catch_test_cases (e : JsError) :
  (exists verdict, property_of e "code" (is_level_not_found e) = Ok verdict) \/
  (exists u, e = Nullish u /\
     property_of e "code" (is_level_not_found e) = Throw (type_error u "code")).
Proof. destruct e as [i m t c n|u]; simpl; eauto. Qed.

Lemma catch_test_verdict (e : JsError) (verdict : bool) :
  property_of e "code" (is_level_not_found e) = Ok verdict ->
  is_level_not_found e = verdict.
Proof. destruct e; simpl; [intros [= <-]; reflexivity | discriminate]. Qed.









(** X2.  In every state the process can reach through [initializeP2P],
    [createOrbitDBWithIdentity] and [shutdownP2P], whatever the
    collaborators answer, the members are layered: a database engine
    instance exists only while Helia exists, and Helia only while a
    network node exists. *)
Theorem members_are_layered (s : State) :
  reachable s ->
  (orbitdb s <> None -> helia s <> None) /\
  (helia s <> None -> libp2p s <> None).
Proof.
  induction 1 as [|c s Hs [IHo IHh]].
  - split; intros H; exfalso; apply H; reflexivity.
  - destruct c as [env | identity env | env]; simpl.
    + unfold initializeP2P. run.
      destruct (env_createLibp2p env) as [n|e0]; simpl.
      * destruct (env_newBlockstore env) as [[]|e1]; simpl.
        -- destruct (env_newDatastore env) as [[]|e2]; simpl.
           ++ destruct (env_createHelia env) as [h|e3]; simpl.
              ** split; discriminate.
              ** destruct (property_of e3 "code" (is_level_not_found e3)) as [[|]|?]; simpl;
                   (split; [exact IHo | discriminate]).
           ++ destruct (property_of e2 "code" (is_level_not_found e2)) as [[|]|?]; simpl;
                (split; [exact IHo | discriminate]).
        -- destruct (property_of e1 "code" (is_level_not_found e1)) as [[|]|?]; simpl;
             (split; [exact IHo | discriminate]).
      * destruct (property_of e0 "code" (is_level_not_found e0)) as [[|]|?]; simpl; split; assumption.
    + unfold createOrbitDBWithIdentity. run.
      destruct (helia s) as [h|] eqn:Hh; simpl.
      * destruct (orbitdb s) as [o|] eqn:Ho; simpl.
        -- rewrite Hh, Ho. split; assumption.
        -- destruct (bind_createOrbitDB env) as [r|e]; simpl.
           ++ rewrite Hh. split; [discriminate | exact IHh].
           ++ destruct (property_of e "code" (is_level_not_found e)) as [[|]|?]; simpl; rewrite Hh, Ho;
                (split; [intros H; exfalso; apply H; reflexivity | exact IHh]).
      * rewrite Hh. split; assumption.
    + revert IHo IHh. unfold shutdownP2P. run.
      destruct s as [[n|] [h|] [o|]];
        destruct env as [[[]|e1] [[]|e2] [[]|e3]]; simpl; intros IHo IHh;
        split; intros H; try discriminate;
        try (exfalso; apply H; reflexivity);
        try (exact (IHo H)); try (exact (IHh H)).
Qed.

Lemma members_are_layered_witness :
  (orbitdb Fixtures.bound <> None -> helia Fixtures.bound <> None) /\
  (helia Fixtures.bound <> None -> libp2p Fixtures.bound <> None).
Proof.
  apply members_are_layered.
  apply (reachable_after
           (BindEngine Fixtures.alice (mkBindEnv Fixtures.userData (Ok 20)))).
  apply (reachable_after (Initialize Fixtures.first_start)).
  apply reachable_initial.
Defined.

(** X3.  The result of [initializeP2P] describes the state it leaves.  A
    success carries the addresses that [getMultiaddrs] returns
    afterwards, the storage root under the user-data directory and no
    error.  When a node exists afterwards, the success carries its
    identifier, which is what [getPeerId] returns.  A success without a
    node is possible - when [createLibp2p] itself reported not-found in
    a process that had no node - and then the result carries the empty
    identifier although [getPeerId] returns null.  A failure carries an
    error message and nothing else. *)
Theorem initializeP2P_result_matches_getters
    (env : InitEnv) (s : State) (res : P2PInitResult) :
  response (initializeP2P env s) = Ok res ->
  let s' := final (initializeP2P env s) in
  (success res = true ->
     multiaddrs res = Some (getMultiaddrs s') /\
     storageDir res = Some (path_join (env_userData env) "orbitdb") /\
     error res = None /\
     match libp2p s' with
     | Some node =>
         peerId res = Some (node_peerId node) /\
         getPeerId s' = Some (node_peerId node)
     | None =>
         peerId res = Some "" /\ getPeerId s' = None /\ libp2p s = None /\
         exists e, env_createLibp2p env = Throw e /\ is_level_not_found e = true
     end) /\
  (success res = false ->
     peerId res = None /\ multiaddrs res = None /\ storageDir res = None /\
     exists msg, error res = Some msg).
Proof.
  unfold initializeP2P, getPeerId, getMultiaddrs. run.
  destruct (env_createLibp2p env) as [n|e0]; simpl.
  - destruct (env_newBlockstore env) as [[]|e1]; simpl.
    + destruct (env_newDatastore env) as [[]|e2]; simpl.
      * destruct (env_createHelia env) as [h|e3]; simpl.
        -- intros [= <-]. simpl. split; [auto 10 | discriminate].
        -- destruct (property_of e3 "code" (is_level_not_found e3)) as [[|]|?];
             simpl; intros [= <-]; simpl;
             split; try discriminate; eauto 10.
      * destruct (property_of e2 "code" (is_level_not_found e2)) as [[|]|?];
          simpl; intros [= <-]; simpl;
          split; try discriminate; eauto 10.
    + destruct (property_of e1 "code" (is_level_not_found e1)) as [[|]|?];
        simpl; intros [= <-]; simpl;
        split; try discriminate; eauto 10.
  - destruct (catch_test_cases e0) as [[[|] Hv] | (u & -> & Hv)]; rewrite Hv;
      simpl; intros [= <-]; simpl; split; try discriminate; eauto 10.
    intros _. apply catch_test_verdict in Hv.
    destruct (libp2p s); simpl; eauto 12.
Qed.

Lemma initializeP2P_result_matches_getters_witness :
  let env := mkInitEnv Fixtures.userData (Throw Fixtures.level_not_found)
               (Ok tt) (Ok tt) (Ok 10) in
  response (initializeP2P env initial) =
    Ok (mkInitResult true (Some "") (Some [])
          (Some "/home/user/.config/SyncEngine/orbitdb") None) /\
  getPeerId (final (initializeP2P env initial)) = None /\
  multiaddrs (mkInitResult true (Some "12D3KooWA")
                (Some ["/ip4/127.0.0.1/tcp/4003"; "/ip4/127.0.0.1/tcp/50001"])
                (Some "/home/user/.config/SyncEngine/orbitdb") None)
    = Some (getMultiaddrs (final (initializeP2P Fixtures.first_start initial))).
Proof.
  split; [reflexivity |]. split; [reflexivity |].
  apply (initializeP2P_result_matches_getters Fixtures.first_start initial);
    reflexivity.
Defined.

End SupervisorFacts.

Module SupervisorCompositionFacts.
Import P2PMain.

(** X4.  A first-run success of [initializeP2P] does not make the
    supervisor ready.  When Helia did not exist, the node is created and
    the stores report not-found, the call answers with success but leaves
    [helia] null, so a following [createOrbitDBWithIdentity] answers with
    the "Helia not initialized" failure and creates nothing. *)
Theorem first_run_initialize_then_bind_fails
    (env : InitEnv) (s : State) (node : Libp2p) (e : JsError)
    (identity : IdentityDescriptor) (benv : BindEnv) :
  helia s = None ->
  env_createLibp2p env = Ok node ->
  is_level_not_found e = true ->
  env_newBlockstore env = Throw e \/
  (env_newBlockstore env = Ok tt /\ env_newDatastore env = Throw e) \/
  (env_newBlockstore env = Ok tt /\ env_newDatastore env = Ok tt /\
   env_createHelia env = Throw e) ->
  let s' := final (initializeP2P env s) in
  (success <$> response_value (initializeP2P env s)) = Some true /\
  libp2p s' = Some node /\
  helia s' = None /\
  createOrbitDBWithIdentity identity benv s' =
    (Ok (mkBindResult false
           (Some "Helia not initialized. Call initializeP2P first.")),
     s', []).
Proof.
  intros Hh Hn He Hstore.
  assert (Hrun : (success <$> response_value (initializeP2P env s)) = Some true /\
                 final (initializeP2P env s) = set_libp2p (Some node) s).
  { unfold initializeP2P. run. rewrite Hn. simpl.
    destruct Hstore as [Hb | [[Hb Hd] | (Hb & Hd & Hc)]].
    - rewrite Hb. simpl. rewrite (P2PMainFacts.first_run_test e He). split; reflexivity.
    - rewrite Hb. simpl. rewrite Hd. simpl. rewrite (P2PMainFacts.first_run_test e He). split; reflexivity.
    - rewrite Hb. simpl. rewrite Hd. simpl. rewrite Hc. simpl. rewrite (P2PMainFacts.first_run_test e He).
      split; reflexivity. }
  destruct Hrun as [Hsucc Hfinal]. simpl. rewrite Hfinal.
  split; [exact Hsucc |]. split; [reflexivity |]. split; [exact Hh |].
  unfold createOrbitDBWithIdentity. run. rewrite Hh. reflexivity.
Qed.

Lemma first_run_initialize_then_bind_fails_witness :
  (success <$> response_value
     (initializeP2P Fixtures.first_run_empty_disk initial)) = Some true /\
  response (createOrbitDBWithIdentity Fixtures.alice
              (mkBindEnv Fixtures.userData (Ok 20))
              (final (initializeP2P Fixtures.first_run_empty_disk initial))) =
    Ok (mkBindResult false
          (Some "Helia not initialized. Call initializeP2P first.")).
Proof.
  destruct (first_run_initialize_then_bind_fails Fixtures.first_run_empty_disk
              initial Fixtures.node_A Fixtures.level_not_found Fixtures.alice
              (mkBindEnv Fixtures.userData (Ok 20)))
    as (H1 & _ & _ & H4).
  - reflexivity.
  - reflexivity.
  - reflexivity.
  - right. right. repeat split.
  - split; [exact H1 |]. unfold response. rewrite H4. reflexivity.
Defined.

(** X5.  A first-run success of [createOrbitDBWithIdentity] does not bind
    an engine.  When [createOrbitDB] reports not-found the call answers
    with success but leaves [orbitdb] null, so a following
    ['orbitdb:open'] answers with the "OrbitDB not initialized" failure,
    and a repeated bind calls [createOrbitDB] again. *)
Theorem first_run_bind_then_open_fails
    (identity : IdentityDescriptor) (benv : BindEnv) (s : State) (h : Helia)
    (e : JsError) (dbs : gmap string IpcBridge.Database)
    (handlers : list (nat * string)) (name : string)
    (options : IpcBridge.OpenOptions) (env_open : Outcome IpcBridge.Database) :
  helia s = Some h ->
  orbitdb s = None ->
  bind_createOrbitDB benv = Throw e ->
  is_level_not_found e = true ->
  let r := createOrbitDBWithIdentity identity benv s in
  response r = Ok (mkBindResult true None) /\
  final r = s /\
  IpcBridge.handle_open name options env_open
      (IpcBridge.mkState (final r) dbs handlers) =
    (Ok (IpcBridge.Failure
           "OrbitDB not initialized. Call createOrbitDB with identity first."),
     IpcBridge.mkState (final r) dbs handlers, []) /\
  (forall identity' benv',
     exists directory,
       In (CreateOrbitDB (helia_ref h) (identity_id identity') directory)
          (effects (createOrbitDBWithIdentity identity' benv' (final r)))).
Proof.
  intros Hh Ho Hthrow He.
  assert (Hrun : createOrbitDBWithIdentity identity benv s =
            (Ok (mkBindResult true None), s,
             effects (createOrbitDBWithIdentity identity benv s))).
  { unfold createOrbitDBWithIdentity. run. rewrite Hh, Ho. simpl.
    rewrite Hthrow. simpl. rewrite (P2PMainFacts.first_run_test e He). reflexivity. }
  simpl. rewrite Hrun. unfold response, final. simpl.
  split; [reflexivity |]. split; [reflexivity |]. split.
  - unfold IpcBridge.handle_open, getOrbitDB. run. rewrite Ho. reflexivity.
  - intros identity' benv'. eexists.
    unfold createOrbitDBWithIdentity. run. rewrite Hh, Ho. simpl.
    destruct (bind_createOrbitDB benv') as [o|e']; simpl.
    + right. left. reflexivity.
    + destruct (property_of e' "code" (is_level_not_found e')) as [[|]|?]; simpl; right; left; reflexivity.
Qed.

Lemma first_run_bind_then_open_fails_witness :
  response (createOrbitDBWithIdentity Fixtures.alice Scenarios.bind_first_run
              Fixtures.ready) = Ok (mkBindResult true None) /\
  response (IpcBridge.handle_open "intentions" Fixtures.documents_options
              (Ok Fixtures.intentions_db)
              (IpcBridge.mkState
                 (final (createOrbitDBWithIdentity Fixtures.alice
                           Scenarios.bind_first_run Fixtures.ready)) ∅ [])) =
    Ok (IpcBridge.Failure
          "OrbitDB not initialized. Call createOrbitDB with identity first.").
Proof.
  destruct (first_run_bind_then_open_fails Fixtures.alice
              Scenarios.bind_first_run Fixtures.ready
              (mkHelia 10 Fixtures.node_A
                 "/home/user/.config/SyncEngine/orbitdb/blocks"
                 "/home/user/.config/SyncEngine/orbitdb/data")
              Fixtures.level_not_found ∅ [] "intentions"
              Fixtures.documents_options (Ok Fixtures.intentions_db))
    as (H1 & _ & H3 & _); try reflexivity.
  split; [exact H1 |]. unfold response. rewrite H3. reflexivity.
Defined.



(** X7.  What is left to tear down after [shutdownP2P] is exactly what it
    did not stop successfully: the members stopped (and cleared) by the
    run followed by the teardown plan of the final state make up the
    teardown plan of the initial state, and a run that was cut short ends
    with the attempt on the member that now heads the remaining plan.  So
    a repeated shutdown resumes at the member whose [stop()] failed and
    never stops a member twice; after a complete shutdown nothing is
    left. *)
Theorem shutdownP2P_leaves_what_it_did_not_stop
    (env : ShutdownEnv) (s : State) :
  let r := shutdownP2P env s in
  exists done_,
    teardown_plan s = (done_ ++ teardown_plan (final r))%list /\
    (stops (effects r) = done_ \/
     exists failed,
       stops (effects r) = (done_ ++ [failed])%list /\
       head (teardown_plan (final r)) = Some failed) /\
    (env_stopOrbitDB env = Ok tt -> env_stopHelia env = Ok tt ->
     env_stopLibp2p env = Ok tt ->
     teardown_plan (final r) = [] /\
     forall env', stops (effects (shutdownP2P env' (final r))) = []).
Proof.
  destruct s as [[n|] [h|] [o|]];
    destruct env as [[[]|e1] [[]|e2] [[]|e3]];
    unfold shutdownP2P, teardown_plan, stops; run;
    match goal with
    | |- exists d, ?plan = _ /\ _ =>
        first
          [ exists []; split; [reflexivity |]
          | exists (firstn 1 plan); split; [reflexivity |]
          | exists (firstn 2 plan); split; [reflexivity |]
          | exists (firstn 3 plan); split; [reflexivity |] ]
    end;
    (split;
     [ first [ left; reflexivity
             | right; eexists; split; reflexivity ]
     | intros;
       first [ discriminate
             | split; [reflexivity |];
               intros [[[]|?] [[]|?] [[]|?]]; reflexivity ] ]).
Qed.

End SupervisorCompositionFacts.

(* ====================================================================== *)
(** * Further properties of the database bridge                            *)
(* ====================================================================== *)

Module BridgeContractFacts.
Import IpcBridge BridgeObservations.

Ltac unfold_handlers :=
  unfold handle, handle_open, handle_close, handle_getDatabases,
    handle_query, handle_add, handle_put, handle_del, handle_get,
    handle_info.




End BridgeContractFacts.

Module BridgeDataFacts.
Import IpcBridge BridgeObservations.

(** X10.  A database that was opened can be looked up: after
    ['orbitdb:open'] has answered with an address, name and type,
    ['orbitdb:info'] of that address answers with the same three values,
    ['orbitdb:getDatabases'] lists them, and every other database in that
    list was open before. *)
Theorem opened_database_is_listed
    (st : State) (name : string) (options : OpenOptions)
    (env_open : Outcome Database) (address nm ty : string) :
  response (handle_open name options env_open st) = Ok (Opened address nm ty) ->
  let st1 := final (handle_open name options env_open st) in
  handle_info address st1 = (Ok (Info address nm ty), st1, []) /\
  exists dbs,
    handle_getDatabases st1 = (Ok (DatabaseList dbs), st1, []) /\
    In (address, nm, ty) dbs /\
    (forall a n t, In (a, n, t) dbs -> a <> address ->
       exists db, databases st !! a = Some db /\
                  db_name db = n /\ db_type db = t).
Proof.
  unfold handle_open. run.
  destruct (P2PMain.getOrbitDB (supervisor st)) as [o|]; simpl; [| discriminate].
  destruct env_open as [db|e]; simpl; [| discriminate].
  intros [= <- <- <-]. split.
  - unfold handle_info. run. rewrite lookup_insert_eq. destruct db; reflexivity.
  - eexists. split; [unfold handle_getDatabases; run; reflexivity |]. split.
    + apply in_map_iff. exists (db_address db, db). split; [reflexivity |].
      apply list_elem_of_In, elem_of_map_to_list, lookup_insert_eq.
    + intros a n t Hin Hne. apply in_map_iff in Hin as [[a' d] [Heq Hin]].
      simpl in Heq. injection Heq as -> <- <-.
      apply list_elem_of_In, elem_of_map_to_list in Hin.
      rewrite lookup_insert_ne in Hin by congruence. eauto.
Qed.

Lemma opened_database_is_listed_witness :
  handle_info "/orbitdb/zdpuA" Fixtures.one_open =
    (Ok (Info "/orbitdb/zdpuA" "intentions" "documents"), Fixtures.one_open, []).
Proof.
  apply (opened_database_is_listed Fixtures.bridge_ready "intentions"
           Fixtures.documents_options (Ok Fixtures.intentions_db)
           "/orbitdb/zdpuA" "intentions" "documents").
  reflexivity.
Defined.





(** X12.  ['orbitdb:add'] and ['orbitdb:put'] on a documents database
    make the same call [db.put(doc)] and give the same answer for every
    document that has a non-empty [_id]; they differ only for a document
    without one, which put rejects before calling the database, while
    add still passes it to [db.put] and answers with what the database
    engine answered: the hash, or the failure it threw. *)
Theorem add_is_put_without_the_id_check
    (st : State) (address : string) (db : Database) (doc : Doc)
    (env_put : Outcome string) :
  databases st !! address = Some db ->
  db_type db = "documents" ->
  (missing_id doc = false ->
     response (handle_add address doc env_put st) =
       response (handle_put address doc env_put st) /\
     db_calls (effects (handle_add address doc env_put st)) =
       db_calls (effects (handle_put address doc env_put st))) /\
  (missing_id doc = true ->
     handle_put address doc env_put st =
       (Ok (Failure "Document must have _id field for update"), st, []) /\
     db_calls (effects (handle_add address doc env_put st)) =
       [DbPut (db_ref db) doc] /\
     response (handle_add address doc env_put st) =
       match env_put with
       | Ok hash => Ok (Hash hash)
       | Throw e => Ok (Failure (error_text e))
       end).
Proof.
  intros Hdb Hty. unfold handle_add, handle_put, is_documents, db_calls. run.
  rewrite Hdb, bool_decide_eq_true_2 by exact Hty. simpl.
  split; intros ->; simpl; destruct env_put; simpl; repeat split; reflexivity.
Qed.

Lemma add_is_put_without_the_id_check_witness :
  handle_put "/orbitdb/zdpuA" (mkDoc (Some "") "{}") (Ok "zdpuHash") Fixtures.two_open =
    (Ok (Failure "Document must have _id field for update"), Fixtures.two_open, []) /\
  response (handle_add "/orbitdb/zdpuA" (mkDoc (Some "") "{}") (Ok "zdpuHash")
              Fixtures.two_open) = Ok (Hash "zdpuHash").
Proof.
  split; [| reflexivity].
  apply (add_is_put_without_the_id_check Fixtures.two_open "/orbitdb/zdpuA"
           Fixtures.intentions_db (mkDoc (Some "") "{}") (Ok "zdpuHash"));
    [vm_compute; reflexivity | reflexivity | reflexivity].
Defined.





End BridgeDataFacts.

Module BridgeShutdownFacts.
Import IpcBridge BridgeObservations BridgeShutdown.

Lemma for_each_close_entry (env_close : string -> Outcome unit)
    (entries : list (string * Database)) (st : State) :
  for_each (close_entry env_close) entries st =
    (Ok tt, st, flat_map (close_trace env_close) entries).
Proof.
  induction entries as [|entry rest IH]; [reflexivity |].
  simpl. unfold Js.bind at 1. unfold close_entry at 1, close_trace at 1. run.
  destruct (env_close entry.1) as [[]|e]; simpl; rewrite IH; reflexivity.
Qed.

Lemma closes_of_close_traces (env_close : string -> Outcome unit)
    (entries : list (string * Database)) :
  closes (flat_map (close_trace env_close) entries) =
    map (fun entry : string * Database => DbClose (db_ref entry.2)) entries.
Proof.
  unfold closes. induction entries as [|entry rest IH]; [reflexivity |].
  simpl. rewrite List.filter_app, IH. unfold close_trace.
  destruct (env_close entry.1); reflexivity.
Qed.

Lemma closeAllDatabases_run (env_close : string -> Outcome unit) (st : State) :
  closeAllDatabases env_close st =
    (Ok tt, set_databases (fun _ => ∅) st,
     ConsoleLog "Closing all databases..." ::
     flat_map (close_trace env_close) (map_to_list (databases st)) ++
     [ConsoleLog "All databases closed"])%list.
Proof.
  unfold closeAllDatabases. run. rewrite for_each_close_entry. simpl.
  reflexivity.
Qed.

(** X14.  [closeAllDatabases] never throws and always empties the table
    of open databases, keeping the rest of the bridge state.  It calls
    [close()] exactly once on every database that was open; a [close()]
    that throws is logged and does not keep the others from being
    closed. *)
Theorem closeAllDatabases_closes_every_database
    (env_close : string -> Outcome unit) (st : State) :
  let r := closeAllDatabases env_close st in
  response r = Ok tt /\
  final r = mkState (supervisor st) ∅ (update_handlers st) /\
  closes (effects r) =
    map (fun entry : string * Database => DbClose (db_ref entry.2))
        (map_to_list (databases st)) /\
  length (closes (effects r)) = size (databases st) /\
  (forall address db, databases st !! address = Some db ->
     In (DbClose (db_ref db)) (effects r) /\
     (forall e, env_close address = Throw e ->
        In (ConsoleError ("Failed to close database " +:+ address +:+ ":") e)
           (effects r))).
Proof.
  cbv zeta. rewrite closeAllDatabases_run. unfold response, final, effects.
  cbn [fst snd].
  assert (Hcloses :
    closes (ConsoleLog "Closing all databases..."
            :: (flat_map (close_trace env_close) (map_to_list (databases st)) ++
                [ConsoleLog "All databases closed"])%list) =
    map (fun entry : string * Database => DbClose (db_ref entry.2))
        (map_to_list (databases st))).
  { unfold closes. simpl. rewrite List.filter_app. simpl. rewrite app_nil_r.
    apply closes_of_close_traces. }
  split; [reflexivity |]. split; [reflexivity |]. split; [exact Hcloses |].
  split.
  - rewrite Hcloses, length_map. apply length_map_to_list.
  - intros address db Hdb.
    assert (Hin : In (address, db) (map_to_list (databases st))).
    { apply list_elem_of_In, elem_of_map_to_list. exact Hdb. }
    split.
    + right. apply in_or_app. left. apply in_flat_map.
      exists (address, db). split; [exact Hin |].
      unfold close_trace. simpl. destruct (env_close address); left; reflexivity.
    + intros e He. right. apply in_or_app. left. apply in_flat_map.
      exists (address, db). split; [exact Hin |].
      unfold close_trace. simpl. rewrite He. right. left. reflexivity.
Qed.

Lemma shutdownP2P_returns (env : P2PMain.ShutdownEnv) (s : P2PMain.State) :
  response (P2PMain.shutdownP2P env s) = Ok tt.
Proof.
  destruct s as [[n|] [h|] [o|]];
    destruct env as [[[]|e1] [[]|e2] [[]|e3]]; reflexivity.
Qed.

(** X15.  The quit sequence of the main process always runs to the end.
    Whatever fails on the way, [before-quit] does not throw: it first
    closes every open database, then shuts the supervisor down on the
    state it found, and its last effect is [app.exit(0)].  Afterwards no
    database is open. *)
Theorem before_quit_always_exits
    (env_close : string -> Outcome unit) (env_stop : P2PMain.ShutdownEnv)
    (st : State) :
  let r := MainProcess.before_quit env_close env_stop st in
  response r = Ok tt /\
  effects r =
    (MainProcess.ConsoleLog "App quitting, shutting down..." ::
     MainProcess.PreventDefault ::
     map MainProcess.Bridge (effects (closeAllDatabases env_close st)) ++
     map MainProcess.Supervisor
       (effects (P2PMain.shutdownP2P env_stop (supervisor st))) ++
     [MainProcess.AppExit 0])%list /\
  last (effects r) = Some (MainProcess.AppExit 0) /\
  databases (final r) = ∅ /\
  supervisor (final r) = final (P2PMain.shutdownP2P env_stop (supervisor st)).
Proof.
  assert (Hrun :
    MainProcess.before_quit env_close env_stop st =
      (Ok tt,
       MainProcess.with_supervisor
         (final (P2PMain.shutdownP2P env_stop (supervisor st)))
         (set_databases (fun _ => ∅) st),
       (MainProcess.ConsoleLog "App quitting, shutting down..." ::
        MainProcess.PreventDefault ::
        map MainProcess.Bridge (effects (closeAllDatabases env_close st)) ++
        map MainProcess.Supervisor
          (effects (P2PMain.shutdownP2P env_stop (supervisor st))) ++
        [MainProcess.AppExit 0])%list)).
  { unfold MainProcess.before_quit, MainProcess.in_bridge,
      MainProcess.in_supervisor. run.
    rewrite closeAllDatabases_run. simpl.
    pose proof (shutdownP2P_returns env_stop (supervisor st)) as Hstop.
    unfold response in Hstop.
    destruct (P2PMain.shutdownP2P env_stop (supervisor st)) as [[r s'] t].
    simpl in Hstop. subst r. simpl. reflexivity. }
  simpl. rewrite Hrun. unfold response, final, effects. simpl.
  split; [reflexivity |]. split; [reflexivity |]. split; [| split; reflexivity].
  rewrite !app_comm_cons, !app_assoc. apply last_snoc.
Qed.

End BridgeShutdownFacts.

(* ====================================================================== *)
(** * Properties of the first main process                                 *)
(* ====================================================================== *)

Module LegacyMainFacts.
Import P2PMain.

(** X16.  The ['p2p:initialize'] handler of electron/main.js is
    idempotent.  Once a call has answered with success, every later call
    answers with the same identifier and the same addresses, whatever the
    collaborators would do: it calls none of them and changes nothing. *)
Theorem legacy_initialize_is_idempotent
    (env1 env2 : InitEnv) (s : State) (res1 : P2PInitResult) :
  helia s = None ->
  response (LegacyMain.ipc_initialize env1 s) = Ok res1 ->
  success res1 = true ->
  let s1 := final (LegacyMain.ipc_initialize env1 s) in
  LegacyMain.ipc_initialize env2 s1 =
    (Ok (mkInitResult true (peerId res1) (multiaddrs res1) None None), s1, []).
Proof.
  intros Hh. unfold LegacyMain.ipc_initialize, LegacyMain.initializeP2P. run.
  rewrite Hh. simpl.
  destruct (env_createLibp2p env1) as [n|e0]; simpl;
    [| destruct e0; simpl; intros H Hs; simplify_eq; simpl in *; discriminate].
  destruct (env_newBlockstore env1) as [[]|e1]; simpl;
    [| destruct e1; simpl; intros H Hs; simplify_eq; simpl in *; discriminate].
  destruct (env_newDatastore env1) as [[]|e2]; simpl;
    [| destruct e2; simpl; intros H Hs; simplify_eq; simpl in *; discriminate].
  destruct (env_createHelia env1) as [h|e3]; simpl;
    [| destruct e3; simpl; intros H Hs; simplify_eq; simpl in *; discriminate].
  intros [= <-] _. reflexivity.
Qed.

Lemma legacy_initialize_is_idempotent_witness :
  LegacyMain.ipc_initialize Fixtures.second_start
      (final (LegacyMain.ipc_initialize Fixtures.first_start initial)) =
    (Ok (mkInitResult true (Some "12D3KooWA")
           (Some ["/ip4/127.0.0.1/tcp/4003"; "/ip4/127.0.0.1/tcp/50001"])
           None None),
     final (LegacyMain.ipc_initialize Fixtures.first_start initial), []).
Proof.
  apply (legacy_initialize_is_idempotent Fixtures.first_start
           Fixtures.second_start initial
           (mkInitResult true (Some "12D3KooWA")
              (Some ["/ip4/127.0.0.1/tcp/4003"; "/ip4/127.0.0.1/tcp/50001"])
              (Some "/home/user/.config/SyncEngine/orbitdb") None));
    reflexivity.
Defined.

End LegacyMainFacts.

(* ====================================================================== *)
(** * Properties of listener registration                                  *)
(* ====================================================================== *)

Module ListenerFacts.
Import IpcBridge Renderer.

Lemma remove_last_keeps_others (channel : string) (ref : nat)
    (rev_reg : Registry) (c : string) (l : Listener) :
  In (c, l) rev_reg -> listener_ref l <> ref ->
  In (c, l) (remove_last channel ref rev_reg).
Proof.
  induction rev_reg as [|[c' l'] rest IH]; intros Hin Hne; [destruct Hin |].
  simpl. destruct Hin as [[= -> ->] | Hin].
  - rewrite (bool_decide_eq_false_2 _ Hne), andb_false_r. left. reflexivity.
  - destruct (bool_decide (c' = channel) && bool_decide (listener_ref l' = ref)).
    + exact Hin.
    + right. apply IH; assumption.
Qed.

Lemma remove_last_subset (channel : string) (ref : nat) (rev_reg : Registry)
    (x : string * Listener) :
  In x (remove_last channel ref rev_reg) -> In x rev_reg.
Proof.
  induction rev_reg as [|[c' l'] rest IH]; intros Hin; [destruct Hin |].
  simpl in Hin.
  destruct (bool_decide (c' = channel) && bool_decide (listener_ref l' = ref)).
  - right. exact Hin.
  - destruct Hin as [<- | Hin]; [left; reflexivity | right; apply IH, Hin].
Qed.

(** X17.  [removeUpdateListener] undoes [onUpdate]: registering a
    listener and then removing it gives back the registry as it was, so
    the updates are delivered exactly as before.  Removing a listener
    never adds one and never removes a listener with another identity. *)
Theorem removeUpdateListener_undoes_onUpdate (l : Listener) (reg : Registry) :
  removeUpdateListener l (onUpdate l reg) = reg /\
  (forall t, deliver (removeUpdateListener l (onUpdate l reg)) t = deliver reg t) /\
  (forall x, In x (removeUpdateListener l reg) -> In x reg) /\
  (forall c l', In (c, l') reg -> listener_ref l' <> listener_ref l ->
     In (c, l') (removeUpdateListener l reg)).
Proof.
  assert (Hundo : removeUpdateListener l (onUpdate l reg) = reg).
  { unfold removeUpdateListener, onUpdate. rewrite rev_app_distr. simpl.
    rewrite !bool_decide_eq_true_2 by reflexivity. simpl.
    apply rev_involutive. }
  split; [exact Hundo |]. split; [intros t; rewrite Hundo; reflexivity |].
  split.
  - intros x Hin. unfold removeUpdateListener in Hin.
    apply in_rev in Hin. apply remove_last_subset in Hin.
    apply in_rev. exact Hin.
  - intros c l' Hin Hne. unfold removeUpdateListener.
    apply in_rev. rewrite rev_involutive.
    apply remove_last_keeps_others; [| exact Hne].
    apply in_rev. rewrite rev_involutive. exact Hin.
Qed.

Lemma removeUpdateListener_undoes_onUpdate_witness :
  In ("orbitdb:update", subscriber 7 "/orbitdb/zdpuB")
     (removeUpdateListener (subscriber 8 "/orbitdb/zdpuA")
        (onUpdate (subscriber 8 "/orbitdb/zdpuA") Fixtures.attention_watcher)).
Proof.
  destruct (removeUpdateListener_undoes_onUpdate (subscriber 8 "/orbitdb/zdpuA")
              (onUpdate (subscriber 8 "/orbitdb/zdpuA") Fixtures.attention_watcher))
    as (_ & _ & _ & H).
  apply H; [left; reflexivity | discriminate].
Defined.

End ListenerFacts.

(* ====================================================================== *)
(** * Properties of the key encodings                                      *)
(* ====================================================================== *)

Module Base64Facts.
Import Identity Base64.

(** Induction three list elements at a time. *)
Lemma list_ind3 {A} (P : list A -> Prop) :
  P [] -> (forall a, P [a]) -> (forall a b, P [a; b]) ->
  (forall a b c rest, P rest -> P (a :: b :: c :: rest)) ->
  forall l, P l.
Proof.
  intros H0 H1 H2 H3.
  assert (H : forall l, P l /\ (forall a, P (a :: l)) /\ (forall a b, P (a :: b :: l))).
  { induction l as [|x l (IH0 & IH1 & IH2)].
    - auto.
    - split; [apply IH1 |]. split; [intros a; apply IH2 |].
      intros a b. apply H3, IH0. }
  intros l. apply H.
Qed.


(** A check of all sixty-four characters of the alphabet. *)
Lemma alphabet_check (check : N -> bool) :
  forallb (fun i => check (N.of_nat i)) (seq 0 64) = true ->
  forall i, (i < 64)%N -> check i = true.
Proof.
  intros Hall i Hi. rewrite forallb_forall in Hall.
  specialize (Hall (N.to_nat i)). rewrite N2Nat.id in Hall.
  apply Hall, in_seq. lia.
Qed.

Lemma sextet_b64 (i : N) : (i < 64)%N -> sextet (b64 i) = Some i.
Proof.
  intros Hi.
  apply (alphabet_check (fun i => bool_decide (sextet (b64 i) = Some i)))
    in Hi; [| vm_compute; reflexivity].
  by apply bool_decide_eq_true in Hi.
Qed.

Lemma b64_not_whitespace (i : N) :
  (i < 64)%N -> is_ascii_whitespace (b64 i) = false.
Proof.
  intros Hi.
  apply (alphabet_check (fun i => negb (is_ascii_whitespace (b64 i))))
    in Hi; [| vm_compute; reflexivity].
  by apply negb_true_iff in Hi.
Qed.

Lemma b64_not_padding (i : N) : (i < 64)%N -> b64 i <> "="%char.
Proof.
  intros Hi.
  apply (alphabet_check (fun i => negb (Ascii.eqb (b64 i) "="))) in Hi;
    [| vm_compute; reflexivity].
  apply negb_true_iff, Ascii.eqb_neq in Hi. exact Hi.
Qed.

Lemma btoa_shape (binary : list N) :
  String.list_ascii_of_string (btoa binary) =
    (map b64 (groups binary) ++ padding binary)%list.
Proof.
  induction binary as [| a | a b | a b c rest IH] using list_ind3;
    try reflexivity.
  change (btoa (a :: b :: c :: rest)) with
    (String (b64 (a / 4))
       (String (b64 (a mod 4 * 16 + b / 16))
          (String (b64 (b mod 16 * 4 + c / 64))
             (String (b64 (c mod 64)) (btoa rest)))))%N.
  simpl. rewrite IH. reflexivity.
Qed.

Lemma groups_small (binary : list N) :
  small binary -> Forall (fun i => (i < 64)%N) (groups binary).
Proof.
  unfold small.
  induction binary as [| a | a b | a b c rest IH] using list_ind3; intros H.
  - constructor.
  - inversion_clear H as [|? ? Ha _]. cbn [groups].
    repeat (apply Forall_cons_2; [dlia |]). apply Forall_nil_2.
  - inversion_clear H as [|? ? Ha H']. inversion_clear H' as [|? ? Hb _].
    cbn [groups]. repeat (apply Forall_cons_2; [dlia |]). apply Forall_nil_2.
  - inversion_clear H as [|? ? Ha H']. inversion_clear H' as [|? ? Hb H''].
    inversion_clear H'' as [|? ? Hc Hrest].
    change (groups (a :: b :: c :: rest)) with
      (a / 4 :: (a mod 4 * 16 + b / 16) :: (b mod 16 * 4 + c / 64) :: c mod 64
       :: groups rest)%N.
    repeat (apply Forall_cons_2; [dlia |]). apply IH, Hrest.
Qed.

Lemma shape_length (binary : list N) :
  (length (map b64 (groups binary) ++ padding binary) mod 4 = 0)%nat.
Proof.
  induction binary as [| a | a b | a b c rest IH] using list_ind3;
    try reflexivity.
  change (groups (a :: b :: c :: rest)) with
    (a / 4 :: (a mod 4 * 16 + b / 16) :: (b mod 16 * 4 + c / 64) :: c mod 64
     :: groups rest)%N.
  change (padding (a :: b :: c :: rest)) with (padding rest).
  simpl length.
  change (S (S (S (S ?n)))) with (4 + n)%nat.
  rewrite Nat.add_comm, (Nat.Div0.mod_add _ 1 4). exact IH.
Qed.

Lemma groups_length (binary : list N) :
  (length (groups binary) mod 4 <> 1)%nat.
Proof.
  induction binary as [| a | a b | a b c rest IH] using list_ind3;
    try (cbn; lia).
  change (groups (a :: b :: c :: rest)) with
    (a / 4 :: (a mod 4 * 16 + b / 16) :: (b mod 16 * 4 + c / 64) :: c mod 64
     :: groups rest)%N.
  simpl length. change (S (S (S (S ?n)))) with (4 + n)%nat.
  rewrite Nat.add_comm, (Nat.Div0.mod_add _ 1 4). exact IH.
Qed.

Lemma decode_groups (binary : list N) :
  small binary -> decode_sextets (groups binary) = binary.
Proof.
  unfold small.
  induction binary as [| a | a b | a b c rest IH] using list_ind3; intros H.
  - reflexivity.
  - inversion_clear H as [|? ? Ha _]. cbn [groups decode_sextets].
    f_equal. dlia.
  - inversion_clear H as [|? ? Ha H']. inversion_clear H' as [|? ? Hb _].
    cbn [groups decode_sextets]. f_equal; [dlia |]. f_equal. dlia.
  - inversion_clear H as [|? ? Ha H']. inversion_clear H' as [|? ? Hb H''].
    inversion_clear H'' as [|? ? Hc Hrest].
    change (groups (a :: b :: c :: rest)) with
      (a / 4 :: (a mod 4 * 16 + b / 16) :: (b mod 16 * 4 + c / 64) :: c mod 64
       :: groups rest)%N.
    cbn [decode_sextets]. rewrite (IH Hrest).
    f_equal; [dlia |]. f_equal; [dlia |]. f_equal. dlia.
Qed.

Lemma sextets_b64 (l : list N) :
  Forall (fun i => (i < 64)%N) l -> sextets (map b64 l) = Some l.
Proof.
  induction 1 as [|i l Hi _ IH]; [reflexivity |].
  simpl. rewrite (sextet_b64 i Hi), IH. reflexivity.
Qed.

Lemma padding_cases (binary : list N) :
  padding binary = [] \/ padding binary = ["="%char] \/
  padding binary = ["="%char; "="%char].
Proof.
  induction binary as [| a | a b | a b c rest IH] using list_ind3; auto.
Qed.

Lemma strip_whitespace_shape (l : list N) (pad : list ascii) :
  Forall (fun i => (i < 64)%N) l ->
  pad = [] \/ pad = ["="%char] \/ pad = ["="%char; "="%char] ->
  strip_whitespace (map b64 l ++ pad) = (map b64 l ++ pad)%list.
Proof.
  intros Hl Hpad. unfold strip_whitespace. rewrite List.filter_app. f_equal.
  - induction Hl as [|i l Hi _ IH]; [reflexivity |].
    simpl. rewrite (b64_not_whitespace i Hi). simpl. rewrite IH. reflexivity.
  - destruct Hpad as [-> | [-> | ->]]; reflexivity.
Qed.

Lemma not_padding_match (x : ascii) (r : list ascii) (l : list ascii) :
  x <> "="%char ->
  match x :: r with
  | "="%char :: "="%char :: r' => rev r'
  | "="%char :: r' => rev r'
  | _ => l
  end = l.
Proof.
  intros Hx.
  destruct x as [[] [] [] [] [] [] [] []]; try reflexivity.
  exfalso. apply Hx. reflexivity.
Qed.

Lemma padding_match_one (x : ascii) (r : list ascii) (l : list ascii) :
  x <> "="%char ->
  match "="%char :: x :: r with
  | "="%char :: "="%char :: r' => rev r'
  | "="%char :: r' => rev r'
  | _ => l
  end = rev (x :: r).
Proof.
  intros Hx.
  destruct x as [[] [] [] [] [] [] [] []]; try reflexivity.
  exfalso. apply Hx. reflexivity.
Qed.

Lemma strip_padding_shape (body pad : list ascii) :
  (length (body ++ pad) mod 4 = 0)%nat ->
  (forall c, last body = Some c -> c <> "="%char) ->
  pad = [] \/ pad = ["="%char] \/ pad = ["="%char; "="%char] ->
  strip_padding (body ++ pad) = body.
Proof.
  intros Hlen Hlast Hpad. unfold strip_padding. rewrite Hlen. simpl Nat.eqb.
  cbv iota. rewrite rev_app_distr.
  destruct (rev body) as [|x r] eqn:Hrev.
  - assert (body = []) as -> by (apply (f_equal (@rev _)) in Hrev;
      rewrite rev_involutive in Hrev; exact Hrev).
    destruct Hpad as [-> | [-> | ->]]; reflexivity.
  - assert (Hbody : body = (rev r ++ [x])%list)
      by (apply (f_equal (@rev _)) in Hrev; rewrite rev_involutive in Hrev;
          exact Hrev).
    assert (Hx : x <> "="%char)
      by (apply Hlast; rewrite Hbody; apply last_snoc).
    destruct Hpad as [-> | [-> | ->]].
    + change (rev [] ++ x :: r)%list with (x :: r). rewrite app_nil_r.
      apply not_padding_match, Hx.
    + change (rev ["="%char] ++ x :: r)%list with ("="%char :: x :: r).
      etransitivity;
        [apply (padding_match_one x r (body ++ ["="%char])%list Hx) |].
      rewrite Hbody. reflexivity.
    + rewrite Hbody. reflexivity.
Qed.

Lemma last_b64_not_padding (l : list N) (c : ascii) :
  Forall (fun i => (i < 64)%N) l -> last (map b64 l) = Some c -> c <> "="%char.
Proof.
  induction 1 as [|i l Hi Hl IH]; [discriminate |].
  destruct l as [|j l']; simpl.
  - intros [= <-]. apply b64_not_padding, Hi.
  - exact IH.
Qed.

Lemma atob_btoa (binary : list N) :
  small binary -> atob (btoa binary) = Ok binary.
Proof.
  intros Hsmall. pose proof (groups_small binary Hsmall) as Hg.
  unfold atob. rewrite btoa_shape.
  rewrite (strip_whitespace_shape _ _ Hg (padding_cases binary)).
  rewrite (strip_padding_shape _ _ (shape_length binary)
             (fun c => last_b64_not_padding _ c Hg) (padding_cases binary)).
  rewrite length_map.
  destruct (length (groups binary) mod 4 =? 1)%nat eqn:Hlen.
  - apply Nat.eqb_eq in Hlen. exfalso. exact (groups_length binary Hlen).
  - rewrite (sextets_b64 _ Hg), (decode_groups _ Hsmall). reflexivity.
Qed.

Lemma btoa_nonempty (binary : list N) : btoa binary = "" -> binary = [].
Proof. destruct binary as [|a [|b [|c rest]]]; [reflexivity | discriminate ..]. Qed.

Lemma bytes_are_small (b : bytes) : small (map Byte.to_N b).
Proof.
  unfold small. apply Forall_forall. intros n Hn.
  apply list_elem_of_fmap in Hn as [x [-> _]].
  pose proof (Byte.to_N_bounded x). lia.
Qed.

Lemma base64_round_trip_bytes (b : bytes) :
  base64ToUint8Array (arrayBufferToBase64 b) = Ok b.
Proof.
  unfold base64ToUint8Array, arrayBufferToBase64.
  rewrite (atob_btoa _ (bytes_are_small b)). f_equal.
  rewrite map_map. induction b as [|x b IH]; [reflexivity |].
  simpl. rewrite IH. unfold byte_of_code. rewrite Byte.of_to_N. reflexivity.
Qed.

(** X18.  A key survives storage: decoding what [arrayBufferToBase64]
    produced with [base64ToUint8Array] succeeds and gives back exactly the
    bytes that were encoded, for every sequence of bytes, the empty one
    included. *)
Theorem base64_round_trip (b : bytes) :
  base64ToUint8Array (arrayBufferToBase64 b) = Ok b /\
  (arrayBufferToBase64 b = "" <-> b = []).
Proof.
  split; [apply base64_round_trip_bytes |]. split.
  - intros H. apply btoa_nonempty in H. destruct b; [reflexivity | discriminate].
  - intros ->. reflexivity.
Qed.

(** The decoder on inputs that [btoa] does not produce. *)
Example atob_forgives_missing_padding_and_spaces :
  atob "TW E" = Ok [77; 97]%N /\ atob "TWFu TQ" = Ok [77; 97; 110; 77]%N.
Proof. split; reflexivity. Qed.

Example atob_rejects_bad_text :
  atob "T" = Throw invalid_character /\ atob "TW-u" = Throw invalid_character /\
  atob "TQ=" = Throw invalid_character.
Proof. repeat split; reflexivity. Qed.

End Base64Facts.

(* ====================================================================== *)
(** * Properties of credential persistence and signing                     *)
(* ====================================================================== *)

Module StorageFacts.
Import Identity Base64 Storage.

Lemma append_injective (prefix a b : string) :
  prefix +:+ a = prefix +:+ b -> a = b.
Proof.
  induction prefix as [|c prefix IH]; simpl; [auto |].
  intros [= H]. apply IH, H.
Qed.

Lemma storage_key_injective (a b : string) :
  storage_key a = storage_key b -> a = b.
Proof. apply append_injective. Qed.

(** Reading back the public key text written by [saveWebAuthnCredential]. *)
Lemma stored_key_reads_back (b : bytes) :
  (if bool_decide (arrayBufferToBase64 b = "")
   then Ok (KeyUint8 [])
   else match base64ToUint8Array (arrayBufferToBase64 b) with
        | Ok k => Ok (KeyUint8 k)
        | Throw e => Throw e
        end) = Ok (KeyUint8 b).
Proof.
  case_bool_decide as Hempty.
  - apply Base64Facts.btoa_nonempty in Hempty. destruct b; [reflexivity | discriminate].
  - rewrite Base64Facts.base64_round_trip_bytes. reflexivity.
Qed.

Lemma get_after_save (c : Credential) (key : string) (store : gmap string Item) :
  let store' := final (saveWebAuthnCredential c key store) in
  getWebAuthnCredential key store' = (Ok (Some (reloaded c)), store', []).
Proof.
  unfold saveWebAuthnCredential, getWebAuthnCredential. run.
  rewrite lookup_insert_eq. simpl.
  pose proof (stored_key_reads_back (to_Uint8Array (cred_publicKey c))) as Hkey.
  unfold reloaded.
  case_bool_decide as Hempty; simpl.
  - injection Hkey as Hb. rewrite <- Hb. reflexivity.
  - destruct (base64ToUint8Array _) as [k|e]; simpl; [| discriminate].
    injection Hkey as Hb. rewrite Hb. reflexivity.
Qed.

(** X19.  A saved credential can be read back.  After
    [saveWebAuthnCredential] under a key, [getWebAuthnCredential] of that
    key returns the credential with every field as it was saved and the
    public key as a [Uint8Array] of the same bytes, without an error and
    without touching the store; the identity built from it has the same
    identifier and key; and what is stored under every other key reads as
    before. *)
Theorem saved_credential_reads_back
    (c : Credential) (key : string) (store : gmap string Item) :
  let store' := final (saveWebAuthnCredential c key store) in
  getWebAuthnCredential key store' = (Ok (Some (reloaded c)), store', []) /\
  response (createOrbitDBIdentity (reloaded c) tt) =
    Ok (mkIdentity (generateDID (to_Uint8Array (cred_publicKey c)))
          (to_Uint8Array (cred_publicKey c)) "webauthn" (reloaded c)) /\
  (forall other, other <> key ->
     response (getWebAuthnCredential other store') =
       response (getWebAuthnCredential other store)).
Proof.
  split; [apply get_after_save |]. split; [reflexivity |].
  intros other Hne. unfold saveWebAuthnCredential, getWebAuthnCredential. run.
  rewrite lookup_insert_ne
    by (intros H; apply storage_key_injective in H; congruence).
  destruct (store !! storage_key other) as [item|]; simpl; [| reflexivity].
  destruct (is_empty_text item); simpl; [reflexivity |].
  destruct (json_parse item) as [parsed|e]; simpl; [| reflexivity].
  destruct (ser_publicKey parsed) as [text|]; simpl; [| reflexivity].
  case_bool_decide; simpl; [reflexivity |].
  destruct (base64ToUint8Array text); reflexivity.
Qed.

(** X20.  [getWebAuthnCredential] never changes the store.  With nothing
    stored under the key, or the empty text, it returns null without an
    error.  A text that is not JSON, and a stored public key that is not
    base64, make it log the error and throw it on to the caller. *)
Theorem reading_a_credential_fails_loudly
    (key : string) (store : gmap string Item) :
  let r := getWebAuthnCredential key store in
  final r = store /\
  (store !! storage_key key = None \/
   store !! storage_key key = Some (Unparsable "") ->
   r = (Ok None, store, [])) /\
  (forall text, text <> "" ->
     store !! storage_key key = Some (Unparsable text) ->
     r = (Throw syntax_error, store,
          [ConsoleError "Error reading credential:" syntax_error])) /\
  (forall parsed text e,
     store !! storage_key key = Some (Json parsed) ->
     ser_publicKey parsed = Some text -> text <> "" ->
     base64ToUint8Array text = Throw e ->
     r = (Throw e, store, [ConsoleError "Error reading credential:" e])).
Proof.
  unfold getWebAuthnCredential. run. split; [| split; [| split]].
  - destruct (store !! storage_key key) as [item|]; simpl; [| reflexivity].
    destruct (is_empty_text item); simpl; [reflexivity |].
    destruct (json_parse item) as [parsed|e]; simpl; [| reflexivity].
    destruct (ser_publicKey parsed) as [text|]; simpl; [| reflexivity].
    case_bool_decide; simpl; [reflexivity |].
    destruct (base64ToUint8Array text); reflexivity.
  - intros [-> | ->]; reflexivity.
  - intros text Hne ->. simpl. rewrite bool_decide_eq_false_2 by exact Hne.
    reflexivity.
  - intros parsed text e -> Hkey Hne Hbad. simpl. rewrite Hkey. simpl.
    rewrite bool_decide_eq_false_2 by exact Hne. simpl. rewrite Hbad.
    reflexivity.
Qed.

Lemma reading_a_credential_fails_loudly_witness :
  getWebAuthnCredential "test-key" ∅ = (Ok None, ∅, []) /\
  response (getWebAuthnCredential "test-key"
              {[ "webauthn-credential-test-key" := Unparsable "invalid-json{" ]})
    = Throw syntax_error /\
  response (getWebAuthnCredential "test-key"
              {[ "webauthn-credential-test-key" :=
                   Json (mkSerialized "cred-1" "AQ==" (Some "@@@") "Alice" 0
                           "public-key") ]})
    = Throw invalid_character.
Proof.
  split; [| split].
  - apply (reading_a_credential_fails_loudly "test-key" ∅). left. reflexivity.
  - destruct (reading_a_credential_fails_loudly "test-key"
                {[ "webauthn-credential-test-key" := Unparsable "invalid-json{" ]})
      as (_ & _ & H & _).
    rewrite (H "invalid-json{"); [reflexivity | discriminate | reflexivity].
  - destruct (reading_a_credential_fails_loudly "test-key"
                {[ "webauthn-credential-test-key" :=
                     Json (mkSerialized "cred-1" "AQ==" (Some "@@@") "Alice" 0
                             "public-key") ]})
      as (_ & _ & _ & H).
    rewrite (H (mkSerialized "cred-1" "AQ==" (Some "@@@") "Alice" 0 "public-key")
               "@@@" invalid_character);
      [reflexivity | reflexivity | reflexivity | discriminate | reflexivity].
Defined.

(** The two models of [setupDevice] agree on answer and effects. *)
Lemma setupDevice_agrees (userName : string) (env : SetupEnv)
    (store : gmap string Item) :
  response (setupDevice userName env store) =
    response (Identity.setupDevice userName env tt) /\
  effects (setupDevice userName env store) =
    effects (Identity.setupDevice userName env tt).
Proof.
  unfold setupDevice, Identity.setupDevice, saveWebAuthnCredential,
    Identity.saveWebAuthnCredential, stateless, createOrbitDBIdentity. run.
  destruct (env_webauthn env); simpl; [| split; reflexivity].
  destruct (env_create env) as [[pkc|]|e]; simpl; split; reflexivity.
Qed.

(** X21.  [setupDevice] writes the credential to the store exactly when
    it succeeds.  Without WebAuthn support it throws "WebAuthn not
    supported" before asking the authenticator; when the authenticator
    rejects, the error is logged and thrown on; when it answers null, the
    function throws "Failed to create credential"; in all three cases the
    store is left as it was.  On success the store differs only under the
    key of the current user. *)
Theorem setupDevice_stores_only_on_success
    (userName : string) (env : SetupEnv) (store : gmap string Item) :
  let r := setupDevice userName env store in
  (env_webauthn env = false ->
     r = (Throw (plain_error "WebAuthn not supported"), store,
          [ConsoleLog "Setting up device identity for:"])) /\
  (forall e, env_webauthn env = true -> env_create env = Throw e ->
     response r = Throw e /\ final r = store /\
     last (effects r) = Some (ConsoleError "WebAuthn creation failed:" e)) /\
  (env_webauthn env = true -> env_create env = Ok None ->
     response r = Throw (plain_error "Failed to create credential") /\
     final r = store) /\
  (forall e, response r = Throw e -> final r = store) /\
  (forall c i, response r = Ok (c, i) ->
     final r = <[storage_key "current-user" :=
                   Json (mkSerialized (cred_id c) (cred_rawId c)
                           (Some (arrayBufferToBase64 (publicKey i)))
                           userName (env_now env) (cred_type c))]> store /\
     cred_userName c = userName /\ cred_createdAt c = env_now env).
Proof.
  unfold setupDevice, saveWebAuthnCredential, stateless, createOrbitDBIdentity.
  run.
  destruct (env_webauthn env); simpl.
  - destruct (env_create env) as [[pkc|]|e]; simpl.
    + split; [discriminate |]. split; [discriminate |]. split; [discriminate |].
      split; [discriminate |]. intros c i [= <- <-]. simpl. auto.
    + split; [discriminate |]. split; [discriminate |]. split; [auto |].
      split; [reflexivity | discriminate].
    + split; [discriminate |]. split.
      { intros e' _ [= <-]. auto. }
      split; [discriminate |]. split; [reflexivity | discriminate].
  - split; [reflexivity |]. split; [discriminate |]. split; [discriminate |].
    split; [reflexivity | discriminate].
Qed.

Lemma setupDevice_stores_only_on_success_witness :
  setupDevice "Alice"
      (mkSetupEnv false "localhost" [] [] (Ok (Some Fixtures.authenticator_answer)) 0)
      ∅ =
    (Throw (plain_error "WebAuthn not supported"), ∅,
     [ConsoleLog "Setting up device identity for:"]).
Proof.
  apply (setupDevice_stores_only_on_success "Alice"
           (mkSetupEnv false "localhost" [] []
              (Ok (Some Fixtures.authenticator_answer)) 0) ∅).
  reflexivity.
Defined.

(** X22.  A returning user gets the same identity.  After a successful
    [setupDevice], [getWebAuthnCredential] for the current user returns
    the credential that was created, and the identity that
    [createOrbitDBIdentity] builds from it has the identifier and the
    public key of the identity returned by [setupDevice]. *)
Theorem returning_user_gets_the_same_identity
    (userName : string) (env : SetupEnv) (store : gmap string Item)
    (c : Credential) (i : OrbitIdentity) :
  response (setupDevice userName env store) = Ok (c, i) ->
  let store' := final (setupDevice userName env store) in
  getWebAuthnCredential "current-user" store' = (Ok (Some (reloaded c)), store', []) /\
  exists i',
    response (createOrbitDBIdentity (reloaded c) tt) = Ok i' /\
    id i' = id i /\ publicKey i' = publicKey i.
Proof.
  intros Hrun.
  assert (Hshape :
    final (setupDevice userName env store) =
      final (saveWebAuthnCredential c "current-user" store) /\
    id i = generateDID (to_Uint8Array (cred_publicKey c)) /\
    publicKey i = to_Uint8Array (cred_publicKey c)).
  { revert Hrun.
    unfold setupDevice, saveWebAuthnCredential, stateless, createOrbitDBIdentity.
    run.
    destruct (env_webauthn env); simpl; [| discriminate].
    destruct (env_create env) as [[pkc|]|e]; simpl; try discriminate.
    intros [= <- <-]. simpl. auto. }
  destruct Hshape as (Hfinal & Hid & Hkey). simpl. rewrite Hfinal.
  split; [apply get_after_save |].
  eexists. split; [reflexivity |]. simpl. rewrite Hid, Hkey. auto.
Qed.

Lemma returning_user_gets_the_same_identity_witness :
  exists c i c',
    response (setupDevice "Alice" Fixtures.setup_monday ∅) = Ok (c, i) /\
    response (getWebAuthnCredential "current-user"
                (final (setupDevice "Alice" Fixtures.setup_monday ∅)))
      = Ok (Some c') /\
    cred_publicKey c = KeyBuffer Fixtures.key_bytes /\
    cred_publicKey c' = KeyUint8 Fixtures.key_bytes /\
    (id <$> response_value (createOrbitDBIdentity c' tt)) = Some (id i).
Proof.
  do 3 eexists. split; [reflexivity |].
  destruct (returning_user_gets_the_same_identity "Alice" Fixtures.setup_monday ∅
              _ _ eq_refl) as (Hget & i' & Hi' & Hid & _).
  split; [unfold response; rewrite Hget; reflexivity |].
  split; [reflexivity |]. split; [reflexivity |].
  unfold response_value. unfold response in Hi'. rewrite Hi'. simpl.
  rewrite Hid. reflexivity.
Defined.

End StorageFacts.

Module SigningFacts.
Import Identity Base64 Signing.

(** X23.  [signWithWebAuthn] throws every failure on to its caller, and
    asks the authenticator only when everything before has succeeded:
    without WebAuthn support it does nothing at all; when the digest or
    the decoding of the credential's raw id fails there is no prompt.
    When it prompts, it does so once, with the digest of the data as
    challenge and the decoded raw id as the allowed credential, and it
    returns the signature of the assertion. *)
Theorem signing_prompts_once_with_the_digest
    (credential : Credential) (data : bytes) (env : SignEnv) :
  let r := signWithWebAuthn credential data env tt in
  (env_webauthn env = false ->
     r = (Throw (plain_error "WebAuthn not supported"), tt, [])) /\
  (forall e, env_webauthn env = true -> env_digest env = Throw e ->
     r = (Throw e, tt, [Digest "SHA-256" data])) /\
  (forall challenge e, env_webauthn env = true ->
     env_digest env = Ok challenge ->
     base64ToUint8Array (cred_rawId credential) = Throw e ->
     r = (Throw e, tt, [Digest "SHA-256" data])) /\
  (forall challenge credentialId, env_webauthn env = true ->
     env_digest env = Ok challenge ->
     base64ToUint8Array (cred_rawId credential) = Ok credentialId ->
     response r = env_get env /\
     List.filter is_prompt (effects r) =
       [CredentialsGet
          (if bool_decide (env_hostname env = "localhost")
           then "localhost" else env_hostname env)
          challenge credentialId]).
Proof.
  unfold signWithWebAuthn. run. split; [| split; [| split]].
  - intros ->. reflexivity.
  - intros e -> ->. reflexivity.
  - intros challenge e -> -> Hraw. simpl. rewrite Hraw. reflexivity.
  - intros challenge credentialId -> -> Hraw. simpl. rewrite Hraw. simpl.
    destruct (env_get env); split; reflexivity.
Qed.

Lemma signing_prompts_once_with_the_digest_witness :
  signWithWebAuthn Fixtures.fresh_credential [x01; x02; x03]
      (mkSignEnv true "localhost" (Throw Fixtures.crypto_error) (Ok [x63])) tt =
    (Throw Fixtures.crypto_error, tt, [Digest "SHA-256" [x01; x02; x03]]).
Proof.
  destruct (signing_prompts_once_with_the_digest Fixtures.fresh_credential
              [x01; x02; x03]
              (mkSignEnv true "localhost" (Throw Fixtures.crypto_error) (Ok [x63])))
    as (_ & H & _).
  apply H; reflexivity.
Defined.

(** X24.  Signing with the credential made by [setupDevice] presents the
    authenticator with the raw id it issued: the raw id is stored as
    base64 text and decodes to the same bytes, so when the digest
    succeeds the prompt names exactly that credential and the signature
    of the assertion is returned; a rejected prompt is thrown on. *)
Theorem signing_names_the_issued_credential
    (userName : string) (senv : SetupEnv) (pkc : PublicKeyCredential)
    (c : Credential) (i : OrbitIdentity) (data : BytesLike) (env : SignEnv)
    (challenge : bytes) :
  env_create senv = Ok (Some pkc) ->
  response (Identity.setupDevice userName senv tt) = Ok (c, i) ->
  env_webauthn env = true ->
  env_digest env = Ok challenge ->
  response (identity_sign i data env tt) = env_get env /\
  effects (identity_sign i data env tt) =
    [Digest "SHA-256" (as_Uint8Array data);
     CredentialsGet
       (if bool_decide (env_hostname env = "localhost")
        then "localhost" else env_hostname env)
       challenge (pkc_rawId pkc)].
Proof.
  intros Hcreate Hsetup Hweb Hdigest.
  assert (Hc : credential i = c /\ cred_rawId c = arrayBufferToBase64 (pkc_rawId pkc)).
  { revert Hsetup. unfold Identity.setupDevice, Identity.saveWebAuthnCredential,
      createOrbitDBIdentity. run.
    destruct (Identity.env_webauthn senv); simpl; [| discriminate].
    rewrite Hcreate. simpl. intros [= <- <-]. simpl. auto. }
  destruct Hc as [Hcred Hraw].
  unfold identity_sign, signWithWebAuthn. run.
  rewrite Hweb, Hdigest, Hcred, Hraw. simpl.
  rewrite Base64Facts.base64_round_trip_bytes. simpl.
  destruct (env_get env); split; reflexivity.
Qed.

Lemma signing_names_the_issued_credential_witness :
  exists c i,
    response (Identity.setupDevice "Alice" Fixtures.setup_monday tt) = Ok (c, i) /\
    effects (identity_sign i (Uint8Array [x0a; x14])
               (mkSignEnv true "localhost" (Ok [xaa; xbb]) (Ok [x63; x58])) tt) =
      [Digest "SHA-256" [x0a; x14];
       CredentialsGet "localhost" [xaa; xbb] [x01]].
Proof.
  do 2 eexists. split; [reflexivity |].
  eapply (signing_names_the_issued_credential "Alice" Fixtures.setup_monday
            Fixtures.authenticator_answer); reflexivity.
Defined.

End SigningFacts.

(* ====================================================================== *)
(** * Properties of identifiers and descriptors                            *)
(* ====================================================================== *)

Module DescriptorFacts.
Import Identity.

Lemma byte_of_Z_to_N (b : byte) : byte_of_Z (Z.of_N (Byte.to_N b)) = b.
Proof.
  unfold byte_of_Z. pose proof (Byte.to_N_bounded b) as Hb.
  rewrite Z.mod_small by lia. rewrite N2Z.id, Byte.of_to_N. reflexivity.
Qed.

(** X25.  The descriptor that [serializeIdentity] sends to the main
    process carries the identifier and the type unchanged and the public
    key as numbers between 0 and 255, one per byte; converting that array
    back with [new Uint8Array] gives the key bytes again, so verifying
    with the descriptor's key is verifying with the identity's key. *)
Theorem descriptor_carries_the_key (i : OrbitIdentity) :
  let d := serializeIdentity i in
  P2PMain.identity_id d = id i /\
  P2PMain.identity_type d = type i /\
  Forall (fun z => (0 <= z < 256)%Z) (P2PMain.identity_publicKey d) /\
  as_Uint8Array (NumberArray (P2PMain.identity_publicKey d)) = publicKey i /\
  (forall signature data env,
     identity_verify signature data
       (NumberArray (P2PMain.identity_publicKey d)) env tt =
     identity_verify signature data (Uint8Array (publicKey i)) env tt).
Proof.
  assert (Hback : as_Uint8Array
            (NumberArray (P2PMain.identity_publicKey (serializeIdentity i))) =
          publicKey i).
  { unfold serializeIdentity. simpl. rewrite map_map.
    induction (publicKey i) as [|b l IH]; [reflexivity |].
    simpl. rewrite byte_of_Z_to_N, IH. reflexivity. }
  split; [reflexivity |]. split; [reflexivity |]. split; [| split].
  - unfold serializeIdentity. simpl. apply Forall_forall. intros z Hz.
    apply list_elem_of_fmap in Hz as [b [-> _]].
    pose proof (Byte.to_N_bounded b). lia.
  - exact Hback.
  - intros signature data env. unfold identity_verify. rewrite Hback.
    reflexivity.
Qed.

End DescriptorFacts.

Module DidFacts.
Import Identity Did.

Lemma base58_check (check : N -> bool) :
  forallb (fun i => check (N.of_nat i)) (seq 0 58) = true ->
  forall i, (i < 58)%N -> check i = true.
Proof.
  intros Hall i Hi. rewrite forallb_forall in Hall.
  specialize (Hall (N.to_nat i)). rewrite N2Nat.id in Hall.
  apply Hall, in_seq. lia.
Qed.

Lemma digit_char_at (i : N) :
  (i < 58)%N -> digit (char_at base58_alphabet i) = Some i.
Proof.
  intros Hi.
  apply (base58_check
           (fun i => bool_decide (digit (char_at base58_alphabet i) = Some i)))
    in Hi; [| vm_compute; reflexivity].
  by apply bool_decide_eq_true in Hi.
Qed.

Lemma base58_text_app (a b : string) :
  base58_text (a +:+ b) = base58_text a && base58_text b.
Proof.
  unfold base58_text. induction a as [|c a IH]; [reflexivity |].
  simpl. rewrite IH. apply andb_assoc.
Qed.

Lemma base58_digits_text (fuel : nat) (n : N) (acc : string) :
  base58_text acc = true -> base58_text (base58_digits fuel n acc) = true.
Proof.
  revert n acc. induction fuel as [|fuel IH]; intros n acc Hacc; simpl;
    [exact Hacc |].
  destruct (n =? 0)%N; [exact Hacc |].
  apply IH. unfold base58_text. simpl.
  rewrite digit_char_at by (apply N.mod_upper_bound; discriminate).
  exact Hacc.
Qed.

Lemma leading_zeros_text (b : bytes) : base58_text (leading_zeros b) = true.
Proof.
  induction b as [|x b IH]; [reflexivity |].
  destruct x; try reflexivity. exact IH.
Qed.

Lemma append_snoc (a : string) (c : ascii) (b : string) :
  (a +:+ String c "") +:+ b = a +:+ String c b.
Proof.
  induction a as [|x a IH]; [reflexivity |].
  change (String x ((a +:+ String c "") +:+ b) = String x (a +:+ String c b)).
  f_equal. exact IH.
Qed.

Lemma append_empty (a : string) : a +:+ "" = a.
Proof.
  induction a as [|x a IH]; [reflexivity |].
  change (String x (a +:+ "") = String x a). f_equal. exact IH.
Qed.

(** The digits are put in front of [acc]. *)
Lemma base58_digits_suffix (fuel : nat) (n : N) (acc : string) :
  exists front, base58_digits fuel n acc = front +:+ acc.
Proof.
  revert n acc. induction fuel as [|fuel IH]; intros n acc; simpl;
    [exists ""; reflexivity |].
  destruct (n =? 0)%N; [exists ""; reflexivity |].
  destruct (IH (n / 58)%N
              (String (char_at base58_alphabet (n mod 58)%N) acc)) as [front ->].
  exists (front +:+ String (char_at base58_alphabet (n mod 58)%N) "").
  symmetry. apply append_snoc.
Qed.

Lemma bytes_to_N_step (b : bytes) (v : N) :
  (v <= fold_left (fun acc x => acc * 256 + Byte.to_N x) b v)%N.
Proof.
  revert v. induction b as [|x b IH]; intros v; simpl; [lia |].
  etransitivity; [| apply IH]. lia.
Qed.

Lemma encode_nonempty (b : bytes) : b <> [] -> base58_encode b <> "".
Proof.
  intros Hb. unfold base58_encode.
  destruct b as [|x rest]; [contradiction |].
  destruct (Byte.byte_eq_dec x x00) as [-> | Hx].
  - simpl. discriminate.
  - assert (Hpos : (0 < bytes_to_N (x :: rest))%N).
    { change (bytes_to_N (x :: rest)) with
        (fold_left (fun acc x => acc * 256 + Byte.to_N x)%N rest
           (0 * 256 + Byte.to_N x)%N).
      pose proof (bytes_to_N_step rest (0 * 256 + Byte.to_N x)%N) as Hge.
      assert (Byte.to_N x <> 0%N).
      { intros H0. apply Hx.
        pose proof (Byte.of_to_N x) as Hof. rewrite H0 in Hof.
        simpl in Hof. congruence. }
      lia. }
    destruct (bytes_to_N (x :: rest)) as [|p] eqn:Hn; [lia |].
    assert (Hfuel : exists f, N.size_nat (N.pos p) = S f)
      by (destruct p; simpl; eauto).
    destruct Hfuel as [f ->]. simpl base58_digits.
    destruct (base58_digits_suffix f (N.pos p / 58)
                (String (char_at base58_alphabet (N.pos p mod 58)) "")) as [front ->].
    destruct (leading_zeros (x :: rest)); [| discriminate].
    destruct front; discriminate.
Qed.

(** X26.  Every identifier has the form the tests ask for: [generateDID]
    returns "did:key:z" followed by characters of the base-58 alphabet
    only, and at least one such character unless the key is empty (the
    empty key gives the bare prefix "did:key:z"). *)
Theorem generateDID_has_did_key_form (publicKeyBytes : bytes) :
  exists body,
    generateDID publicKeyBytes = "did:key:z" +:+ body /\
    base58_text body = true /\
    (body = "" <-> publicKeyBytes = []).
Proof.
  exists (base58_encode publicKeyBytes).
  split; [reflexivity |]. split.
  - unfold base58_encode. rewrite base58_text_app, leading_zeros_text.
    apply base58_digits_text. reflexivity.
  - split.
    + intros H. destruct publicKeyBytes as [|x rest]; [reflexivity |].
      exfalso. revert H. apply encode_nonempty. discriminate.
    + intros ->. reflexivity.
Qed.

Lemma value_app (a b : string) (v : N) :
  value (a +:+ b) v = value b (value a v).
Proof.
  revert v. induction a as [|c a IH]; intros v; [reflexivity |].
  change (value (String c a +:+ b) v) with
    (value (a +:+ b) (v * 58 + match digit c with Some d => d | None => 0 end)%N).
  apply IH.
Qed.

Lemma digit_one : digit "1" = Some 0%N.
Proof. reflexivity. Qed.

(** What [base58_digits] puts in front of [acc]: the base-58 numeral of
    [n], without a leading zero digit. *)
Lemma digits_repr (fuel : nat) (n : N) (acc : string) :
  (n < 2 ^ N.of_nat fuel)%N ->
  exists numeral,
    base58_digits fuel n acc = numeral +:+ acc /\
    value numeral 0 = n /\
    (forall rest, numeral <> String "1" rest).
Proof.
  revert n acc. induction fuel as [|fuel IH]; intros n acc Hn.
  - exists "". simpl in Hn. split; [reflexivity |]. split; [simpl; lia |].
    discriminate.
  - simpl base58_digits. destruct (n =? 0)%N eqn:Hz.
    + apply N.eqb_eq in Hz. exists "". split; [reflexivity |].
      split; [simpl; lia | discriminate].
    + apply N.eqb_neq in Hz.
      assert (Hdiv : (n / 58 < 2 ^ N.of_nat fuel)%N).
      { rewrite Nat2N.inj_succ, N.pow_succ_r' in Hn.
        set (P := (2 ^ N.of_nat fuel)%N) in *. clearbody P. dlia. }
      destruct (IH (n / 58)%N
                  (String (char_at base58_alphabet (n mod 58)%N) acc) Hdiv)
        as (numeral & Heq & Hval & Hlead).
      exists (numeral +:+ String (char_at base58_alphabet (n mod 58)%N) "").
      split; [rewrite Heq; symmetry; apply append_snoc |]. split.
      * rewrite value_app, Hval. simpl.
        rewrite digit_char_at by (apply N.mod_upper_bound; discriminate).
        dlia.
      * intros rest Hone. destruct numeral as [|d numeral'].
        -- simpl in Hval, Hone. injection Hone as Hc _.
           assert (Hd : digit (char_at base58_alphabet (n mod 58)%N) = Some 0%N)
             by (rewrite Hc; reflexivity).
           rewrite digit_char_at in Hd
             by (apply N.mod_upper_bound; discriminate).
           injection Hd as Hd. dlia.
        -- injection Hone as Hd _. apply (Hlead numeral'). rewrite Hd.
           reflexivity.
Qed.

Lemma below_power_of_size (n : N) : (n < 2 ^ N.of_nat (N.size_nat n))%N.
Proof.
  destruct n as [|p]; [reflexivity |]. simpl N.size_nat.
  induction p as [p IH | p IH |]; simpl Pos.size_nat.
  - rewrite Nat2N.inj_succ, N.pow_succ_r'.
    set (P := (2 ^ N.of_nat (Pos.size_nat p))%N) in *. clearbody P. lia.
  - rewrite Nat2N.inj_succ, N.pow_succ_r'.
    set (P := (2 ^ N.of_nat (Pos.size_nat p))%N) in *. clearbody P. lia.
  - reflexivity.
Qed.

Lemma leading_zeros_ones (b : bytes) : leading_zeros b = ones (zero_count b).
Proof.
  induction b as [|x b IH]; [reflexivity |].
  destruct x; try reflexivity. simpl. rewrite IH. reflexivity.
Qed.

Lemma bytes_to_N_significant (b : bytes) :
  bytes_to_N (significant b) = bytes_to_N b.
Proof.
  induction b as [|x b IH]; [reflexivity |].
  destruct x; try reflexivity. exact IH.
Qed.

Lemma zeros_and_significant (b : bytes) :
  b = (repeat x00 (zero_count b) ++ significant b)%list.
Proof.
  induction b as [|x b IH]; [reflexivity |].
  destruct x; try reflexivity. simpl. rewrite <- IH. reflexivity.
Qed.

Lemma significant_head (b : bytes) (rest : bytes) :
  significant b <> x00 :: rest.
Proof.
  induction b as [|x b IH]; [discriminate |].
  destruct x; try discriminate. exact IH.
Qed.

Lemma ones_split (k k' : nat) (a a' : string) :
  (forall rest, a <> String "1" rest) ->
  (forall rest, a' <> String "1" rest) ->
  ones k +:+ a = ones k' +:+ a' -> k = k' /\ a = a'.
Proof.
  intros Ha Ha'. revert k'. induction k as [|k IH]; intros [|k'] H; simpl in H.
  - auto.
  - exfalso. exact (Ha _ H).
  - exfalso. symmetry in H. exact (Ha' _ H).
  - injection H as H. destruct (IH k' H) as [-> ->]. auto.
Qed.

Lemma to_N_injective (x y : byte) : Byte.to_N x = Byte.to_N y -> x = y.
Proof.
  intros H. pose proof (Byte.of_to_N x) as Hx. rewrite H, Byte.of_to_N in Hx.
  congruence.
Qed.

Lemma bytes_to_N_snoc (b : bytes) (x : byte) :
  bytes_to_N (b ++ [x])%list = (bytes_to_N b * 256 + Byte.to_N x)%N.
Proof. unfold bytes_to_N. rewrite fold_left_app. reflexivity. Qed.

Lemma bytes_to_N_positive (b : bytes) :
  b <> [] -> (forall rest, b <> x00 :: rest) -> (0 < bytes_to_N b)%N.
Proof.
  intros Hne Hhead. destruct b as [|x rest]; [contradiction |].
  change (bytes_to_N (x :: rest)) with
    (fold_left (fun acc x => acc * 256 + Byte.to_N x)%N rest
       (0 * 256 + Byte.to_N x)%N).
  pose proof (bytes_to_N_step rest (0 * 256 + Byte.to_N x)%N) as Hge.
  assert (Byte.to_N x <> 0%N).
  { intros H0. apply (Hhead rest). f_equal. apply to_N_injective.
    rewrite H0. reflexivity. }
  lia.
Qed.

Lemma no_leading_zero_init (b : bytes) (x : byte) :
  (forall rest, (b ++ [x])%list <> x00 :: rest) ->
  forall rest, b <> x00 :: rest.
Proof. intros H rest ->. exact (H (rest ++ [x])%list eq_refl). Qed.

(** Two byte strings without leading zero bytes that denote the same
    number are equal. *)
Lemma bytes_to_N_injective (a b : bytes) :
  (forall rest, a <> x00 :: rest) -> (forall rest, b <> x00 :: rest) ->
  bytes_to_N a = bytes_to_N b -> a = b.
Proof.
  revert b. induction a as [|x a IH] using rev_ind; intros b Ha Hb Heq.
  - destruct b as [|y b]; [reflexivity |].
    pose proof (bytes_to_N_positive (y :: b) ltac:(discriminate) Hb) as Hpos.
    rewrite <- Heq in Hpos. discriminate Hpos.
  - destruct b as [|y b] using rev_ind.
    + pose proof (bytes_to_N_positive (a ++ [x])%list
                    ltac:(intros H; destruct a; discriminate H) Ha) as Hpos.
      rewrite Heq in Hpos. discriminate Hpos.
    + clear IHb. rewrite !bytes_to_N_snoc in Heq.
      pose proof (Byte.to_N_bounded x). pose proof (Byte.to_N_bounded y).
      assert (Hxy : Byte.to_N x = Byte.to_N y) by dlia.
      assert (Hrest : bytes_to_N a = bytes_to_N b) by dlia.
      apply to_N_injective in Hxy as ->. f_equal.
      apply IH; [eapply no_leading_zero_init, Ha
                | eapply no_leading_zero_init, Hb | exact Hrest].
Qed.

Lemma base58_encode_injective (a b : bytes) :
  base58_encode a = base58_encode b -> a = b.
Proof.
  unfold base58_encode. intros H.
  destruct (digits_repr (N.size_nat (bytes_to_N a)) (bytes_to_N a) ""
              (below_power_of_size _)) as (na & Hna & Hva & Hla).
  destruct (digits_repr (N.size_nat (bytes_to_N b)) (bytes_to_N b) ""
              (below_power_of_size _)) as (nb & Hnb & Hvb & Hlb).
  rewrite Hna, Hnb, !leading_zeros_ones in H.
  rewrite !append_empty in H.
  destruct (ones_split _ _ _ _ Hla Hlb H) as [Hk Hn].
  assert (Hval : bytes_to_N a = bytes_to_N b) by (rewrite <- Hva, <- Hvb, Hn; reflexivity).
  rewrite <- (bytes_to_N_significant a), <- (bytes_to_N_significant b) in Hval.
  apply bytes_to_N_injective in Hval; try apply significant_head.
  rewrite (zeros_and_significant a), (zeros_and_significant b), Hk, Hval.
  reflexivity.
Qed.

(** X27.  The identifier is self-certifying: [generateDID] is injective,
    so two different public keys never get the same identifier, and the
    identities that [createOrbitDBIdentity] builds from two credentials
    have the same identifier only if the credentials hold the same key
    bytes. *)
Theorem distinct_keys_get_distinct_identifiers :
  (forall a b : bytes, generateDID a = generateDID b -> a = b) /\
  (forall c1 c2 i1 i2,
     response (createOrbitDBIdentity c1 tt) = Ok i1 ->
     response (createOrbitDBIdentity c2 tt) = Ok i2 ->
     id i1 = id i2 ->
     to_Uint8Array (cred_publicKey c1) = to_Uint8Array (cred_publicKey c2)).
Proof.
  assert (Hinj : forall a b : bytes, generateDID a = generateDID b -> a = b).
  { intros a b H. unfold generateDID, base58btc_encode in H.
    apply StorageFacts.append_injective in H. injection H as H.
    apply base58_encode_injective, H. }
  split; [exact Hinj |].
  intros c1 c2 i1 i2 [= <-] [= <-] Hid. apply Hinj, Hid.
Qed.

Lemma distinct_keys_get_distinct_identifiers_witness :
  generateDID [x00; x01] <> generateDID [x01].
Proof.
  intros H.
  apply (proj1 distinct_keys_get_distinct_identifiers) in H. discriminate H.
Defined.

End DidFacts.

(* ====================================================================== *)
(** * Properties of the application start-up                               *)
(* ====================================================================== *)

Module OutcomeRules.
Import Outcomes.

Section Rules.
Context {S E : Type}.

Lemma ends_bind {A B} (m : Io S E A) (k : A -> Io S E B) (s : S)
    (P : B -> S -> Prop) (Q : JsError -> S -> Prop) :
  ends m s (fun a s' => ends (k a) s' P Q) Q -> ends (bind m k) s P Q.
Proof.
  unfold ends, bind. destruct (m s) as [[[a|e] s1] t1]; [| auto].
  destruct (k a s1) as [[[b|e] s2] t2]; auto.
Qed.

Lemma ends_try_catch {A} (body : Io S E A) (handler : JsError -> Io S E A)
    (s : S) (P : A -> S -> Prop) (Q : JsError -> S -> Prop) :
  ends body s P (fun e s' => ends (handler e) s' P Q) ->
  ends (try_catch body handler) s P Q.
Proof.
  unfold ends, try_catch. destruct (body s) as [[[a|e] s1] t1]; [auto |].
  destruct (handler e s1) as [[[b|e'] s2] t2]; auto.
Qed.

Lemma ends_ret {A} (a : A) (s : S) (P : A -> S -> Prop) Q :
  P a s -> ends (E:=E) (ret a) s P Q.
Proof. exact id. Qed.

Lemma ends_get (s : S) (P : S -> S -> Prop) Q :
  P s s -> ends (E:=E) get s P Q.
Proof. exact id. Qed.

Lemma ends_modify (f : S -> S) (s : S) (P : unit -> S -> Prop) Q :
  P tt (f s) -> ends (E:=E) (modify f) s P Q.
Proof. exact id. Qed.

Lemma ends_emit (e : E) (s : S) (P : unit -> S -> Prop) Q :
  P tt s -> ends (emit e) s P Q.
Proof. exact id. Qed.

Lemma ends_lift {A} (o : Outcome A) (s : S) (P : A -> S -> Prop)
    (Q : JsError -> S -> Prop) :
  match o with Ok a => P a s | Throw e => Q e s end ->
  ends (E:=E) (lift o) s P Q.
Proof. unfold ends, lift. by destruct o. Qed.

Lemma ends_throw {A} (e : JsError) (s : S) (P : A -> S -> Prop)
    (Q : JsError -> S -> Prop) :
  Q e s -> ends (E:=E) (lift (Throw e)) s P Q.
Proof. exact id. Qed.

(** What [ends] says about the response and the final state. *)
Lemma ends_outcome {A} (m : Io S E A) (s : S) (P : A -> S -> Prop)
    (Q : JsError -> S -> Prop) :
  ends m s P Q ->
  (forall a, response (m s) = Ok a -> P a (final (m s))) /\
  (forall e, response (m s) = Throw e -> Q e (final (m s))).
Proof.
  unfold ends, response, final. destruct (m s) as [[[a|e] s1] t1]; simpl;
    intros H; split; intros x Hx; simplify_eq; exact H.
Qed.

End Rules.
End OutcomeRules.

Module AppInitFacts.
Import IpcBridge AppInit Outcomes OutcomeRules.

Lemma ends_with_storage {A}
    (m : Io (gmap string Storage.Item) Identity.Effect A) (w : World)
    (P : A -> World -> Prop) (Q : JsError -> World -> Prop) :
  (forall r store t, m (localStorage (page w)) = (r, store, t) ->
     match r with
     | Ok a => P a (set_localStorage store w)
     | Throw e => Q e (set_localStorage store w)
     end) ->
  ends (with_storage m) w P Q.
Proof.
  intros H. unfold ends, with_storage.
  destruct (m (localStorage (page w))) as [[r store] t] eqn:Hm.
  specialize (H r store t eq_refl). destruct r; exact H.
Qed.

Lemma ends_invoke {A} (m : Io State MainProcess.Effect A) (w : World)
    (P : A -> World -> Prop) (Q : JsError -> World -> Prop) :
  (forall r st t, m (main w) = (r, st, t) ->
     match r with
     | Ok a => P a (set_main st w)
     | Throw e => Q e (set_main st w)
     end) ->
  ends (invoke m) w P Q.
Proof.
  intros H. unfold ends, invoke.
  destruct (m (main w)) as [[r st] t] eqn:Hm.
  specialize (H r st t eq_refl). destruct r; exact H.
Qed.

(** One step of a run of the page. *)
Ltac step :=
  cbv beta zeta;
  lazymatch goal with
  | |- ends (try_catch _ _) _ _ _ => apply ends_try_catch
  | |- ends (bind _ _) _ _ _ => apply ends_bind
  | |- ends (ret _) _ _ _ => apply ends_ret
  | |- ends get _ _ _ => apply ends_get
  | |- ends (modify _) _ _ _ => apply ends_modify
  | |- ends (emit _) _ _ _ => apply ends_emit
  | |- ends (throw_error _) _ _ _ => apply ends_throw
  | |- ends (lift (Throw _)) _ _ _ => apply ends_throw
  | |- ends (lift ?o) _ _ _ => apply ends_lift; destruct o eqn:?
  | |- ends (with_storage _) _ _ _ =>
      apply ends_with_storage; intros [?|?] ? ? ?
  | |- ends (invoke_bridge _) _ _ _ =>
      apply ends_invoke; intros [?|?] ? ? ?
  | |- ends (invoke _) _ _ _ =>
      apply ends_invoke; intros [?|?] ? ? ?
  | |- ends (proxy_all _) _ _ _ => unfold proxy_all
  | |- ends (if ?b then _ else _) _ _ _ => destruct b eqn:?
  | |- ends (match ?x with _ => _ end) _ _ _ => destruct x eqn:?
  end.

(** What the page learns from a successful answer of the main process. *)
Lemma initialize_answer (env : P2PMain.InitEnv) (st st' : State)
    (r : P2PMain.P2PInitResult) (t : list MainProcess.Effect) :
  MainProcess.ipc_initialize env st = (Ok r, st', t) ->
  P2PMain.success r = true ->
  databases st' = databases st /\
  P2PMain.peerId r = Some (default "" (P2PMain.getPeerId (supervisor st'))).
Proof.
  unfold MainProcess.ipc_initialize, MainProcess.in_supervisor,
    P2PMain.initializeP2P, P2PMain.getPeerId.
  run.
  destruct (P2PMain.env_createLibp2p env) as [n|e0]; simpl.
  - destruct (P2PMain.env_newBlockstore env) as [[]|e1]; simpl.
    + destruct (P2PMain.env_newDatastore env) as [[]|e2]; simpl.
      * destruct (P2PMain.env_createHelia env) as [h|e3]; simpl.
        -- intros; simplify_eq; auto.
        -- destruct (property_of e3 "code" (is_level_not_found e3)) as [[|]|?]; simpl; intros; simplify_eq; auto.
      * destruct (property_of e2 "code" (is_level_not_found e2)) as [[|]|?]; simpl; intros; simplify_eq; auto.
    + destruct (property_of e1 "code" (is_level_not_found e1)) as [[|]|?]; simpl; intros; simplify_eq; auto.
  - destruct (property_of e0 "code" (is_level_not_found e0)) as [[|]|?]; simpl; intros; simplify_eq; simpl.
    destruct (P2PMain.libp2p (supervisor st)); auto.
Qed.

Lemma bind_answer (identity : P2PMain.IdentityDescriptor)
    (env : P2PMain.BindEnv) (st st' : State) (r : Outcome P2PMain.BindResult)
    (t : list MainProcess.Effect) :
  MainProcess.ipc_createOrbitDB identity env st = (r, st', t) ->
  databases st' = databases st /\
  P2PMain.libp2p (supervisor st') = P2PMain.libp2p (supervisor st).
Proof.
  unfold MainProcess.ipc_createOrbitDB, MainProcess.in_supervisor,
    P2PMain.createOrbitDBWithIdentity.
  run.
  destruct (P2PMain.helia (supervisor st)); simpl;
    [| intros; simplify_eq; auto].
  destruct (P2PMain.orbitdb (supervisor st)); simpl;
    [intros; simplify_eq; auto |].
  destruct (P2PMain.bind_createOrbitDB env) as [o|e]; simpl;
    [intros; simplify_eq; auto |].
  destruct (property_of e "code" (is_level_not_found e)) as [[|]|?]; simpl; intros; simplify_eq; auto.
Qed.

Lemma open_answer (name : string) (options : OpenOptions)
    (env : Outcome Database) (st st' : State) (r : Response)
    (t : list MainProcess.Effect) :
  MainProcess.in_bridge (handle (Open name options env)) st = (Ok r, st', t) ->
  succeeded r = true ->
  exists db,
    env = Ok db /\
    r = Opened (db_address db) (db_name db) (db_type db) /\
    databases st' = <[db_address db := db]> (databases st) /\
    supervisor st' = supervisor st.
Proof.
  unfold MainProcess.in_bridge, handle, handle_open. run.
  destruct (P2PMain.getOrbitDB (supervisor st)); simpl;
    [| intros; simplify_eq; try discriminate].
  destruct env as [db|e]; simpl; intros; simplify_eq; try discriminate.
  exists db. auto.
Qed.

Lemma query_answer (address : string) (env : QueryEnv) (st st' : State)
    (r : Response) (t : list MainProcess.Effect) :
  MainProcess.in_bridge (handle (Query address None env)) st = (Ok r, st', t) ->
  succeeded r = true ->
  st' = st /\
  exists db documents,
    databases st !! address = Some db /\
    db_type db = "documents" /\
    env_all env = Ok documents /\
    r = Documents documents.
Proof.
  unfold MainProcess.in_bridge, handle, handle_query, not_found, is_documents.
  run.
  destruct (databases st !! address) as [db|]; simpl;
    [| intros; simplify_eq; try discriminate].
  case_bool_decide; simpl; [| intros; simplify_eq; try discriminate].
  destruct (env_all env) as [documents|e]; simpl; intros; simplify_eq;
    try discriminate.
  eauto 10.
Qed.

Lemma close_answer (address : string) (env : Outcome unit) (st st' : State)
    (r : Outcome Response) (t : list MainProcess.Effect) :
  MainProcess.in_bridge (handle (Close address env)) st = (r, st', t) ->
  (exists resp, r = Ok resp) /\
  supervisor st' = supervisor st /\
  (forall other, other <> address ->
     databases st' !! other = databases st !! other) /\
  (env = Ok tt -> databases st' !! address = None) /\
  (forall e, env = Throw e -> databases st' = databases st).
Proof.
  unfold MainProcess.in_bridge, handle, handle_close, not_found. run.
  destruct (databases st !! address) as [db|] eqn:Hdb; simpl;
    [| intros; simplify_eq; eauto 10].
  destruct env as [[]|e]; simpl; intros; simplify_eq; simpl.
  - split; [eauto |]. split; [reflexivity |]. split; [| split].
    + intros other Hother. by rewrite lookup_delete_ne.
    + intros _. apply lookup_delete_eq.
    + discriminate.
  - split; [eauto |]. split; [reflexivity |]. split; [reflexivity |].
    split; [discriminate | reflexivity].
Qed.

(** Every run of [initializeApp]: what holds when it returns, and what
    holds when it throws. *)
Lemma initializeApp_run (env : AppEnv) (w : World) :
  ends (initializeApp env) w
    (fun _ w' =>
       p2pStatus (stores (page w')) = "connected" /\
       orbitdbReady (stores (page w')) = true /\
       userIdentity (stores (page w')) <> None /\
       (app_isElectron env = false ->
          main w' = main w /\
          ipc (page w') = ipc (page w) /\
          proxy (page w') = Some (MockProxy []) /\
          intentions (stores (page w')) = [] /\
          peerId (stores (page w')) = Some (app_mockPeerId env)) /\
       (app_isElectron env = true ->
          exists db documents,
            app_open env = Ok db /\
            env_all (app_query env) = Ok documents /\
            db_type db = "documents" /\
            intentionsDbAddress (page w') = Some (db_address db) /\
            proxy (page w') = Some (ElectronProxy (Some (db_address db))) /\
            databases (main w') !! db_address db = Some db /\
            updateListener (page w') =
              Some (Renderer.subscriber (app_listener env) (db_address db)) /\
            ipc (page w') =
              Renderer.onUpdate
                (Renderer.subscriber (app_listener env) (db_address db))
                (ipc (page w)) /\
            intentions (stores (page w')) = documents /\
            peerId (stores (page w')) =
              Some (default "" (P2PMain.getPeerId (supervisor (main w'))))))
    (fun _ w' =>
       p2pStatus (stores (page w')) = "disconnected" /\
       orbitdbReady (stores (page w')) = false /\
       (app_isElectron env = false ->
          main w' = main w /\ ipc (page w') = ipc (page w))).
Proof.
  unfold initializeApp.
  repeat step; simpl in *;
    try (split; [reflexivity |]; split; [reflexivity |];
         first [ discriminate | intros _; split; reflexivity ]).
  all: split; [reflexivity |]; split; [reflexivity |]; split; [discriminate |].
  all: split; [intros ?; simplify_eq; auto 10 |]; intros Hmode;
    try discriminate Hmode.
  all: repeat match goal with
              | H : negb _ = false |- _ => apply negb_false_iff in H
              end.
  all: match goal with
       | H : MainProcess.in_bridge (handle_open _ _ _) _ = _,
         Hs : succeeded _ = true |- _ =>
           destruct (open_answer _ _ _ _ _ _ _ H Hs)
             as (db & Hopen & -> & Hdbs & Hsup)
       end; simpl in *; simplify_eq.
  all: match goal with
       | H : MainProcess.in_bridge (handle_query _ _ _) _ = _,
         Hs : succeeded _ = true |- _ =>
           destruct (query_answer _ _ _ _ _ _ H Hs)
             as (-> & db' & documents & Hlook & Hty & Hall & ->)
       end.
  all: match goal with
       | H : MainProcess.ipc_initialize _ _ = _,
         Hs : P2PMain.success _ = true |- _ =>
           destruct (initialize_answer _ _ _ _ _ H Hs) as (_ & Hpeer)
       end.
  all: match goal with
       | H : MainProcess.ipc_createOrbitDB _ _ _ = _ |- _ =>
           destruct (bind_answer _ _ _ _ _ _ H) as (_ & Hnode)
       end.
  all: rewrite Hdbs, lookup_insert_eq in Hlook; simplify_eq.
  all: exists db', documents; simpl.
  all: rewrite Hdbs, lookup_insert_eq.
  all: repeat (split; [first [reflexivity | assumption] |]).
  all: rewrite Hpeer; unfold P2PMain.getPeerId; by rewrite Hsup, Hnode.
Qed.

Lemma remove_added_listener (l : Renderer.Listener) (reg : Renderer.Registry) :
  Renderer.removeUpdateListener l (Renderer.onUpdate l reg) = reg.
Proof.
  unfold Renderer.removeUpdateListener, Renderer.onUpdate.
  rewrite rev_app_distr. simpl.
  rewrite !bool_decide_eq_true_2 by reflexivity. simpl.
  apply rev_involutive.
Qed.

(** X28.  The outcome of [initializeApp] shows in the stores.  When it
    returns, [p2pStatus] is "connected", [orbitdbReady] is true and the
    user identity is set; when it throws, whatever step failed and however
    far the start-up had come, [p2pStatus] is "disconnected" and
    [orbitdbReady] is false.  In mock mode (no Electron bridge) neither
    the main process nor the listeners of the page are touched. *)
Theorem initializeApp_outcome_shows_in_the_stores (env : AppEnv) (w : World) :
  let r := initializeApp env w in
  (forall u, response r = Ok u ->
     p2pStatus (stores (page (final r))) = "connected" /\
     orbitdbReady (stores (page (final r))) = true /\
     userIdentity (stores (page (final r))) <> None) /\
  (forall e, response r = Throw e ->
     p2pStatus (stores (page (final r))) = "disconnected" /\
     orbitdbReady (stores (page (final r))) = false) /\
  (app_isElectron env = false ->
     main (final r) = main w /\ ipc (page (final r)) = ipc (page w) /\
     forall u, response r = Ok u ->
       proxy (page (final r)) = Some (MockProxy []) /\
       intentions (stores (page (final r))) = [] /\
       peerId (stores (page (final r))) = Some (app_mockPeerId env)).
Proof.
  cbv zeta.
  destruct (ends_outcome _ _ _ _ (initializeApp_run env w)) as [Hok Hthrow].
  split; [| split].
  - intros u Hu. destruct (Hok u Hu) as (H1 & H2 & H3 & _). auto.
  - intros e He. destruct (Hthrow e He) as (H1 & H2 & _). auto.
  - intros Hmock.
    destruct (response (initializeApp env w)) as [u|e] eqn:Hr.
    + destruct (Hok u eq_refl) as (_ & _ & _ & Hm & _).
      destruct (Hm Hmock) as (H1 & H2 & H3 & H4 & H5). auto 10.
    + destruct (Hthrow e eq_refl) as (_ & _ & Hm).
      destruct (Hm Hmock) as (H1 & H2).
      split; [exact H1 |]. split; [exact H2 |]. discriminate.
Qed.

(** X29.  A start-up under Electron that returns has opened the
    intentions database, subscribed to its updates and loaded it: the
    main process answered the open with a documents database that is now
    in its table under the address the page remembers, exactly one
    listener - watching that address - was added to the page's
    listeners, the [intentions] store holds the documents of [db.all()],
    and the [peerId] store shows the identifier of the node of the main
    process. *)
Theorem initializeApp_success_opens_and_subscribes
    (env : AppEnv) (w : World) (u : unit) :
  app_isElectron env = true ->
  response (initializeApp env w) = Ok u ->
  let w' := final (initializeApp env w) in
  exists db documents,
    app_open env = Ok db /\
    env_all (app_query env) = Ok documents /\
    db_type db = "documents" /\
    intentionsDbAddress (page w') = Some (db_address db) /\
    databases (main w') !! db_address db = Some db /\
    updateListener (page w') =
      Some (Renderer.subscriber (app_listener env) (db_address db)) /\
    ipc (page w') =
      Renderer.onUpdate (Renderer.subscriber (app_listener env) (db_address db))
        (ipc (page w)) /\
    intentions (stores (page w')) = documents /\
    peerId (stores (page w')) =
      Some (default "" (P2PMain.getPeerId (supervisor (main w')))).
Proof.
  intros Hmode Hrun. cbv zeta.
  destruct (ends_outcome _ _ _ _ (initializeApp_run env w)) as [Hok _].
  destruct (Hok u Hrun) as (_ & _ & _ & _ & He).
  destruct (He Hmode)
    as (db & documents & H1 & H2 & H3 & H4 & _ & H6 & H7 & H8 & H9 & H10).
  exists db, documents. auto 12.
Qed.

Lemma initializeApp_success_opens_and_subscribes_witness :
  intentions
    (stores (page (final (initializeApp Scenarios.first_launch
                            Scenarios.before_launch)))) =
    [Fixtures.some_doc] /\
  exists db documents,
    app_open Scenarios.first_launch = Ok db /\
    env_all (app_query Scenarios.first_launch) = Ok documents /\
    db_type db = "documents" /\
    intentionsDbAddress
      (page (final (initializeApp Scenarios.first_launch
                      Scenarios.before_launch))) = Some (db_address db) /\
    databases
      (main (final (initializeApp Scenarios.first_launch
                      Scenarios.before_launch))) !! db_address db = Some db /\
    updateListener
      (page (final (initializeApp Scenarios.first_launch
                      Scenarios.before_launch))) =
      Some (Renderer.subscriber (app_listener Scenarios.first_launch)
              (db_address db)) /\
    ipc (page (final (initializeApp Scenarios.first_launch
                        Scenarios.before_launch))) =
      Renderer.onUpdate
        (Renderer.subscriber (app_listener Scenarios.first_launch)
           (db_address db))
        (ipc (page Scenarios.before_launch)) /\
    intentions
      (stores (page (final (initializeApp Scenarios.first_launch
                              Scenarios.before_launch)))) = documents /\
    peerId
      (stores (page (final (initializeApp Scenarios.first_launch
                              Scenarios.before_launch)))) =
      Some (default ""
              (P2PMain.getPeerId
                 (supervisor
                    (main (final (initializeApp Scenarios.first_launch
                                    Scenarios.before_launch)))))).
Proof.
  split; [vm_compute; reflexivity |].
  apply (initializeApp_success_opens_and_subscribes
           Scenarios.first_launch Scenarios.before_launch tt);
    vm_compute; reflexivity.
Defined.

(** Every run of [shutdownApp] on a page that holds a listener and the
    address of its database. *)
Lemma shutdownApp_run (env_close : Outcome unit) (w1 : World)
    (l : Renderer.Listener) (reg : Renderer.Registry) (address : string) :
  updateListener (page w1) = Some l ->
  ipc (page w1) = Renderer.onUpdate l reg ->
  intentionsDbAddress (page w1) = Some address ->
  address <> "" ->
  ends (shutdownApp true env_close) w1
    (fun _ w2 =>
       ipc (page w2) = reg /\
       updateListener (page w2) = None /\
       intentionsDbAddress (page w2) = None /\
       stores (page w2) = stores (page w1) /\
       proxy (page w2) = proxy (page w1) /\
       supervisor (main w2) = supervisor (main w1) /\
       (env_close = Ok tt -> databases (main w2) !! address = None) /\
       (forall e, env_close = Throw e ->
          databases (main w2) = databases (main w1)))
    (fun _ _ => False).
Proof.
  intros Hlistener Hreg Haddress Hne. unfold shutdownApp.
  repeat step; simpl in *; simplify_eq.
  - by apply bool_decide_eq_true in Heqb.
  - match goal with
    | H : MainProcess.in_bridge _ _ = _ |- _ =>
        destruct (close_answer _ _ _ _ _ _ H) as (_ & Hsup & _ & Hgone & Hkept)
    end.
    rewrite Hreg, remove_added_listener. auto 10.
  - match goal with
    | H : MainProcess.in_bridge _ _ = _ |- _ =>
        destruct (close_answer _ _ _ _ _ _ H) as ([resp Hresp] & _)
    end.
    discriminate.
Qed.

(** X30.  [shutdownApp] undoes the start-up on the page, but not the
    stores.  After a start-up under Electron that returned, [shutdownApp]
    returns, removes the listener it had added (the page's listeners are
    those from before the start-up), forgets the address and asks the
    main process to close the database: it is gone from the table when
    [close()] succeeded and stays there when it threw.  The stores are
    left as they were - [p2pStatus] still reads "connected" and
    [orbitdbReady] true - and the proxy stays in place, so a later
    [all()] on it throws "Database not found: null".  A second
    [shutdownApp] changes nothing. *)
Theorem shutdownApp_undoes_initializeApp
    (env : AppEnv) (w : World) (u : unit) (db : Database)
    (env_close : Outcome unit) :
  app_isElectron env = true ->
  response (initializeApp env w) = Ok u ->
  app_open env = Ok db ->
  db_address db <> "" ->
  let w1 := final (initializeApp env w) in
  let r := shutdownApp (app_isElectron env) env_close w1 in
  response r = Ok tt /\
  ipc (page (final r)) = ipc (page w) /\
  updateListener (page (final r)) = None /\
  intentionsDbAddress (page (final r)) = None /\
  stores (page (final r)) = stores (page w1) /\
  p2pStatus (stores (page (final r))) = "connected" /\
  orbitdbReady (stores (page (final r))) = true /\
  (env_close = Ok tt -> databases (main (final r)) !! db_address db = None) /\
  (forall e, env_close = Throw e ->
     databases (main (final r)) !! db_address db = Some db) /\
  (forall qenv,
     response (proxy_all qenv (final r)) =
       Throw (Identity.plain_error "Database not found: null")) /\
  (forall env_close',
     shutdownApp true env_close' (final r) =
       (Ok tt, final r, [ConsoleLog "App shutdown complete"])).
Proof.
  intros Hmode Hrun Hopen Hne. cbv zeta. rewrite Hmode.
  destruct (ends_outcome _ _ _ _ (initializeApp_run env w)) as [Hok _].
  destruct (Hok u Hrun) as (Hstatus & Hready & _ & _ & He).
  destruct (He Hmode)
    as (db' & documents & H1 & _ & _ & Haddress & _ & Hdb & Hl & Hreg & _).
  rewrite Hopen in H1. injection H1 as <-.
  generalize dependent (final (initializeApp env w)). intros w1 **.
  pose proof (shutdownApp_run env_close w1 _ _ _ Hl Hreg Haddress Hne) as Hends.
  destruct (ends_outcome _ _ _ _ Hends) as [Hok2 Hthrow2].
  destruct (response (shutdownApp true env_close w1)) as [[]|e] eqn:Hr;
    [| destruct (Hthrow2 e eq_refl)].
  destruct (Hok2 tt eq_refl)
    as (Hipc & Hlistener & Hnone & Hstores & _ & _ & Hgone & Hkept).
  generalize dependent (final (shutdownApp true env_close w1)). intros w2 **.
  split; [reflexivity |]. split; [exact Hipc |]. split; [exact Hlistener |].
  split; [exact Hnone |]. split; [exact Hstores |].
  split; [by rewrite Hstores |]. split; [by rewrite Hstores |].
  split; [exact Hgone |].
  split; [intros e He'; by rewrite (Hkept e He') |].
  split.
  - intros qenv. unfold proxy_all. run. rewrite Hnone. reflexivity.
  - intros env_close'. unfold shutdownApp. run. rewrite Hlistener. simpl.
    rewrite Hnone. reflexivity.
Qed.

Lemma shutdownApp_undoes_initializeApp_witness :
  db_address Fixtures.intentions_db <> "" /\
  ipc (page (final (shutdownApp (app_isElectron Scenarios.first_launch) (Ok tt)
                      (final (initializeApp Scenarios.first_launch
                                Scenarios.before_launch))))) =
    ipc (page Scenarios.before_launch).
Proof.
  split; [discriminate |].
  apply (shutdownApp_undoes_initializeApp Scenarios.first_launch
           Scenarios.before_launch tt Fixtures.intentions_db (Ok tt));
    [reflexivity | vm_compute; reflexivity | reflexivity | discriminate].
Defined.


End AppInitFacts.
